(** * Multimodal RAG system: ingestion pipeline, batch embedder and responder

    A shallow embedding of [utils/config.py], [utils/embeddings.py],
    [utils/rag.py], the [RAGChatbot] class of [app/pages/chat.py] and the
    check of the uploads of [app/pages/app.py], followed by the properties
    that are proved about them.

    Conventions of the embedding:
    - Python [int]s are [Z]; [None]-able ints are [option Z]; list indices
      and lengths are [nat];
    - a call that may raise returns a [result]; the exception carries the
      text that [str(e)] would give;
    - everything outside the repository (HTTP endpoints, document loaders,
      the text splitter, the vector store, the file system's failures and the
      thread pools' scheduling) is an explicit environment argument, and the
      theorems quantify over all environments. *)

From Stdlib Require Import ZArith String Ascii QArith Floats DecimalString Permutation Lia.
From stdpp Require Import base list gmap strings sorting.


(** ** A small model of the Python used by the sources *)

(** Exceptions: all are subclasses of [Exception]; the responder tells
    [requests.exceptions.Timeout] apart from the others. *)
Inductive exn :=
| Timeout (msg : string)
| ValueError (msg : string)
| Exception (msg : string).

Definition str (e : exn) : string :=
  match e with Timeout m | ValueError m | Exception m => m end.

Inductive result (A : Type) :=
| Return (a : A)
| Raise (e : exn).
Arguments Return {A} a.
Arguments Raise {A} e.

(** [f"{n}"] for an int. *)
Definition str_Z (n : Z) : string := NilZero.string_of_int (Z.to_int n).
Definition str_nat (n : nat) : string := str_Z (Z.of_nat n).

(** [x or d] where [x] is an int or [None] and [d] an int. *)
Definition py_or (x : option Z) (d : Z) : Z :=
  match x with
  | Some z => if (z =? 0)%Z then d else z
  | None => d
  end.

(** [range(n)] and [range(0, n, step)] for [n >= 0]. *)
Definition range (n : Z) : list Z := map Z.of_nat (seq 0 (Z.to_nat n)).

Definition range_step (n step : Z) : result (list Z) :=
  if (step =? 0)%Z then Raise (ValueError "range() arg 3 must not be zero")
  else if (step <? 0)%Z then Return []
  else Return (map (fun j => (j * step)%Z) (range ((n + step - 1) / step))).

(** [l[i:j]] for [0 <= i], [0 <= j]. *)
Definition slice {A} (l : list A) (i j : Z) : list A :=
  take (Z.to_nat j - Z.to_nat i) (drop (Z.to_nat i) l).

(** [s.endswith(suffix)] and [s.endswith((a, b, c))]. *)
Definition endswith (s suffix : string) : bool :=
  let n := String.length s in
  let m := String.length suffix in
  (m <=? n)%nat && String.eqb (String.substring (n - m) m s) suffix.

Definition endswith_any (s : string) (suffixes : list string) : bool :=
  existsb (endswith s) suffixes.

(** [concurrent.futures.as_completed]: every submitted future is yielded
    once, in an order the pool decides.  [choice] is the pool's decision at
    each step: which of the still pending futures finishes next. *)
Fixpoint completion_order (choice : nat -> nat) (step : nat) (pending : list nat)
    (n : nat) : list nat :=
  match n with
  | O => []
  | S n' =>
      let k := (choice step mod length pending)%nat in
      match pending !! k with
      | Some i => i :: completion_order choice (S step) (delete k pending) n'
      | None => []
      end
  end.

Definition as_completed (choice : nat -> nat) (n : nat) : list nat :=
  completion_order choice 0 (seq 0 n) n.

(** ** utils/config.py *)

Record RAGConfig := {
  EMBEDDING_MAX_WORKERS : option Z;
  EMBEDDING_BATCH_SIZE : Z;
  DOC_PROCESSING_MAX_WORKERS : option Z;
  CHUNK_SIZE : Z;
  CHUNK_OVERLAP : Z;
  IMAGE_MAX_WORKERS : Z;
  FILE_BATCH_SIZE : Z;
  USE_SESSION_POOLING : bool;
  REQUEST_TIMEOUT : Z;
  MAX_RETRIES : Z;
  ENABLE_PROGRESS_LOGGING : bool
}.

(** The class attributes as the module defines them. *)
Definition default_config : RAGConfig := {|
  EMBEDDING_MAX_WORKERS := None;
  EMBEDDING_BATCH_SIZE := 20;
  DOC_PROCESSING_MAX_WORKERS := None;
  CHUNK_SIZE := 300;
  CHUNK_OVERLAP := 100;
  IMAGE_MAX_WORKERS := 4;
  FILE_BATCH_SIZE := 10;
  USE_SESSION_POOLING := true;
  REQUEST_TIMEOUT := 30;
  MAX_RETRIES := 3;
  ENABLE_PROGRESS_LOGGING := true
|}.

(** [os.cpu_count()] is [None] or a positive int. *)
Definition get_optimal_workers (os_cpu_count : option Z) (task_type : string) : Z :=
  let cpu_count := py_or os_cpu_count 4 in
  if String.eqb task_type "cpu" then Z.min 32 (cpu_count + 4)
  else if String.eqb task_type "io" then Z.min 32 (cpu_count * 2)
  else if String.eqb task_type "mixed" then Z.min 16 (cpu_count + 2)
  else cpu_count.

(** ** utils/embeddings.py: the batch embedder *)

Definition Embedding := list float.

(** A Python list of embeddings: a slot is [None] until a result is stored. *)
Definition PyEmbedding := option Embedding.

(** What one call of [embed] does besides returning: its HTTP requests and
    its sleeps ([time.sleep] takes seconds). *)
Inductive effect :=
| Post (text : string) (attempt : Z)
| Sleep (seconds : Q).

(** The attributes of a [TextEmbeddings] that its methods read; the
    [requests] session it may hold is part of the endpoint. *)
Record TextEmbeddings := {
  self_max_workers : Z;
  self_batch_size : Z
}.

Section Embeddings.
Variable cfg : RAGConfig.
Variable os_cpu_count : option Z.

Definition TextEmbeddings_init (max_workers batch_size : option Z) : TextEmbeddings := {|
  self_max_workers :=
    py_or max_workers
      (py_or (EMBEDDING_MAX_WORKERS cfg) (get_optimal_workers os_cpu_count "io"));
  self_batch_size := py_or batch_size (EMBEDDING_BATCH_SIZE cfg)
|}.

(** The body of the [for attempt in range(MAX_RETRIES)] loop of [embed].
    [post attempt] is the outcome of the [try] block of that attempt: the
    request, [raise_for_status] and the extraction of
    [response.json()['embeddings'][0]].  When the loop runs out without
    returning or raising the function returns [None]. *)
Fixpoint embed_loop (post : Z -> result Embedding) (string : string)
    (attempts : list Z) : list effect * result PyEmbedding :=
  match attempts with
  | [] => ([], Return None)
  | attempt :: rest =>
      match post attempt with
      | Return v => ([Post string attempt], Return (Some v))
      | Raise e =>
          if (attempt =? MAX_RETRIES cfg - 1)%Z
          then ([Post string attempt], Raise e)
          else
            let '(effects, r) := embed_loop post string rest in
            (Post string attempt :: Sleep ((1 # 2) * inject_Z (attempt + 1)) :: effects, r)
      end
  end.

Definition embed (post : Z -> result Embedding) (string : string)
    : list effect * result PyEmbedding :=
  embed_loop post string (range (MAX_RETRIES cfg)).

(** [[0.0] * 1024] *)
Definition zero_vector : Embedding := replicate 1024 0%float.

(** One turn of [for future in as_completed(future_to_index)]: the state
    is the [embeddings] list and what was printed. *)
Definition collect_embedding (futures : list (result PyEmbedding))
    (state : list PyEmbedding * list string) (index : nat)
    : list PyEmbedding * list string :=
  let '(embeddings, stdout) := state in
  match futures !! index with
  | Some (Return v) => (<[index := v]> embeddings, stdout)
  | Some (Raise exc) =>
      (<[index := Some zero_vector]> embeddings,
       stdout ++ ["Embedding generation failed for text " +:+ str_nat index
                    +:+ ": " +:+ str exc])
  | None => state
  end.

(** [post i text] is the endpoint as seen by the task submitted for the
    text at position [i]; [choice] is the pool's completion order. *)
Definition _embed_batch (self : TextEmbeddings)
    (post : nat -> string -> Z -> result Embedding)
    (choice : nat -> nat) (texts : list string) : result (list PyEmbedding * list string) :=
  let embeddings := replicate (length texts) None in
  if (self_max_workers self <=? 0)%Z
  then Raise (ValueError "max_workers must be greater than 0")
  else
    let futures := imap (fun i text => snd (embed (post i text) text)) texts in
    Return (foldl (collect_embedding futures) (embeddings, [])
              (as_completed choice (length texts))).

(** The loop of [embed_documents] over the starts of the batches: the
    batch that starts at position [i] of [texts] sees the endpoint of the
    positions [i], [i+1], ...  The state is [all_embeddings] and what was
    printed. *)
Fixpoint embed_batches (self : TextEmbeddings)
    (post : nat -> string -> Z -> result Embedding) (choice : nat -> nat -> nat)
    (texts : list string) (starts : list Z) (state : list PyEmbedding * list string)
    : result (list PyEmbedding * list string) :=
  match starts with
  | [] => Return state
  | i :: rest =>
      let batch := slice texts i (i + self_batch_size self) in
      match _embed_batch self (fun j => post (Z.to_nat i + j)%nat) (choice (Z.to_nat i)) batch with
      | Raise e => Raise e
      | Return (batch_embeddings, printed) =>
          embed_batches self post choice texts rest
            (state.1 ++ batch_embeddings, state.2 ++ printed)
      end
  end.

Definition embed_documents (self : TextEmbeddings)
    (post : nat -> string -> Z -> result Embedding)
    (choice : nat -> nat -> nat) (texts : list string)
    : result (list PyEmbedding * list string) :=
  match texts with
  | [] => Return ([], [])
  | _ =>
      match range_step (Z.of_nat (length texts)) (self_batch_size self) with
      | Raise e => Raise e
      | Return starts => embed_batches self post choice texts starts ([], [])
      end
  end.

Definition embed_query (post : Z -> result Embedding) (text : string) :=
  embed post text.

End Embeddings.

(** An endpoint for the examples: it fails for ["b"] on every try and
    answers every other text with a vector of length 2. *)
Definition stub_post (i : nat) (text : string) (attempt : Z) : result Embedding :=
  if String.eqb text "b" then Raise (Exception "503 Server Error")
  else Return [1%float; 2%float].

(** ** State and exceptions: the monad of the effectful code *)

Definition M (S A : Type) : Type := S -> result A * S.

Definition ret {S A} (a : A) : M S A := fun s => (Return a, s).

Definition raise {S A} (e : exn) : M S A := fun s => (Raise e, s).

Definition bind {S A B} (m : M S A) (k : A -> M S B) : M S B :=
  fun s =>
    match m s with
    | (Return a, s') => k a s'
    | (Raise e, s') => (Raise e, s')
    end.

Declare Scope py_scope.
Delimit Scope py_scope with py.
Notation "x <- m ;; k" := (bind m (fun x => k))
  (at level 100, m at next level, right associativity) : py_scope.
Notation "m ;; k" := (bind m (fun _ => k))
  (at level 100, right associativity) : py_scope.
Open Scope py_scope.

(** [try: m except Exception as e: handler e] *)
Definition try_except {S A} (m : M S A) (handler : exn -> M S A) : M S A :=
  fun s =>
    match m s with
    | (Return a, s') => (Return a, s')
    | (Raise e, s') => handler e s'
    end.

(** [try: m finally: cleanup]: the outcome of [m] stands unless [cleanup]
    itself raises. *)
Definition try_finally {S A} (m : M S A) (cleanup : M S unit) : M S A :=
  fun s =>
    let '(r, s') := m s in
    match cleanup s' with
    | (Return _, s'') => (r, s'')
    | (Raise e, s'') => (Raise e, s'')
    end.

(** The result of a task handed to a pool is kept in its future, raised or
    not. *)
Definition submit {S A} (task : M S A) : M S (result A) :=
  fun s => let '(r, s') := task s in (Return r, s').

Definition future_result {S A} (future : result A) : M S A :=
  fun s => (future, s).

(** [for x in l: body x], threading an accumulator. *)
Fixpoint for_each {S A B} (l : list A) (acc : B) (body : B -> A -> M S B) : M S B :=
  match l with
  | [] => ret acc
  | x :: l' => acc' <- body acc x ;; for_each l' acc' body
  end.

Definition of_result {S A} (r : result A) : M S A := fun s => (r, s).

(** ** utils/rag.py: the ingestion pipeline *)

Record Document := {
  page_content : string;
  metadata : list (string * string)
}.

(** A Streamlit upload: [uploaded_file.name], [uploaded_file.getvalue()]. *)
Record UploadedFile := {
  name : string;
  getvalue : list Byte.byte
}.

(** Work handed to a collaborator outside the repository.  The vision
    endpoint and the vector store's embedding strategy use the network. *)
Inductive call :=
| Load (loader path : string)
| Describe (image : string)
| Split (documents : nat)
| FromDocuments (documents : nat)
| AddDocuments (db : positive) (documents : nat).

(** The world outside the interpreter: the directories with their files,
    what was printed, the work done by collaborators, and a clock that
    counts the questions put to the environment. *)
Record World := {
  fs : gmap string (gmap string (list Byte.byte));
  stdout : list string;
  calls : list call;
  clock : nat
}.

(** The objects the caller shares with the pipeline: the
    [processed_files] lists and the Chroma indexes, by reference.  An index
    is the list of the documents stored in it. *)
Record Heap := {
  lists : gmap positive (list string);
  chroma : gmap positive (list Document)
}.

Definition State : Type := World * Heap.

Definition lift {A} (m : M World A) : M State A :=
  fun s => let '(r, w) := m (fst s) in (r, (w, snd s)).

(** The outcome of an upsert: it may fail after part of the documents went
    in. *)
Inductive upsert :=
| Upserted
| UpsertFailed (e : exn) (stored : nat).

(** The environment answers, at clock [t], every question whose answer the
    sources do not determine. *)
Record Env := {
  os_cpu_count : option Z;
  makedirs_error : nat -> string -> option exn;
  write_error : nat -> string -> option exn;
  rmtree_error : nat -> string -> option exn;
  load : nat -> string -> string -> result (list Document);
  describe_image : nat -> string -> result string;
  splitter_error : nat -> Z -> Z -> option exn;
  split_documents : nat -> Z -> Z -> list Document -> result (list Document);
  from_documents : nat -> list Document -> option exn;
  add_documents : nat -> positive -> list Document -> upsert;
  pool_choice : nat -> nat -> nat;
  elapsed : nat -> string
}.

Definition tick : M World nat :=
  fun w => (Return (clock w),
            {| fs := fs w; stdout := stdout w; calls := calls w; clock := S (clock w) |}).

Definition print (line : string) : M World unit :=
  fun w => (Return tt,
            {| fs := fs w; stdout := stdout w ++ [line]; calls := calls w; clock := clock w |}).

Definition record (c : call) : M World unit :=
  fun w => (Return tt,
            {| fs := fs w; stdout := stdout w; calls := calls w ++ [c]; clock := clock w |}).

Definition get_fs : M World (gmap string (gmap string (list Byte.byte))) :=
  fun w => (Return (fs w), w).

Definition set_fs (d : gmap string (gmap string (list Byte.byte))) : M World unit :=
  fun w => (Return tt,
            {| fs := d; stdout := stdout w; calls := calls w; clock := clock w |}).

Definition option_raise {S} (o : option exn) : M S unit :=
  match o with
  | Some e => raise e
  | None => ret tt
  end.

Section Rag.
Variable cfg : RAGConfig.
Variable env : Env.

(** *** The file system calls of [process_docs] *)

(** [os.makedirs(path, exist_ok=True)] *)
Definition os_makedirs (path : string) : M World unit :=
  t <- tick ;;
  option_raise (makedirs_error env t path) ;;
  d <- get_fs ;;
  match d !! path with
  | Some _ => ret tt
  | None => set_fs (<[path := ∅]> d)
  end.

(** [with open(f"{dir}/{file}", "wb") as f: f.write(data)], for a [file]
    name without a path separator. *)
Definition write_file (dir file : string) (data : list Byte.byte) : M World unit :=
  t <- tick ;;
  option_raise (write_error env t (dir +:+ "/" +:+ file)) ;;
  d <- get_fs ;;
  match d !! dir with
  | Some files => set_fs (<[dir := <[file := data]> files]> d)
  | None => raise (Exception ("No such file or directory: " +:+ dir +:+ "/" +:+ file))
  end.

Definition os_path_exists (path : string) : M World bool :=
  d <- get_fs ;; ret (bool_decide (is_Some (d !! path))).

(** [shutil.rmtree(path)]: a failure leaves the directory in place. *)
Definition shutil_rmtree (path : string) : M World unit :=
  t <- tick ;;
  option_raise (rmtree_error env t path) ;;
  d <- get_fs ;;
  match d !! path with
  | Some _ => set_fs (delete path d)
  | None => raise (Exception ("No such file or directory: " +:+ path))
  end.

(** [ThreadPoolExecutor(max_workers=n)] refuses [n <= 0]. *)
Definition ThreadPoolExecutor {S} (max_workers : Z) : M S unit :=
  if (max_workers <=? 0)%Z
  then raise (ValueError "max_workers must be greater than 0")
  else ret tt.

(** The futures of a pool, in the order the pool completes them. *)
Definition completed {A} (futures : list A) : M World (list (nat * A)) :=
  t <- tick ;;
  ret (omap (fun i => pair i <$> futures !! i)
         (as_completed (pool_choice env t) (length futures))).

(** *** Loaders *)

Definition run_loader (loader file_path : string) : M World (list Document) :=
  t <- tick ;;
  record (Load loader file_path) ;;
  of_result (load env t loader file_path).

Definition image_suffixes : list string := [".jpg"; ".png"; ".jpeg"].

(** [get_image_desc] of [utils/embeddings.py]: the encoding of the file,
    the request to the vision endpoint and the reading of the answer's
    [response] field are one question to the environment. *)
Definition get_image_desc (img : string) : M World (list Document) :=
  t <- tick ;;
  record (Describe img) ;;
  description <- of_result (describe_image env t img) ;;
  ret [{| page_content := description; metadata := [("file_name", img)] |}].

Definition process_input_file (input_file_name : string) : M World (list Document) :=
  try_except
    (if endswith input_file_name ".pdf" then run_loader "PyPDFLoader" input_file_name
     else if endswith input_file_name ".docx" then run_loader "Docx2txtLoader" input_file_name
     else if endswith input_file_name ".json" then run_loader "JSONLoader" input_file_name
     else if endswith input_file_name ".csv" then run_loader "CSVLoader" input_file_name
     else if endswith input_file_name ".py" then run_loader "PythonLoader" input_file_name
     else if endswith input_file_name ".ipynb" then run_loader "NotebookLoader" input_file_name
     else if endswith_any input_file_name image_suffixes then get_image_desc input_file_name
     else print ("Unsupported file type: " +:+ input_file_name) ;; ret [])
    (fun e =>
       print ("Error processing file " +:+ input_file_name +:+ ": " +:+ str e) ;;
       ret []).

(** [get_images_desc_batch] of [utils/embeddings.py] *)
Definition get_images_desc_batch (image_paths : list string) (max_workers : option Z)
    : M World (list Document) :=
  match image_paths with
  | [] => ret []
  | _ =>
      let max_workers :=
        py_or max_workers
          (py_or (Some (IMAGE_MAX_WORKERS cfg)) (Z.min 8 (Z.of_nat (length image_paths)))) in
      ThreadPoolExecutor max_workers ;;
      futures <- for_each image_paths []
                   (fun futures img_path =>
                      future <- submit (get_image_desc img_path) ;;
                      ret (futures ++ [(img_path, future)])) ;;
      done <- completed futures ;;
      for_each done []
        (fun all_documents '(_, (img_path, future)) =>
           try_except
             (documents <- future_result future ;;
              ret (all_documents ++ documents))
             (fun exc =>
                print ("Image processing failed for " +:+ img_path +:+ ": " +:+ str exc) ;;
                ret (all_documents ++
                       [{| page_content := "Failed to process image: " +:+ img_path;
                           metadata := [("file_name", img_path)] |}])))
  end.

Definition is_image (f : string) : bool := endswith_any f image_suffixes.

Definition process_input_files_batch (input_file_names : list string)
    (max_workers : option Z) : M World (list Document) :=
  match input_file_names with
  | [] => ret []
  | _ =>
      let image_files := filter (fun f => is_image f = true) input_file_names in
      let other_files := filter (fun f => is_image f <> true) input_file_names in
      let max_workers :=
        py_or max_workers
          (py_or (DOC_PROCESSING_MAX_WORKERS cfg)
             (get_optimal_workers (os_cpu_count env) "mixed")) in
      let max_workers :=
        match other_files with
        | [] => 4%Z
        | _ => Z.min max_workers (Z.of_nat (length other_files))
        end in
      all_documents <-
        match image_files with
        | [] => ret []
        | _ =>
            try_except
              (get_images_desc_batch image_files
                 (Some (Z.min 4 (Z.of_nat (length image_files)))))
              (fun e => print ("Error processing image files: " +:+ str e) ;; ret [])
        end ;;
      match other_files with
      | [] => ret all_documents
      | _ =>
          ThreadPoolExecutor max_workers ;;
          futures <- for_each other_files []
                       (fun futures file_path =>
                          future <- submit (process_input_file file_path) ;;
                          ret (futures ++ [(file_path, future)])) ;;
          done <- completed futures ;;
          for_each done all_documents
            (fun all_documents '(_, (file_path, future)) =>
               try_except
                 (documents <- future_result future ;;
                  match documents with
                  | [] => ret all_documents
                  | _ => ret (all_documents ++ documents)
                  end)
                 (fun exc =>
                    print ("File processing failed for " +:+ file_path +:+ ": " +:+ str exc) ;;
                    ret all_documents))
      end
  end.

(** *** Splitting *)

(** [RecursiveCharacterTextSplitter(chunk_size=..., chunk_overlap=...)] *)
Definition new_splitter (chunk_size chunk_overlap : Z) : M World unit :=
  t <- tick ;;
  option_raise (splitter_error env t chunk_size chunk_overlap).

Definition splitter_split_documents (chunk_size chunk_overlap : Z)
    (documents : list Document) : M World (list Document) :=
  t <- tick ;;
  record (Split (length documents)) ;;
  of_result (split_documents env t chunk_size chunk_overlap documents).

Definition get_splits (docs : list Document) (chunk_size chunk_overlap : Z)
    (max_workers : option Z) : M World (list Document) :=
  match docs with
  | [] => ret []
  | _ =>
      new_splitter chunk_size chunk_overlap ;;
      if (length docs <=? 10)%nat
      then splitter_split_documents chunk_size chunk_overlap docs
      else
        let max_workers :=
          py_or max_workers (Z.min 4 (Z.of_nat (length docs) / 5)) in
        let batch_size := Z.max 1 (Z.of_nat (length docs) / max_workers) in
        ThreadPoolExecutor max_workers ;;
        starts <- of_result (range_step (Z.of_nat (length docs)) batch_size) ;;
        let batches := map (fun i => slice docs i (i + batch_size)) starts in
        futures <- for_each batches []
                     (fun futures batch =>
                        future <- submit
                                    (splitter_split_documents chunk_size chunk_overlap batch) ;;
                        ret (futures ++ [future])) ;;
        done <- completed futures ;;
        batch_results <-
          for_each done (replicate (length batches) None)
            (fun batch_results '(batch_idx, future) =>
               try_except
                 (r <- future_result future ;;
                  ret (<[batch_idx := Some r]> batch_results))
                 (fun exc =>
                    print ("Document splitting failed for batch " +:+ str_nat batch_idx
                             +:+ ": " +:+ str exc) ;;
                    ret (<[batch_idx := Some []]> batch_results))) ;;
        ret (concat (map (fun batch_result => default [] batch_result) batch_results))
  end.

(** *** The vector store *)

Definition get_heap : M State Heap := fun s => (Return (snd s), s).

Definition set_chroma (c : gmap positive (list Document)) : M State unit :=
  fun s => (Return tt, (fst s, {| lists := lists (snd s); chroma := c |})).

Definition set_lists (l : gmap positive (list string)) : M State unit :=
  fun s => (Return tt, (fst s, {| lists := l; chroma := chroma (snd s) |})).

(** [Chroma.from_documents(documents=splits, embedding=embedding_fn)]: a
    new index that holds the given documents, or an exception. *)
Definition Chroma_from_documents (documents : list Document)
    (embedding : TextEmbeddings) : M State positive :=
  t <- lift tick ;;
  lift (record (FromDocuments (length documents))) ;;
  option_raise (from_documents env t documents) ;;
  h <- get_heap ;;
  let db := fresh (dom (chroma h)) in
  set_chroma (<[db := documents]> (chroma h)) ;;
  ret db.

(** [db.add_documents(documents=splits, embeddings=embedding_fn)]: the
    index is updated in place. *)
Definition Chroma_add_documents (db : positive) (documents : list Document)
    (embeddings : TextEmbeddings) : M State unit :=
  t <- lift tick ;;
  lift (record (AddDocuments db (length documents))) ;;
  h <- get_heap ;;
  match add_documents env t db documents with
  | Upserted =>
      set_chroma (alter (fun stored => stored ++ documents) db (chroma h))
  | UpsertFailed e n =>
      set_chroma (alter (fun stored => stored ++ take n documents) db (chroma h)) ;;
      raise e
  end.

Definition get_db (splits : list Document) (embedding_max_workers : option Z)
    (embedding_batch_size : option Z) : M State (option positive) :=
  match splits with
  | [] => ret None
  | _ =>
      let embedding_fn :=
        TextEmbeddings_init cfg (os_cpu_count env) embedding_max_workers
          embedding_batch_size in
      try_except
        (db <- Chroma_from_documents splits embedding_fn ;;
         ret (Some db))
        (fun e =>
           lift (print ("Error creating database: " +:+ str e)) ;;
           ret None)
  end.

(** *** The pipeline *)

(** The contents of a list object; [l.extend(more)]. *)
Definition list_contents (l : positive) : M State (list string) :=
  h <- get_heap ;; ret (default [] (lists h !! l)).

Definition list_extend (l : positive) (more : list string) : M State unit :=
  h <- get_heap ;; set_lists (alter (fun old => old ++ more) l (lists h)).

(** The staging loop: every upload whose name is not in
    [processed_files] is written under [data/{session_id}]. *)
Definition stage_files (session_id : string) (uploaded_files : list UploadedFile)
    (processed_files : positive) : M State (list string * list string) :=
  for_each uploaded_files ([], [])
    (fun '(temp_files, new_processed) uploaded_file =>
       processed <- list_contents processed_files ;;
       if bool_decide (name uploaded_file ∈ processed)
       then ret (temp_files, new_processed)
       else
         let temp_path := "data/" +:+ session_id +:+ "/" +:+ name uploaded_file in
         lift (write_file ("data/" +:+ session_id) (name uploaded_file)
                 (getvalue uploaded_file)) ;;
         ret (temp_files ++ [temp_path], new_processed ++ [name uploaded_file])).

(** The [finally] block. *)
Definition clean_up (session_id : string) : M State unit :=
  try_except
    (lift (found <- os_path_exists ("data/" +:+ session_id) ;;
           if found then shutil_rmtree ("data/" +:+ session_id) else ret tt))
    (fun e => lift (print ("Warning: Could not clean up temporary files: " +:+ str e))).

(** Where the [try] block stands when it reaches the index write: it has
    returned early (nothing new, nothing extracted, nothing split) or it
    holds the new file names and their chunks. *)
Inductive staged :=
| NothingNew
| NoDocuments
| NoSplits
| Ready (new_processed : list string) (splits : list Document).

(** The [try] block up to the index write: staging, loading, splitting. *)
Definition prepare_splits (session_id : string) (uploaded_files : list UploadedFile)
    (processed_files : positive) (max_workers chunk_size chunk_overlap : Z)
    : M State staged :=
  files <- stage_files session_id uploaded_files processed_files ;;
  let '(temp_files, new_processed) := files in
  match temp_files with
  | [] =>
      lift (print "No new files to process.") ;;
      ret NothingNew
  | _ =>
      lift (print ("Loading " +:+ str_nat (length temp_files) +:+ " files...")) ;;
      all_docs <- lift (process_input_files_batch temp_files (Some max_workers)) ;;
      match all_docs with
      | [] =>
          lift (print "No documents extracted from files.") ;;
          ret NoDocuments
      | _ =>
          lift (print ("Extracted " +:+ str_nat (length all_docs)
                         +:+ " documents. Creating text splits...")) ;;
          splits <- lift (get_splits all_docs chunk_size chunk_overlap (Some max_workers)) ;;
          match splits with
          | [] =>
              lift (print "No text splits created.") ;;
              ret NoSplits
          | _ =>
              lift (print ("Created " +:+ str_nat (length splits)
                             +:+ " text splits. Generating embeddings...")) ;;
              ret (Ready new_processed splits)
          end
      end
  end.

(** "Create or update database". *)
Definition write_index (existing_db : option positive) (splits : list Document)
    (max_workers embedding_batch_size : Z) : M State (option positive) :=
  match existing_db with
  | None => get_db splits (Some max_workers) (Some embedding_batch_size)
  | Some existing =>
      let embedding_fn :=
        TextEmbeddings_init cfg (os_cpu_count env) (Some max_workers)
          (Some embedding_batch_size) in
      try_except
        (Chroma_add_documents existing splits embedding_fn ;;
         ret (Some existing))
        (fun e =>
           lift (print ("Error updating existing database: " +:+ str e)) ;;
           get_db splits (Some max_workers) (Some embedding_batch_size))
  end.

(** The rest of the [try] block: the index write and "Update processed
    files list". *)
Definition commit (processed_files : positive) (existing_db : option positive)
    (new_processed : list string) (splits : list Document)
    (max_workers embedding_batch_size : Z) : M State (option positive * positive) :=
  db <- write_index existing_db splits max_workers embedding_batch_size ;;
  list_extend processed_files new_processed ;;
  t <- lift tick ;;
  lift (print ("Processing completed in " +:+ elapsed env t +:+ " seconds")) ;;
  lift (print ("Processed " +:+ str_nat (length new_processed)
                 +:+ " files, created " +:+ str_nat (length splits) +:+ " chunks")) ;;
  ret (db, processed_files).

(** The [try] block. *)
Definition ingest (session_id : string) (uploaded_files : list UploadedFile)
    (processed_files : positive) (existing_db : option positive)
    (max_workers embedding_batch_size chunk_size chunk_overlap : Z)
    : M State (option positive * positive) :=
  stage <- prepare_splits session_id uploaded_files processed_files
             max_workers chunk_size chunk_overlap ;;
  match stage with
  | NothingNew | NoDocuments | NoSplits => ret (existing_db, processed_files)
  | Ready new_processed splits =>
      commit processed_files existing_db new_processed splits
        max_workers embedding_batch_size
  end.

(** What precedes the [try] block: the progress lines and the two
    [os.makedirs]. *)
Definition set_up (session_id : string) (uploaded_files : list UploadedFile)
    (max_workers embedding_batch_size chunk_size : Z) : M State unit :=
  (if ENABLE_PROGRESS_LOGGING cfg
   then
     lift (print ("Processing " +:+ str_nat (length uploaded_files)
                    +:+ " files with optimized concurrent processing...")) ;;
     lift (print ("Configuration: workers=" +:+ str_Z max_workers
                    +:+ ", batch_size=" +:+ str_Z embedding_batch_size
                    +:+ ", chunk_size=" +:+ str_Z chunk_size))
   else ret tt) ;;
  lift (os_makedirs "data") ;;
  lift (os_makedirs ("data/" +:+ session_id)).

(** The resolved settings of a call. *)
Definition workers_of (max_workers : option Z) : Z :=
  py_or max_workers
    (py_or (DOC_PROCESSING_MAX_WORKERS cfg)
       (get_optimal_workers (os_cpu_count env) "mixed")).

Definition process_docs (session_id : string) (uploaded_files : list UploadedFile)
    (processed_files : positive) (existing_db : option positive)
    (max_workers embedding_batch_size chunk_size chunk_overlap : option Z)
    : M State (option positive * positive) :=
  let max_workers := workers_of max_workers in
  let embedding_batch_size := py_or embedding_batch_size (EMBEDDING_BATCH_SIZE cfg) in
  let chunk_size := py_or chunk_size (CHUNK_SIZE cfg) in
  let chunk_overlap := py_or chunk_overlap (CHUNK_OVERLAP cfg) in
  set_up session_id uploaded_files max_workers embedding_batch_size chunk_size ;;
  try_finally
    (try_except
       (ingest session_id uploaded_files processed_files existing_db
          max_workers embedding_batch_size chunk_size chunk_overlap)
       (fun e =>
          lift (print ("Error during document processing: " +:+ str e)) ;;
          ret (existing_db, processed_files)))
    (clean_up session_id).

End Rag.

(** ** app/pages/chat.py: the responder *)

(** What [RAGChatbot] asks of its [database].  [count] is the number of
    entries of the index; the searches embed the query over the network and
    so may raise. *)
Class VectorStore (DB : Type) := {
  count : DB -> nat;
  similarity_search_with_score : DB -> string -> Z -> result (list (Document * float));
  similarity_search : DB -> string -> Z -> result (list Document)
}.

(** An entry of [conversation_history]. *)
Record Exchange := {
  user : string;
  bot : string;
  context_used : nat
}.

(** The answer of the generation endpoint: the status code and what
    [response.json()['response']] evaluates to. *)
Record Response := {
  status_code : Z;
  json_response : result string
}.

(** [s.lower()] on ASCII text. *)
Definition lower_ascii (c : ascii) : ascii :=
  let n := nat_of_ascii c in
  if ((65 <=? n) && (n <=? 90))%nat then ascii_of_nat (n + 32) else c.

Fixpoint lower (s : string) : string :=
  match s with
  | EmptyString => EmptyString
  | String c s' => String (lower_ascii c) (lower s')
  end.

(** [word in s] for a non-empty [word]. *)
Definition contains (word s : string) : bool :=
  match String.index 0 word s with
  | Some _ => true
  | None => false
  end.

Definition nl : string := String (ascii_of_nat 10) EmptyString.

Section Chat.
Context {DB : Type} `{VectorStore DB}.

(** [retrieve_context]: the chunks returned and the messages handed to
    [st.error].  [database] is [None] or an index object; an index object
    that holds entries is true. *)
Definition retrieve_context (database : option DB) (query : string) (k : Z)
    : list string * list string :=
  match database with
  | None => ([], [])
  | Some db =>
      let body :=
        match similarity_search_with_score db query k with
        | Raise e => Raise e
        | Return results =>
            let context_chunks :=
              map (fun '(doc, score) => page_content doc)
                (filter (fun '(doc, score) => PrimFloat.ltb score 1.5%float = true) results) in
            match context_chunks with
            | [] =>
                match similarity_search db query (Z.min k 3) with
                | Raise e => Raise e
                | Return fallback_results => Return (map page_content fallback_results)
                end
            | _ => Return context_chunks
            end
        end in
      match body with
      | Return context_chunks => (context_chunks, [])
      | Raise e => ([], ["Error retrieving context: " +:+ str e])
      end
  end.

(** [generate_response].  [post prompt] is the outcome of the request to
    the generation endpoint, made with [timeout=30]. *)
Definition task_instruction (query : string) : string :=
  let query_lower := lower query in
  let is_summary :=
    existsb (fun word => contains word query_lower)
      ["summarize"; "summary"; "overview"; "main points"] in
  let is_comparison :=
    existsb (fun word => contains word query_lower)
      ["compare"; "difference"; "versus"; "vs"] in
  let is_explanation :=
    existsb (fun word => contains word query_lower) ["how"; "why"; "explain"] in
  if is_summary
  then "Provide a comprehensive summary of the key points from the context."
  else if is_comparison
  then "Compare the different aspects mentioned in the context, highlighting similarities and differences."
  else if is_explanation
  then "Provide a detailed explanation based on the context, breaking down complex concepts if needed."
  else "Answer the question directly using information from the context.".

Definition build_prompt (conversation_history : list Exchange) (query : string)
    (context : list string) : string :=
  let context_text :=
    match context with
    | [] => "No relevant context found."
    | _ => String.concat (nl +:+ nl) context
    end in
  let recent_history := drop (length conversation_history - 3) conversation_history in
  let conversation_context :=
    foldl (fun acc exchange =>
             acc +:+ "Human: " +:+ user exchange +:+ nl +:+ "Assistant: " +:+ bot exchange
                 +:+ nl +:+ nl)
      "" recent_history in
  String.concat nl
    ["You are a helpful AI assistant that answers questions based on provided document context.";
     "";
     "Previous conversation:";
     conversation_context;
     "";
     "Context from documents:";
     context_text;
     "";
     "Current question: " +:+ query;
     "";
     "Task: " +:+ task_instruction query;
     "";
     "Instructions:";
     "1. Base your answer primarily on the provided context";
     "2. If the context is insufficient, clearly state what information is missing";
     "3. Be accurate and cite specific details from the context when relevant";
     "4. Structure your response clearly with bullet points or numbered lists when appropriate";
     "5. If this relates to previous conversation, acknowledge the connection";
     "6. Keep responses focused and informative";
     "";
     "Answer:"].

Definition generate_response (post : string -> result Response)
    (conversation_history : list Exchange) (query : string) (context : list string)
    : result string :=
  let prompt := build_prompt conversation_history query context in
  let body :=
    match post prompt with
    | Raise e => Raise e
    | Return response =>
        if (status_code response =? 200)%Z
        then json_response response
        else Return ("Error: Failed to get response from AI model (Status: "
                       +:+ str_Z (status_code response) +:+ ")")
    end in
  match body with
  | Return answer => Return answer
  | Raise (Timeout _) => Return "Error: Request timed out. Please try again."
  | Raise e => Return ("Error generating response: " +:+ str e)
  end.

End Chat.

(** ** More of the Python used by the sources *)

(** [str.isspace] on ASCII text: what [split()] and [strip()] treat as
    white space. *)
Definition py_isspace (c : ascii) : bool :=
  let n := nat_of_ascii c in
  ((9 <=? n) && (n <=? 13) || (28 <=? n) && (n <=? 32))%nat.

(** [s.upper()] on ASCII text. *)
Definition upper_ascii (c : ascii) : ascii :=
  let n := nat_of_ascii c in
  if ((97 <=? n) && (n <=? 122))%nat then ascii_of_nat (n - 32) else c.

Fixpoint upper (s : string) : string :=
  match s with
  | EmptyString => EmptyString
  | String c s' => String (upper_ascii c) (upper s')
  end.

(** [s.split(sep)] for a separator of one character: never empty. *)
Fixpoint split_char (sep : ascii) (s : string) : list string :=
  match s with
  | EmptyString => [EmptyString]
  | String c s' =>
      if Ascii.eqb c sep then EmptyString :: split_char sep s'
      else
        match split_char sep s' with
        | word :: words => String c word :: words
        | [] => [String c EmptyString]
        end
  end.

(** [l[-1]] of a list of strings that is not empty. *)
Definition last_item (l : list string) : string := List.last l EmptyString.

(** [s.split()]: the maximal runs of characters that are not white space.
    [word] is the run being read, if any. *)
Fixpoint split_go (word : option string) (s : string) : list string :=
  match s with
  | EmptyString => option_list word
  | String c s' =>
      if py_isspace c then option_list word ++ split_go None s'
      else split_go (Some (default EmptyString word +:+ String c EmptyString)) s'
  end.

Definition split (s : string) : list string := split_go None s.

(** [s.strip()] *)
Fixpoint lstrip (s : string) : string :=
  match s with
  | EmptyString => EmptyString
  | String c s' => if py_isspace c then lstrip s' else s
  end.

Fixpoint rstrip (s : string) : string :=
  match s with
  | EmptyString => EmptyString
  | String c s' =>
      match rstrip s' with
      | EmptyString => if py_isspace c then EmptyString else String c EmptyString
      | rest => String c rest
      end
  end.

Definition strip (s : string) : string := rstrip (lstrip s).

(** [s.replace(old, new)] for a non-empty [old]: the occurrences are
    replaced from the left and do not overlap.  [skip] counts the
    characters of an occurrence still to be passed over. *)
Fixpoint replace_go (old new : string) (skip : nat) (s : string) : string :=
  match s with
  | EmptyString => EmptyString
  | String c s' =>
      match skip with
      | Datatypes.S n => replace_go old new n s'
      | O =>
          if String.prefix old s
          then new +:+ replace_go old new (String.length old - 1) s'
          else String c (replace_go old new 0 s')
      end
  end.

Definition replace (old new s : string) : string := replace_go old new 0 s.

(** [s.startswith((a, b, c))] *)
Definition startswith_any (s : string) (prefixes : list string) : bool :=
  existsb (fun p => String.prefix p s) prefixes.

(** [l[:k]] for any int [k]: a negative [k] counts from the end. *)
Definition upto {A} (l : list A) (k : Z) : list A :=
  if (k <? 0)%Z then take (length l - Z.to_nat (- k)) l else take (Z.to_nat k) l.

(** ** utils/config.py: the settings as attributes of the class *)

(** The values the settings take. *)
Inductive pyval :=
| PyNone
| PyInt (n : Z)
| PyBool (b : bool).

#[global] Instance pyval_eq_dec : EqDecision pyval.
Proof. solve_decision. Defined.

(** The data attributes of [RAGConfig], by name.  The other attributes of
    the class (its methods and what it inherits) all have a lower-case
    letter in their name, so that [hasattr(cls, key.upper())] holds exactly
    for the names of this map. *)
Definition RAGConfig_attrs : gmap string pyval :=
  list_to_map
    [("EMBEDDING_MAX_WORKERS", PyNone); ("EMBEDDING_BATCH_SIZE", PyInt 20);
     ("DOC_PROCESSING_MAX_WORKERS", PyNone); ("CHUNK_SIZE", PyInt 300);
     ("CHUNK_OVERLAP", PyInt 100); ("IMAGE_MAX_WORKERS", PyInt 4);
     ("FILE_BATCH_SIZE", PyInt 10); ("USE_SESSION_POOLING", PyBool true);
     ("REQUEST_TIMEOUT", PyInt 30); ("MAX_RETRIES", PyInt 3);
     ("ENABLE_PROGRESS_LOGGING", PyBool true)].

(** [update_from_dict]: the dict is read in insertion order. *)
Definition update_from_dict (attrs : gmap string pyval)
    (config_dict : list (string * pyval)) : gmap string pyval :=
  foldl
    (fun attrs '(key, value) =>
       if decide (is_Some (attrs !! upper key)) then <[upper key := value]> attrs
       else attrs)
    attrs config_dict.

(** [get_config_dict]: [dir(cls)] lists the names in increasing order; the
    names that start with an underscore are left out. *)
Definition get_config_dict (attrs : gmap string pyval) : list (string * pyval) :=
  (fun '(attr, value) => (lower attr, value))
    <$> filter (fun '(attr, value) => String.prefix "_" attr = false)
          (merge_sort (fun x y => String.le x.1 y.1) (map_to_list attrs)).

Definition LOW_END : list (string * pyval) :=
  [("embedding_max_workers", PyInt 2); ("embedding_batch_size", PyInt 5);
   ("doc_processing_max_workers", PyInt 2); ("image_max_workers", PyInt 1);
   ("file_batch_size", PyInt 3); ("chunk_size", PyInt 200); ("chunk_overlap", PyInt 50)].

Definition MEDIUM : list (string * pyval) :=
  [("embedding_max_workers", PyInt 4); ("embedding_batch_size", PyInt 10);
   ("doc_processing_max_workers", PyInt 4); ("image_max_workers", PyInt 2);
   ("file_batch_size", PyInt 6); ("chunk_size", PyInt 300); ("chunk_overlap", PyInt 100)].

Definition HIGH_END : list (string * pyval) :=
  [("embedding_max_workers", PyInt 8); ("embedding_batch_size", PyInt 30);
   ("doc_processing_max_workers", PyInt 8); ("image_max_workers", PyInt 4);
   ("file_batch_size", PyInt 15); ("chunk_size", PyInt 400); ("chunk_overlap", PyInt 120)].

Definition preset_map : list (string * list (string * pyval)) :=
  [("low", LOW_END); ("medium", MEDIUM); ("high", HIGH_END)].

(** [dict.get] on a dict given by its items. *)
Fixpoint dict_get {V} (d : list (string * V)) (key : string) : option V :=
  match d with
  | [] => None
  | (k, v) :: d' => if String.eqb k key then Some v else dict_get d' key
  end.

Definition apply_preset (attrs : gmap string pyval) (preset_name : string)
    : result (gmap string pyval) :=
  match dict_get preset_map (lower preset_name) with
  | Some preset => Return (update_from_dict attrs preset)
  | None =>
      Raise (ValueError ("Unknown preset: " +:+ preset_name
                           +:+ ". Available: low, medium, high"))
  end.

Definition optimize_for_system (os_cpu_count : option Z) (attrs : gmap string pyval)
    : result (gmap string pyval) :=
  let cpu_count := py_or os_cpu_count 4 in
  if (8 <=? cpu_count)%Z then apply_preset attrs "high"
  else if (4 <=? cpu_count)%Z then apply_preset attrs "medium"
  else apply_preset attrs "low".

(** [get_performance_info]: the keys [system_cpu_count], [current_config]
    and [recommended_preset].  Comparing [None] with an int raises. *)
Definition get_performance_info (os_cpu_count : option Z) (attrs : gmap string pyval)
    : result (option Z * list (string * pyval) * string) :=
  match os_cpu_count with
  | None =>
      Raise (Exception "'>=' not supported between instances of 'NoneType' and 'int'")
  | Some n =>
      Return (os_cpu_count, get_config_dict attrs,
              if (8 <=? n)%Z then "high" else if (4 <=? n)%Z then "medium" else "low")
  end.

(** ** app/pages/app.py: the check of the uploads *)

Definition ALLOWED_EXTENSIONS : list string :=
  [".pdf"; ".docx"; ".png"; ".jpg"; ".jpeg"; ".csv"; ".json"; ".py"; ".ipynb"].

Definition get_file_extension (filename : string) : string :=
  "." +:+ last_item (split_char "." (lower filename)).

(** [uploaded_file] may be [None]. *)
Definition validate_file_type (uploaded_file : option UploadedFile) : bool :=
  match uploaded_file with
  | Some file =>
      let file_extension := last_item (split_char "." (lower (name file))) in
      bool_decide ("." +:+ file_extension ∈ ALLOWED_EXTENSIONS)
  | None => false
  end.

(** The sorting of the uploads in [upload_page]. *)
Definition sort_uploads (uploaded_files : list UploadedFile)
    : list UploadedFile * list UploadedFile :=
  foldl
    (fun '(valid_files, invalid_files) uploaded_file =>
       if validate_file_type (Some uploaded_file)
       then (valid_files ++ [uploaded_file], invalid_files)
       else (valid_files, invalid_files ++ [uploaded_file]))
    ([], []) uploaded_files.

(** ** app/pages/chat.py: the rest of [RAGChatbot] *)

(** An entry of the list that [get_sources] returns. *)
Record Source := {
  content : string;
  source_metadata : list (string * string);
  relevance_score : float
}.

(** What [chat] returns. *)
Record ChatResult := {
  response : string;
  sources : list Source;
  context_chunks : nat;
  conversation_length : nat
}.

Definition enhance_query (query : string) : list string :=
  let enhanced_queries := [query] in
  let query_lower := lower query in
  let enhanced_queries :=
    if startswith_any query_lower ["what"; "how"; "why"; "when"; "where"; "who"]
    then
      match List.tl (split query) with
      | [] => enhanced_queries
      | key_terms => enhanced_queries ++ [String.concat " " key_terms]
      end
    else enhanced_queries in
  if contains "explain" query_lower || contains "describe" query_lower
  then
    let topic := strip (replace "describe" "" (replace "explain" "" query_lower)) in
    enhanced_queries ++ [topic]
  else enhanced_queries.

(** "Remove duplicates while preserving order". *)
Definition unique_step (state : gset string * list string) (context : string)
    : gset string * list string :=
  let '(seen, unique_contexts) := state in
  if decide (context ∈ seen) then state
  else ({[context]} ∪ seen, unique_contexts ++ [context]).

Definition unique (all_contexts : list string) : list string :=
  (foldl unique_step (∅, []) all_contexts).2.

Section Chatbot.
Context {DB : Type} `{VectorStore DB}.

(** [get_sources]: the sources and the messages handed to [st.error]. *)
Definition get_sources (database : option DB) (query : string) (k : Z)
    : list Source * list string :=
  match database with
  | None => ([], [])
  | Some db =>
      match similarity_search_with_score db query k with
      | Return results =>
          (map (fun '(doc, score) =>
                  {| content :=
                       if (200 <? String.length (page_content doc))%nat
                       then String.substring 0 200 (page_content doc) +:+ "..."
                       else page_content doc;
                     source_metadata := metadata doc;
                     relevance_score := score |})
             results,
           [])
      | Raise e => ([], ["Error getting sources: " +:+ str e])
      end
  end.

(** The loop of [retrieve_enhanced_context] over the variants of the
    query: the state is [all_contexts] and the messages of [st.error]. *)
Definition retrieve_variants (database : option DB) (enhanced_queries : list string)
    (k : Z) : list string * list string :=
  foldl
    (fun '(all_contexts, errors) enhanced_query =>
       let '(contexts, shown) := retrieve_context database enhanced_query k in
       (all_contexts ++ contexts, errors ++ shown))
    ([], []) enhanced_queries.

(** [retrieve_enhanced_context]; [k // len(enhanced_queries)] raises when
    the list is empty. *)
Definition retrieve_enhanced_context (database : option DB) (query : string) (k : Z)
    : result (list string * list string) :=
  match database with
  | None => Return ([], [])
  | Some _ =>
      let enhanced_queries := enhance_query query in
      match enhanced_queries with
      | [] => Raise (Exception "integer division or modulo by zero")
      | _ =>
          let '(all_contexts, errors) :=
            retrieve_variants database enhanced_queries
              (k / Z.of_nat (length enhanced_queries) + 1) in
          Return (upto (unique all_contexts) k, errors)
      end
  end.

(** [chat]: what it returns, the new [conversation_history] and the
    messages of [st.error]. *)
Definition chat (post : string -> result Response) (database : option DB)
    (conversation_history : list Exchange) (user_message : string)
    : result (ChatResult * list Exchange * list string) :=
  match retrieve_enhanced_context database user_message 7 with
  | Raise e => Raise e
  | Return (context, errors) =>
      let '(found, more_errors) := get_sources database user_message 3 in
      match generate_response post conversation_history user_message context with
      | Raise e => Raise e
      | Return bot_response =>
          let conversation_history :=
            conversation_history
              ++ [{| user := user_message; bot := bot_response;
                     context_used := length context |}] in
          Return ({| response := bot_response;
                     sources := found;
                     context_chunks := length context;
                     conversation_length := length conversation_history |},
                  conversation_history, errors ++ more_errors)
      end
  end.

End Chatbot.

(** ** Vocabulary of the statements *)

(** What [_embed_batch] stores for a finished future: its result, or the
    zero vector when it raised. *)
Definition stored (future : result PyEmbedding) : PyEmbedding :=
  match future with
  | Return v => v
  | Raise _ => Some zero_vector
  end.

(** The requests and sleeps of a call of [embed] whose first [k] attempts
    fail and that stops at attempt [k]. *)
Definition attempts_until (string : string) (k : nat) : list effect :=
  flat_map
    (fun j => [Post string (Z.of_nat j); Sleep ((1 # 2) * inject_Z (Z.of_nat j + 1))])
    (seq 0 k)
  ++ [Post string (Z.of_nat k)].

(** The index writes among the calls made. *)
Definition is_index_write (c : call) : Prop :=
  match c with
  | FromDocuments _ | AddDocuments _ _ => True
  | _ => False
  end.

#[global] Instance is_index_write_dec c : Decision (is_index_write c).
Proof. destruct c; simpl; apply _. Defined.

Definition index_writes (cs : list call) : list call := filter is_index_write cs.

(** The contract of a top-[k] search: it returns [min k count] documents. *)
Definition top_k_contract {DB} `{VectorStore DB} (db : DB) : Prop :=
  forall query k docs,
    similarity_search db query k = Return docs ->
    length docs = Nat.min (Z.to_nat k) (count db).

(** The hits that [retrieve_context] keeps. *)
Definition under_threshold (results : list (Document * float)) : list (Document * float) :=
  filter (fun '(doc, score) => PrimFloat.ltb score 1.5%float = true) results.

(** [preserves R m]: every run of [m], returning or raising, takes a state
    to an [R]-related one. *)
Definition preserves {S A} (R : relation S) (m : M S A) : Prop :=
  forall s r s', m s = (r, s') -> R s s'.

(** Relations between the world before and after: no collaborator was
    called; no index was written. *)
Definition same_calls : relation World := fun w w' => calls w' = calls w.

Definition same_index_writes : relation World :=
  fun w w' => index_writes (calls w') = index_writes (calls w).

(** What was printed stays printed. *)
Definition stdout_grows : relation World :=
  fun w w' => stdout w `prefix_of` stdout w'.

(** The same for a state whose heap must moreover be untouched. *)
Definition on_world (R : relation World) : relation State :=
  fun s s' => R s.1 s'.1 /\ s'.2 = s.2.

(** [returns m]: no run of [m] raises. *)
Definition returns {S A} (m : M S A) : Prop :=
  forall s, exists a s', m s = (Return a, s').




(** An int that is [None], zero or positive, as a pool size or a batch
    size may be given. *)
Definition unset_or_positive (x : option Z) : Prop :=
  forall n, x = Some n -> (0 <= n)%Z.

(** The document that [get_images_desc_batch] keeps for an image: its
    description, or the placeholder when the description failed. *)
Definition image_document (outcome : result string) (img_path : string) : Document :=
  {| page_content :=
       match outcome with
       | Return description => description
       | Raise _ => "Failed to process image: " +:+ img_path
       end;
     metadata := [("file_name", img_path)] |}.

(** Nothing happened but printing. *)
Definition only_prints : relation World :=
  fun w w' => fs w' = fs w /\ calls w' = calls w /\ clock w' = clock w.

(** The loader that [process_input_file] picks for a file name. *)
Definition loader_for (input_file_name : string) : option string :=
  if endswith input_file_name ".pdf" then Some "PyPDFLoader"
  else if endswith input_file_name ".docx" then Some "Docx2txtLoader"
  else if endswith input_file_name ".json" then Some "JSONLoader"
  else if endswith input_file_name ".csv" then Some "CSVLoader"
  else if endswith input_file_name ".py" then Some "PythonLoader"
  else if endswith input_file_name ".ipynb" then Some "NotebookLoader"
  else None.

(** What [process_input_file] extracts from a file at clock [t]: the
    documents of its loader or the description of the image, and nothing
    when that raises or when the type is not supported. *)
Definition file_documents (env : Env) (t : nat) (input_file_name : string) : list Document :=
  match loader_for input_file_name with
  | Some loader =>
      match load env t loader input_file_name with
      | Return documents => documents
      | Raise _ => []
      end
  | None =>
      if is_image input_file_name
      then
        match describe_image env t input_file_name with
        | Return description =>
            [{| page_content := description; metadata := [("file_name", input_file_name)] |}]
        | Raise _ => []
        end
      else []
  end.

(** Loaders and a vision endpoint whose answers do not depend on the time
    of the call. *)
Definition stable_loaders (env : Env) : Prop :=
  (forall t t' loader file, load env t loader file = load env t' loader file)
  /\ (forall t t' img, describe_image env t img = describe_image env t' img).

(** [c in s] for a character [c]. *)
Fixpoint has_char (c : ascii) (s : string) : bool :=
  match s with
  | EmptyString => false
  | String d s' => Ascii.eqb d c || has_char c s'
  end.

(** ** Stores and environments for the examples *)

(** A store that ranks its entries in the order given, whatever the query.
    Each kind of search reaches the embedding endpoint or does not. *)
Record ToyStore := {
  entries : list (Document * float);
  scored_search_up : bool;
  plain_search_up : bool
}.

#[global] Instance ToyStore_VectorStore : VectorStore ToyStore := {|
  count db := length (entries db);
  similarity_search_with_score db query k :=
    if scored_search_up db then Return (take (Z.to_nat k) (entries db))
    else Raise (Exception "Connection refused");
  similarity_search db query k :=
    if plain_search_up db then Return (map fst (take (Z.to_nat k) (entries db)))
    else Raise (Exception "Connection refused")
|}.

Definition doc (text : string) : Document := {| page_content := text; metadata := [] |}.

(** Two chunks, both farther than the threshold from any query. *)
Definition far_entries : list (Document * float) :=
  [(doc "The capital of France is Paris.", 1.75%float); (doc "Rhubarb.", 2%float)].

(** An environment in which directories can always be made, every loader
    returns [loaded], the splitter returns the documents as they are, and
    the rest is as given: the failure, if any, of writing a staged file, of
    removing a directory, of building an index, and the outcome of an
    upsert. *)
Definition example_env (write_err rmtree_err : option exn) (loaded : list Document)
    (from_err : option exn) (add : upsert) : Env := {|
  os_cpu_count := Some 4%Z;
  makedirs_error := fun _ _ => None;
  write_error := fun _ _ => write_err;
  rmtree_error := fun _ _ => rmtree_err;
  load := fun _ _ _ => Return loaded;
  describe_image := fun _ image => Return ("A picture: " +:+ image);
  splitter_error := fun _ _ _ => None;
  split_documents := fun _ _ _ documents => Return documents;
  from_documents := fun _ _ => from_err;
  add_documents := fun _ _ _ => add;
  pool_choice := fun _ step => step;
  elapsed := fun _ => "0.42"
|}.

Definition page : list Document := [doc "The capital of France is Paris."].

Definition empty_world : World := {| fs := ∅; stdout := []; calls := []; clock := 0 |}.

(** A session that has ingested [old.pdf]: its list is object 1 and its
    index is object 2. *)
Definition session_heap : Heap := {|
  lists := {[ 1%positive := ["old.pdf"] ]};
  chroma := {[ 2%positive := [doc "An old chunk."] ]}
|}.

Definition upload (file : string) : UploadedFile :=
  {| name := file; getvalue := [Byte.x25; Byte.x50; Byte.x44; Byte.x46] |}.

(** An environment in which directories are made or not as [makedirs]
    says, images are described by [describe], the splitter is [split] and
    the pools complete their tasks as [choice] says; every loader returns
    [page] and nothing else fails. *)
Definition lab_env (makedirs : string -> option exn) (describe : string -> result string)
    (split : list Document -> result (list Document)) (choice : nat -> nat -> nat) : Env := {|
  os_cpu_count := None;
  makedirs_error := fun _ => makedirs;
  write_error := fun _ _ => None;
  rmtree_error := fun _ _ => None;
  load := fun _ _ _ => Return page;
  describe_image := fun _ => describe;
  splitter_error := fun _ _ _ => None;
  split_documents := fun _ _ _ => split;
  from_documents := fun _ _ => None;
  add_documents := fun _ _ _ => Upserted;
  pool_choice := choice;
  elapsed := fun _ => "0.42"
|}.

(** A vision endpoint that fails for [b.png]. *)
Definition flaky_vision (image : string) : result string :=
  if String.eqb image "b.png" then Raise (Exception "500 Server Error")
  else Return ("A picture: " +:+ image).

(** Twelve documents: enough for the parallel path of [get_splits]. *)
Definition twelve_pages : list Document := replicate 12 (doc "The capital of France is Paris.").


(** A store with the two far chunks, reachable by both searches. *)
Definition toy_store : ToyStore :=
  {| entries := far_entries; scored_search_up := true; plain_search_up := true |}.

(** Four exchanges of a conversation. *)
Definition four_exchanges : list Exchange :=
  [{| user := "Hello"; bot := "Hi."; context_used := 0 |};
   {| user := "What is Paris?"; bot := "A city."; context_used := 2 |};
   {| user := "Where?"; bot := "In France."; context_used := 1 |};
   {| user := "Thanks"; bot := "You are welcome."; context_used := 0 |}].

(** * Properties *)

(** ** Runs of the model *)

(** A pool of six futures completes them in some order, each once. *)
Example as_completed_run :
  as_completed (fun step => step * 7 + 3)%nat 6 = [3; 0; 2; 1; 5; 4]%nat.
Proof. reflexivity. Qed.

(** [range(0, 5, 2)], and the steps that Python refuses or leaves empty. *)
Example range_step_run :
  range_step 5 2 = Return [0; 2; 4]%Z
  /\ range_step 5 (-1) = Return []
  /\ range_step 5 0 = Raise (ValueError "range() arg 3 must not be zero").
Proof. repeat split. Qed.

(** An embedding that succeeds at the second attempt. *)
Example embed_second_attempt :
  embed default_config
    (fun attempt => if (attempt =? 0)%Z then Raise (Exception "502 Bad Gateway")
                    else Return [1%float])
    "a"
  = ([Post "a" 0; Sleep ((1 # 2) * inject_Z 1); Post "a" 1], Return (Some [1%float])).
Proof. reflexivity. Qed.

(** A first ingestion: a PDF and an unsupported file are staged, the PDF
    is loaded, split and indexed, both names are committed and the staging
    directory is gone. *)
Example process_docs_run :
  let run :=
    process_docs default_config (example_env None None page None Upserted)
      "s1" [upload "a.pdf"; upload "old.pdf"; upload "notes.xyz"] 1 None None None None None
      (empty_world, session_heap) in
  run.1 = Return (Some 3%positive, 1%positive)
  /\ lists run.2.2 !! 1%positive = Some ["old.pdf"; "a.pdf"; "notes.xyz"]
  /\ chroma run.2.2 !! 3%positive = Some page
  /\ calls run.2.1 = [Load "PyPDFLoader" "data/s1/a.pdf"; Split 1; FromDocuments 1]
  /\ fs run.2.1 !! "data/s1" = None.
Proof. vm_compute. repeat split. Qed.

(** ** Thread pools *)

Lemma completion_order_perm choice step pending :
  completion_order choice step pending (length pending) ≡ₚ pending.
Proof.
  remember (length pending) as n eqn:Hn.
  revert step pending Hn.
  induction n as [|n IH]; intros step pending Hn.
  - destruct pending; [reflexivity | discriminate].
  - simpl.
    assert (Hk : (choice step mod length pending < length pending)%nat)
      by (apply Nat.mod_upper_bound; lia).
    destruct (lookup_lt_is_Some_2 _ _ Hk) as [i Hi].
    rewrite Hi.
    etransitivity; [| symmetry; apply (delete_Permutation pending _ i Hi)].
    constructor.
    apply IH.
    rewrite length_delete by eauto. lia.
Qed.

Lemma as_completed_perm choice n : as_completed choice n ≡ₚ seq 0 n.
Proof.
  unfold as_completed.
  pose proof (completion_order_perm choice 0 (seq 0 n)) as Hperm.
  rewrite length_seq in Hperm. exact Hperm.
Qed.

Lemma elem_of_as_completed choice n i : i ∈ as_completed choice n ↔ (i < n)%nat.
Proof. rewrite as_completed_perm, elem_of_seq. lia. Qed.

(** ** The batch embedder *)

Section EmbedderFacts.
Variable cfg : RAGConfig.

(** The loop over the attempts [a], [a+1], ...: when the attempts before
    [a + d] fail and attempt [a + d] succeeds or is the last one allowed,
    the loop stops there. *)
Lemma embed_loop_stops post text d : forall a m,
  (d < m)%nat ->
  (Z.of_nat (a + d) < MAX_RETRIES cfg)%Z ->
  (forall j, (a <= j < a + d)%nat -> exists e, post (Z.of_nat j) = Raise e) ->
  (Z.of_nat (a + d) = MAX_RETRIES cfg - 1 \/ exists v, post (Z.of_nat (a + d)) = Return v)%Z ->
  embed_loop cfg post text (map Z.of_nat (seq a m))
  = (flat_map
       (fun j => [Post text (Z.of_nat j); Sleep ((1 # 2) * inject_Z (Z.of_nat j + 1))])
       (seq a d)
     ++ [Post text (Z.of_nat (a + d))],
     match post (Z.of_nat (a + d)) with
     | Return v => Return (Some v)
     | Raise e => Raise e
     end).
Proof.
  induction d as [|d IH]; intros a m Hm Hlt Hfail Hstop.
  - destruct m as [|m]; [lia |].
    rewrite Nat.add_0_r in *. simpl.
    destruct (post (Z.of_nat a)) as [v|e] eqn:Hpost; [reflexivity |].
    destruct Hstop as [Hlast | [v Hv]]; [| discriminate].
    rewrite Hlast, Z.eqb_refl. reflexivity.
  - destruct m as [|m]; [lia |].
    simpl.
    destruct (Hfail a) as [e He]; [lia |].
    rewrite He.
    destruct (Z.eqb_spec (Z.of_nat a) (MAX_RETRIES cfg - 1)) as [Heq | _]; [lia |].
    replace (a + S d)%nat with (S a + d)%nat in * by lia.
    rewrite (IH (S a) m); [reflexivity | lia | assumption | | assumption].
    intros j Hj. apply Hfail. lia.
Qed.

(** A future of [_embed_batch] settles the slot of its own index only. *)
Lemma collect_embedding_lookup futures order : forall embeddings printed i,
  length embeddings = length futures ->
  (foldl (collect_embedding futures) (embeddings, printed) order).1 !! i
  = if decide (i ∈ order) then stored <$> futures !! i else embeddings !! i.
Proof.
  induction order as [|index order IH]; intros embeddings printed i Hlen.
  - simpl. destruct (decide (i ∈ [])) as [Hin|_]; [| reflexivity].
    by apply not_elem_of_nil in Hin.
  - cbn [foldl].
    assert (Hstep : exists embeddings' printed',
               collect_embedding futures (embeddings, printed) index
               = (embeddings', printed')
               /\ length embeddings' = length futures
               /\ embeddings' !! i
                  = if decide (i = index) then stored <$> futures !! i
                    else embeddings !! i).
    { unfold collect_embedding.
      destruct (futures !! index) as [[v|exc]|] eqn:Hfut.
      - eexists _, _. split; [reflexivity |]. rewrite length_insert. split; [done |].
        destruct (decide (i = index)) as [-> |Hne].
        + rewrite Hfut. simpl. apply list_lookup_insert_eq.
          rewrite Hlen. eapply lookup_lt_Some, Hfut.
        + by rewrite list_lookup_insert_ne.
      - eexists _, _. split; [reflexivity |]. rewrite length_insert. split; [done |].
        destruct (decide (i = index)) as [-> |Hne].
        + rewrite Hfut. simpl. apply list_lookup_insert_eq.
          rewrite Hlen. eapply lookup_lt_Some, Hfut.
        + by rewrite list_lookup_insert_ne.
      - eexists _, _. split; [reflexivity |]. split; [done |].
        destruct (decide (i = index)) as [-> |Hne]; [| done].
        rewrite Hfut. simpl. apply lookup_ge_None.
        rewrite Hlen. by apply lookup_ge_None. }
    destruct Hstep as (embeddings' & printed' & -> & Hlen' & Hi).
    rewrite IH by assumption.
    destruct (decide (i ∈ order)) as [Hin|Hnin].
    + rewrite decide_True by (apply elem_of_cons; by right). reflexivity.
    + rewrite Hi. destruct (decide (i = index)) as [-> |Hne].
      * rewrite decide_True by (apply elem_of_cons; by left). reflexivity.
      * rewrite decide_False; [reflexivity |].
        intros [? | ?]%elem_of_cons; contradiction.
Qed.

Lemma collect_embedding_length futures order : forall embeddings printed,
  length (foldl (collect_embedding futures) (embeddings, printed) order).1
  = length embeddings.
Proof.
  induction order as [|index order IH]; intros embeddings printed; [reflexivity |].
  cbn [foldl]. unfold collect_embedding at 2.
  destruct (futures !! index) as [[v|exc]|]; rewrite IH, ?length_insert; reflexivity.
Qed.

(** Whatever the completion order, a batch is the positional image of its
    texts. *)
Lemma _embed_batch_imap self post choice texts :
  (0 < self_max_workers self)%Z ->
  exists printed,
    _embed_batch cfg self post choice texts
    = Return (imap (fun i text => stored (embed cfg (post i text) text).2) texts, printed).
Proof.
  intros Hworkers. unfold _embed_batch.
  destruct (Z.leb_spec (self_max_workers self) 0) as [|_]; [lia |].
  eexists. f_equal. apply injective_projections; [| reflexivity].
  cbn [fst].
  apply list_eq; intros i.
  rewrite collect_embedding_lookup by (by rewrite length_replicate, length_imap).
  rewrite !list_lookup_imap.
  destruct (decide (i ∈ as_completed choice (length texts))) as [Hin|Hnin].
  - destruct (texts !! i); reflexivity.
  - rewrite elem_of_as_completed in Hnin.
    assert (texts !! i = None) as -> by (apply lookup_ge_None; lia). simpl.
    apply lookup_replicate_None. lia.
Qed.

(** [all_embeddings.extend(batch_embeddings)] over the batches is the
    concatenation of the batches. *)
Lemma embed_batches_concat self post choice texts starts :
  (0 < self_max_workers self)%Z ->
  forall state, exists printed,
    embed_batches cfg self post choice texts starts state
    = Return
        (state.1 ++
           concat (map (fun i =>
                          imap (fun j text =>
                                  stored (embed cfg (post (Z.to_nat i + j)%nat text) text).2)
                            (slice texts i (i + self_batch_size self)))
                     starts),
         printed).
Proof.
  intros Hworkers.
  induction starts as [|i starts IH]; intros state.
  - simpl. rewrite app_nil_r. destruct state. by eexists.
  - cbn [embed_batches map concat].
    destruct (_embed_batch_imap self (fun j => post (Z.to_nat i + j)%nat)
                (choice (Z.to_nat i)) (slice texts i (i + self_batch_size self)) Hworkers)
      as [printed ->].
    destruct (IH (state.1 ++
                    imap (fun j text =>
                            stored (embed cfg (post (Z.to_nat i + j)%nat text) text).2)
                      (slice texts i (i + self_batch_size self)),
                  state.2 ++ printed)) as [printed' ->].
    exists printed'. cbn [fst]. by rewrite app_assoc.
Qed.

End EmbedderFacts.

(** Cutting a list into consecutive batches of [b] elements, mapping each
    batch with its offset and concatenating is mapping the list. *)
Lemma imap_batches {X Y} (h : nat -> X -> Y) (b : nat) (l : list X) m :
  concat (map (fun j => imap (fun p => h (j * b + p)%nat) (take b (drop (j * b) l))) (seq 0 m))
  = imap h (take (m * b) l).
Proof.
  induction m as [|m IH].
  - reflexivity.
  - rewrite seq_S, map_app, concat_app, IH. cbn [map concat plus]. rewrite app_nil_r.
    replace (S m * b)%nat with (m * b + b)%nat by lia.
    rewrite <- (take_take_drop l (m * b) b), imap_app.
    f_equal.
    destruct (decide (m * b <= length l)%nat) as [Hle|Hgt].
    + rewrite length_take, Nat.min_l by assumption. reflexivity.
    + rewrite drop_ge by lia. by rewrite take_nil.
Qed.

Lemma ceil_div_covers (n b : Z) : (0 < b -> n <= (n + b - 1) / b * b)%Z.
Proof.
  intros Hb.
  pose proof (Z.div_mod (n + b - 1) b ltac:(lia)) as Hdiv.
  pose proof (Z.mod_pos_bound (n + b - 1) b Hb) as Hmod.
  lia.
Qed.

Lemma embed_documents_imap cfg self post choice texts :
  (0 < self_max_workers self)%Z ->
  (0 < self_batch_size self)%Z ->
  exists printed,
    embed_documents cfg self post choice texts
    = Return (imap (fun i text => stored (embed cfg (post i text) text).2) texts, printed).
Proof.
  intros Hworkers Hb. unfold embed_documents.
  destruct texts as [|text0 texts']; [by eexists |].
  set (texts := text0 :: texts').
  unfold range_step.
  destruct (Z.eqb_spec (self_batch_size self) 0) as [|_]; [lia |].
  destruct (Z.ltb_spec (self_batch_size self) 0) as [|_]; [lia |].
  match goal with
  | |- context [embed_batches cfg self post choice texts ?starts ?state] =>
      destruct (embed_batches_concat cfg self post choice texts starts Hworkers state)
        as [printed ->]
  end.
  exists printed. f_equal. f_equal.
  cbn [fst app]. unfold range. rewrite !map_map.
  set (b := Z.to_nat (self_batch_size self)).
  set (m := Z.to_nat ((Z.of_nat (length texts) + self_batch_size self - 1)
                       / self_batch_size self)).
  transitivity (imap (fun i text => stored (embed cfg (post i text) text).2)
                  (take (m * b) texts)); [| f_equal; apply take_ge].
  - rewrite <- imap_batches. f_equal. apply map_ext. intros j.
    unfold slice.
    replace (Z.to_nat (Z.of_nat j * self_batch_size self)) with (j * b)%nat by (subst b; lia).
    replace (Z.to_nat (Z.of_nat j * self_batch_size self + self_batch_size self)
             - j * b)%nat with b by (subst b; lia).
    reflexivity.
  - pose proof (ceil_div_covers (Z.of_nat (length texts)) _ Hb) as Hcover.
    assert (0 <= (Z.of_nat (length texts) + self_batch_size self - 1)
                 / self_batch_size self)%Z by (apply Z.div_pos; lia).
    subst m b. nia.
Qed.

(** When every allowed attempt fails, [embed] raises. *)
Lemma embed_exhausted cfg post text :
  (0 < MAX_RETRIES cfg)%Z ->
  (forall attempt, (0 <= attempt < MAX_RETRIES cfg)%Z -> exists e, post attempt = Raise e) ->
  exists e, (embed cfg post text).2 = Raise e.
Proof.
  intros Hmax Hfail. unfold embed, range.
  set (k := Z.to_nat (MAX_RETRIES cfg - 1)).
  destruct (Hfail (Z.of_nat k)) as [e He]; [lia |].
  exists e.
  rewrite (embed_loop_stops cfg post text k 0 (Z.to_nat (MAX_RETRIES cfg))); simpl.
  - by rewrite He.
  - lia.
  - lia.
  - intros j Hj. apply Hfail. lia.
  - left. lia.
Qed.

(** C5. [embed] tries the endpoint at most [MAX_RETRIES] times (3 by
    default).  Let attempt [k] (counted from 0) be the first that succeeds,
    or the last allowed one when none does.  Then [embed] makes exactly the
    requests [0..k], sleeps [0.5 * (j + 1)] seconds after each failed
    attempt [j < k] and never after attempt [k], and ends with the outcome
    of attempt [k]: its embedding, with no further attempt, or its
    exception, raised to the caller. *)
Theorem embed_retries cfg (post : Z -> result Embedding) (text : string) (k : nat) :
  (Z.of_nat k < MAX_RETRIES cfg)%Z ->
  (forall j, (j < k)%nat -> exists e, post (Z.of_nat j) = Raise e) ->
  (Z.of_nat k = MAX_RETRIES cfg - 1 \/ exists v, post (Z.of_nat k) = Return v)%Z ->
  embed cfg post text
  = (attempts_until text k,
     match post (Z.of_nat k) with
     | Return v => Return (Some v)
     | Raise e => Raise e
     end).
Proof.
  intros Hk Hfail Hstop. unfold embed, range, attempts_until.
  apply (embed_loop_stops cfg post text k 0 (Z.to_nat (MAX_RETRIES cfg)));
    simpl; [lia | lia | | assumption].
  intros j Hj. apply Hfail. lia.
Qed.

(** With the default settings and an endpoint that always fails, the third
    attempt's exception is raised after sleeps of 0.5 and 1 second. *)
Lemma embed_retries_witness :
  embed default_config (stub_post 0 "b") "b"
  = ([Post "b" 0; Sleep ((1 # 2) * inject_Z 1); Post "b" 1; Sleep ((1 # 2) * inject_Z 2);
      Post "b" 2],
     Raise (Exception "503 Server Error")).
Proof.
  apply (embed_retries default_config (stub_post 0 "b") "b" 2).
  - reflexivity.
  - intros j Hj. exists (Exception "503 Server Error"). reflexivity.
  - left. reflexivity.
Defined.

(** C2. For an embedder with a positive pool size and batch size,
    [embed_documents] returns one slot per input text, and the slot at
    position [i] holds what the task of [texts[i]] produced: its embedding,
    or the zero vector when it raised.  This holds for every batch size and
    for every order in which the pools complete the tasks. *)
Theorem embed_documents_order_preserving cfg self post choice texts :
  (0 < self_max_workers self)%Z ->
  (0 < self_batch_size self)%Z ->
  exists embeddings printed,
    embed_documents cfg self post choice texts = Return (embeddings, printed)
    /\ length embeddings = length texts
    /\ forall i text, texts !! i = Some text ->
         embeddings !! i = Some (stored (embed cfg (post i text) text).2).
Proof.
  intros Hworkers Hb.
  destruct (embed_documents_imap cfg self post choice texts Hworkers Hb) as [printed Heq].
  eexists _, printed. split; [exact Heq |]. split.
  - apply length_imap.
  - intros i text Hi. rewrite list_lookup_imap, Hi. reflexivity.
Qed.

(** Three texts in batches of two, the second text failing. *)
Lemma embed_documents_order_preserving_witness :
  (0 < self_max_workers {| self_max_workers := 4; self_batch_size := 2 |})%Z
  /\ (0 < self_batch_size {| self_max_workers := 4; self_batch_size := 2 |})%Z
  /\ exists embeddings printed,
       embed_documents default_config {| self_max_workers := 4; self_batch_size := 2 |}
         stub_post (fun _ step => step) ["a"; "b"; "c"] = Return (embeddings, printed)
       /\ length embeddings = 3%nat
       /\ forall i text, ["a"; "b"; "c"] !! i = Some text ->
            embeddings !! i
            = Some (stored (embed default_config (stub_post i text) text).2).
Proof.
  split; [reflexivity |]. split; [reflexivity |].
  apply (embed_documents_order_preserving default_config
           {| self_max_workers := 4; self_batch_size := 2 |}
           stub_post (fun _ step => step) ["a"; "b"; "c"]); reflexivity.
Defined.

(** C4 as stated fails: the fallback has 1024 entries whatever the length
    of the vectors the endpoint returns.  With an endpoint that returns
    vectors of length 2 and fails for ["b"], the batch holds vectors of
    two different lengths. *)
Lemma embed_documents_dimension_counterexample :
  embed_documents default_config (TextEmbeddings_init default_config None None None)
    stub_post (fun _ _ => 0%nat) ["a"; "b"; "c"]
  = Return ([Some [1%float; 2%float]; Some (replicate 1024 0%float); Some [1%float; 2%float]],
            ["Embedding generation failed for text 1: 503 Server Error"])
  /\ length (replicate 1024 0%float) <> length [1%float; 2%float].
Proof.
  split; [vm_compute; reflexivity | discriminate].
Qed.

(** C4, amended.  For an embedder with a positive pool size and batch
    size: when every allowed attempt for the text at position [i] fails,
    its slot holds the all-zero vector of the fixed length 1024, and
    the batch is not aborted: [embed_documents] returns, and every other
    slot holds what its own task produced. *)
Theorem embed_documents_zero_fallback cfg self post choice texts i text :
  (0 < self_max_workers self)%Z ->
  (0 < self_batch_size self)%Z ->
  (0 < MAX_RETRIES cfg)%Z ->
  texts !! i = Some text ->
  (forall attempt, (0 <= attempt < MAX_RETRIES cfg)%Z ->
     exists e, post i text attempt = Raise e) ->
  exists embeddings printed,
    embed_documents cfg self post choice texts = Return (embeddings, printed)
    /\ embeddings !! i = Some (Some (replicate 1024 0%float))
    /\ forall j other, j <> i -> texts !! j = Some other ->
         embeddings !! j = Some (stored (embed cfg (post j other) other).2).
Proof.
  intros Hworkers Hb Hmax Hi Hfail.
  destruct (embed_documents_imap cfg self post choice texts Hworkers Hb) as [printed Heq].
  destruct (embed_exhausted cfg (post i text) text Hmax Hfail) as [e He].
  eexists _, printed. split; [exact Heq |]. split.
  - rewrite list_lookup_imap, Hi. simpl. rewrite He. reflexivity.
  - intros j other _ Hj. rewrite list_lookup_imap, Hj. reflexivity.
Qed.

(** The text ["b"] fails at every attempt: its slot is the zero vector. *)
Lemma embed_documents_zero_fallback_witness :
  exists embeddings printed,
    embed_documents default_config {| self_max_workers := 4; self_batch_size := 2 |}
      stub_post (fun _ step => step) ["a"; "b"; "c"] = Return (embeddings, printed)
    /\ embeddings !! 1%nat = Some (Some (replicate 1024 0%float))
    /\ forall j other, j <> 1%nat -> ["a"; "b"; "c"] !! j = Some other ->
         embeddings !! j = Some (stored (embed default_config (stub_post j other) other).2).
Proof.
  apply (embed_documents_zero_fallback default_config
           {| self_max_workers := 4; self_batch_size := 2 |}
           stub_post (fun _ step => step) ["a"; "b"; "c"] 1 "b").
  - reflexivity.
  - reflexivity.
  - reflexivity.
  - reflexivity.
  - intros attempt _. exists (Exception "503 Server Error"). reflexivity.
Defined.

(** ** The responder *)

(** C6. [generate_response] returns a string in every case and never
    raises: the timeout message when the request times out, the status
    line when the status is not 200, and a message that embeds the
    exception text for any other exception, whether raised by the request
    or by the reading of the answer. *)
Theorem generate_response_never_raises post history query context :
  let prompt := build_prompt history query context in
  (exists answer, generate_response post history query context = Return answer)
  /\ (forall msg, post prompt = Raise (Timeout msg) ->
        generate_response post history query context
        = Return "Error: Request timed out. Please try again.")
  /\ (forall response, post prompt = Return response -> status_code response <> 200%Z ->
        generate_response post history query context
        = Return ("Error: Failed to get response from AI model (Status: "
                    +:+ str_Z (status_code response) +:+ ")"))
  /\ (forall e, (forall msg, e <> Timeout msg) ->
        post prompt = Raise e
        \/ (exists response, post prompt = Return response
              /\ status_code response = 200%Z /\ json_response response = Raise e) ->
        generate_response post history query context
        = Return ("Error generating response: " +:+ str e)).
Proof.
  intros prompt. unfold generate_response. fold prompt.
  repeat split.
  - destruct (post prompt) as [response|e].
    + destruct (status_code response =? 200)%Z; [| by eexists].
      destruct (json_response response) as [answer|e]; [by eexists |].
      destruct e; by eexists.
    + destruct e; by eexists.
  - intros msg ->. reflexivity.
  - intros response -> Hstatus.
    destruct (Z.eqb_spec (status_code response) 200); [contradiction | reflexivity].
  - intros e Hnot [-> | (response & -> & -> & ->)]; simpl.
    + destruct e as [msg| |]; [by destruct (Hnot msg) | reflexivity | reflexivity].
    + destruct e as [msg| |]; [by destruct (Hnot msg) | reflexivity | reflexivity].
Qed.

(** A request that times out is answered with the timeout message. *)
Lemma generate_response_never_raises_witness :
  generate_response (fun _ => Raise (Timeout "Read timed out. (read timeout=30)"))
    [] "What is the capital of France?" ["The capital of France is Paris."]
  = Return "Error: Request timed out. Please try again.".
Proof.
  destruct (generate_response_never_raises
              (fun _ => Raise (Timeout "Read timed out. (read timeout=30)"))
              [] "What is the capital of France?" ["The capital of France is Paris."])
    as (_ & Htimeout & _).
  eapply Htimeout. reflexivity.
Defined.

(** C7 as stated fails: for a non-empty index whose hits are all at
    distance 1.5 or more, the fallback search can raise (it embeds the
    query again); the exception is caught and the result is empty. *)
Lemma retrieve_context_counterexample :
  let db := {| entries := far_entries; scored_search_up := true; plain_search_up := false |} in
  (0 < count db)%nat
  /\ similarity_search_with_score db "capital of France" 5 = Return far_entries
  /\ under_threshold far_entries = []
  /\ retrieve_context (Some db) "capital of France" 5
     = ([], ["Error retrieving context: Connection refused"]).
Proof.
  repeat split; try reflexivity. simpl. lia.
Qed.

Lemma ToyStore_top_k (db : ToyStore) : top_k_contract db.
Proof.
  intros query k docs. simpl.
  destruct (plain_search_up db); [| discriminate].
  intros [= <-]. by rewrite length_map, length_take.
Qed.

(** C7, amended.  When the scored search returns, [retrieve_context] keeps
    exactly the hits at a distance strictly below 1.5; when there is none
    it returns what the plain search gives for [min(k, 3)].  The result is
    non-empty when the index is non-empty, [k >= 1], the store honours the
    top-[k] contract and the fallback search, when it is made, returns. *)
Theorem retrieve_context_fallback {DB} `{VectorStore DB} (db : DB) query k results :
  top_k_contract db ->
  similarity_search_with_score db query k = Return results ->
  (under_threshold results <> [] ->
     retrieve_context (Some db) query k
     = (map (fun '(doc, score) => page_content doc) (under_threshold results), []))
  /\ (under_threshold results = [] ->
      forall fallback, similarity_search db query (Z.min k 3) = Return fallback ->
        retrieve_context (Some db) query k = (map page_content fallback, []))
  /\ ((under_threshold results = [] ->
       exists fallback, similarity_search db query (Z.min k 3) = Return fallback) ->
      (0 < count db)%nat -> (0 < k)%Z ->
      (retrieve_context (Some db) query k).1 <> []).
Proof.
  intros Hcontract Hscored.
  unfold retrieve_context. rewrite Hscored. fold (under_threshold results).
  destruct (under_threshold results) as [|hit hits] eqn:Hhits.
  - repeat split.
    + intros Hne. contradiction.
    + intros _ fallback ->. reflexivity.
    + intros Hplain Hcount Hk.
      destruct (Hplain eq_refl) as [fallback Hfallback].
      rewrite Hfallback. simpl.
      apply Hcontract in Hfallback.
      destruct fallback; [simpl in Hfallback; lia | discriminate].
  - repeat split.
    + intros Hempty. discriminate.
    + intros _ _ _. simpl. destruct hit. discriminate.
Qed.

(** Both hits are too far: the fallback search supplies the context. *)
Lemma retrieve_context_fallback_witness :
  let db := {| entries := far_entries; scored_search_up := true; plain_search_up := true |} in
  retrieve_context (Some db) "capital of France" 5
  = (["The capital of France is Paris."; "Rhubarb."], [])
  /\ (retrieve_context (Some db) "capital of France" 5).1 <> [].
Proof.
  intros db.
  destruct (retrieve_context_fallback db "capital of France" 5 far_entries
              (ToyStore_top_k db) eq_refl) as (_ & Hfallback & Hnonempty).
  split.
  - apply (Hfallback eq_refl (map fst far_entries)). reflexivity.
  - apply Hnonempty; [intros _; by eexists | simpl; lia | lia].
Defined.

(** ** The ingestion pipeline *)

(** *** What a computation leaves unchanged *)

Section Preservation.
Context {S : Type} (R : relation S) `{!PreOrder R}.

Lemma preserves_ret {A} (a : A) : preserves R (ret a).
Proof. intros s r s' [= _ <-]. reflexivity. Qed.

Lemma preserves_raise {A} e : preserves R (raise (A := A) e).
Proof. intros s r s' [= _ <-]. reflexivity. Qed.

Lemma preserves_of_result {A} (x : result A) : preserves R (of_result x).
Proof. intros s r s' [= _ <-]. reflexivity. Qed.

Lemma preserves_future_result {A} (x : result A) : preserves R (future_result x).
Proof. intros s r s' [= _ <-]. reflexivity. Qed.

Lemma preserves_option_raise o : preserves R (option_raise o).
Proof. destruct o; [apply preserves_raise | apply preserves_ret]. Qed.

Lemma preserves_bind {A B} (m : M S A) (k : A -> M S B) :
  preserves R m -> (forall a, preserves R (k a)) -> preserves R (bind m k).
Proof.
  intros Hm Hk s r s'. unfold bind.
  destruct (m s) as [[a|e] s1] eqn:Hrun; intros Hrest.
  - transitivity s1; [exact (Hm _ _ _ Hrun) | exact (Hk _ _ _ _ Hrest)].
  - injection Hrest as _ <-. exact (Hm _ _ _ Hrun).
Qed.

Lemma preserves_try_except {A} (m : M S A) (handler : exn -> M S A) :
  preserves R m -> (forall e, preserves R (handler e)) -> preserves R (try_except m handler).
Proof.
  intros Hm Hh s r s'. unfold try_except.
  destruct (m s) as [[a|e] s1] eqn:Hrun; intros Hrest.
  - injection Hrest as _ <-. exact (Hm _ _ _ Hrun).
  - transitivity s1; [exact (Hm _ _ _ Hrun) | exact (Hh _ _ _ _ Hrest)].
Qed.

Lemma preserves_submit {A} (task : M S A) : preserves R task -> preserves R (submit task).
Proof.
  intros Hm s r s'. unfold submit.
  destruct (task s) as [x s1] eqn:Hrun. intros [= _ <-]. exact (Hm _ _ _ Hrun).
Qed.

Lemma preserves_for_each {A B} (l : list A) (body : B -> A -> M S B) :
  (forall acc x, preserves R (body acc x)) -> forall acc, preserves R (for_each l acc body).
Proof.
  intros Hbody. induction l as [|x l IH]; intros acc; simpl.
  - apply preserves_ret.
  - apply preserves_bind; [apply Hbody | exact IH].
Qed.

Lemma preserves_ThreadPoolExecutor n : preserves R (ThreadPoolExecutor n).
Proof.
  unfold ThreadPoolExecutor. destruct (n <=? 0)%Z; [apply preserves_raise | apply preserves_ret].
Qed.

End Preservation.

(** Structural steps of a preservation proof. *)
Ltac preserve_step :=
  first
    [ apply preserves_ret | apply preserves_raise | apply preserves_of_result
    | apply preserves_future_result | apply preserves_option_raise
    | apply preserves_ThreadPoolExecutor
    | apply preserves_bind | apply preserves_try_except | apply preserves_submit
    | apply preserves_for_each
    | match goal with
      | |- preserves _ (match ?x with _ => _ end) => destruct x
      | |- preserves _ ((match ?x with _ => _ end) _) => destruct x
      | |- forall _, _ => intro
      end ].

Create HintDb preserve.

(** *** Loading and splitting leave the heap and the index writes alone *)

Section WorldFrames.
Variable cfg : RAGConfig.
Variable env : Env.
Variable R : relation World.
Context `{!PreOrder R}.
Hypothesis R_tick : preserves R tick.
Hypothesis R_print : forall line, preserves R (print line).
Hypothesis R_set_fs : forall d, preserves R (set_fs d).
Hypothesis R_record : forall c, ~ is_index_write c -> preserves R (record c).

Ltac preserve :=
  repeat first
    [ match goal with |- PreOrder _ => solve [apply _] end
    | preserve_step | solve [eauto with preserve nocore] ].

Lemma preserves_get_fs : preserves R get_fs.
Proof. intros s r s' [= _ <-]. reflexivity. Qed.
Hint Resolve preserves_get_fs : preserve.

Lemma preserves_record_Load loader path : preserves R (record (Load loader path)).
Proof. apply R_record. simpl. tauto. Qed.

Lemma preserves_record_Describe image : preserves R (record (Describe image)).
Proof. apply R_record. simpl. tauto. Qed.

Lemma preserves_record_Split n : preserves R (record (Split n)).
Proof. apply R_record. simpl. tauto. Qed.
Hint Resolve preserves_record_Load preserves_record_Describe preserves_record_Split : preserve.

Lemma preserves_os_makedirs path : preserves R (os_makedirs env path).
Proof. unfold os_makedirs. preserve. Qed.

Lemma preserves_write_file dir file data : preserves R (write_file env dir file data).
Proof. unfold write_file. preserve. Qed.

Lemma preserves_os_path_exists path : preserves R (os_path_exists path).
Proof. unfold os_path_exists. preserve. Qed.

Lemma preserves_shutil_rmtree path : preserves R (shutil_rmtree env path).
Proof. unfold shutil_rmtree. preserve. Qed.

Lemma preserves_completed {A} (futures : list A) : preserves R (completed env futures).
Proof. unfold completed. preserve. Qed.
Hint Resolve preserves_completed : preserve.

Lemma preserves_get_image_desc img : preserves R (get_image_desc env img).
Proof. unfold get_image_desc. preserve. Qed.
Hint Resolve preserves_get_image_desc : preserve.

Lemma preserves_process_input_file file : preserves R (process_input_file env file).
Proof. unfold process_input_file, run_loader. preserve. Qed.
Hint Resolve preserves_process_input_file : preserve.

Lemma preserves_get_images_desc_batch paths max_workers :
  preserves R (get_images_desc_batch cfg env paths max_workers).
Proof. unfold get_images_desc_batch. preserve. Qed.
Hint Resolve preserves_get_images_desc_batch : preserve.

Lemma preserves_process_input_files_batch files max_workers :
  preserves R (process_input_files_batch cfg env files max_workers).
Proof. unfold process_input_files_batch. preserve. Qed.

Lemma preserves_get_splits docs chunk_size chunk_overlap max_workers :
  preserves R (get_splits env docs chunk_size chunk_overlap max_workers).
Proof. unfold get_splits, new_splitter, splitter_split_documents. preserve. Qed.

End WorldFrames.

#[global] Instance same_calls_PreOrder : PreOrder same_calls.
Proof. split; [by intros w | intros w1 w2 w3; unfold same_calls; congruence]. Qed.

#[global] Instance same_index_writes_PreOrder : PreOrder same_index_writes.
Proof. split; [by intros w | intros w1 w2 w3; unfold same_index_writes; congruence]. Qed.

#[global] Instance on_world_PreOrder R `{!PreOrder R} : PreOrder (on_world R).
Proof.
  split.
  - intros s. split; reflexivity.
  - intros s1 s2 s3 [H12 E12] [H23 E23]. split; [by transitivity s2.1 | congruence].
Qed.

Lemma index_writes_snoc cs c : ~ is_index_write c -> index_writes (cs ++ [c]) = index_writes cs.
Proof.
  intros Hc. unfold index_writes. rewrite filter_app, filter_cons_False by assumption.
  apply app_nil_r.
Qed.

Section StateFrames.
Variable cfg : RAGConfig.
Variable env : Env.
Variable R : relation World.
Context `{!PreOrder R}.
Hypothesis R_tick : preserves R tick.
Hypothesis R_print : forall line, preserves R (print line).
Hypothesis R_set_fs : forall d, preserves R (set_fs d).

Ltac frame lemmas :=
  repeat first
    [ match goal with |- PreOrder _ => solve [apply _] end
    | assumption | apply R_print | apply R_tick | apply R_set_fs | lemmas | preserve_step ].

Lemma preserves_lift {A} (m : M World A) : preserves R m -> preserves (on_world R) (lift m).
Proof.
  intros Hm [w h] r [w' h']. unfold lift. simpl.
  destruct (m w) as [x w1] eqn:Hrun. intros [= _ <- <-].
  split; [exact (Hm _ _ _ Hrun) | reflexivity].
Qed.

Lemma preserves_get_heap : preserves (on_world R) get_heap.
Proof. intros s r s' [= _ <-]. reflexivity. Qed.

Lemma preserves_list_contents l : preserves (on_world R) (list_contents l).
Proof. unfold list_contents. frame ltac:(apply preserves_get_heap). Qed.

Lemma preserves_stage_files session_id uploaded_files processed_files :
  preserves (on_world R) (stage_files env session_id uploaded_files processed_files).
Proof.
  unfold stage_files.
  frame ltac:(first [ apply preserves_list_contents | apply preserves_lift
                    | apply preserves_write_file ]).
Qed.

Lemma preserves_set_up session_id uploaded_files max_workers batch_size chunk_size :
  preserves (on_world R)
    (set_up cfg env session_id uploaded_files max_workers batch_size chunk_size).
Proof.
  unfold set_up.
  frame ltac:(first [ apply preserves_lift | apply preserves_os_makedirs ]).
Qed.

Lemma preserves_clean_up session_id : preserves (on_world R) (clean_up env session_id).
Proof.
  unfold clean_up.
  frame ltac:(first [ apply preserves_lift | apply preserves_os_path_exists
                    | apply preserves_shutil_rmtree ]).
Qed.

Hypothesis R_record : forall c, ~ is_index_write c -> preserves R (record c).

Lemma preserves_prepare_splits session_id uploaded_files processed_files
    max_workers chunk_size chunk_overlap :
  preserves (on_world R)
    (prepare_splits cfg env session_id uploaded_files processed_files
       max_workers chunk_size chunk_overlap).
Proof.
  unfold prepare_splits.
  frame ltac:(first [ apply preserves_stage_files | apply preserves_lift
                    | apply preserves_process_input_files_batch
                    | apply preserves_get_splits ]).
Qed.

End StateFrames.

(** The clock, the printer and the file system make no call; loaders and
    splitters write no index. *)
Lemma same_calls_tick : preserves same_calls tick.
Proof. by intros w r w' [= _ <-]. Qed.

Lemma same_calls_print line : preserves same_calls (print line).
Proof. by intros w r w' [= _ <-]. Qed.

Lemma same_calls_set_fs d : preserves same_calls (set_fs d).
Proof. by intros w r w' [= _ <-]. Qed.

Lemma same_index_writes_tick : preserves same_index_writes tick.
Proof. by intros w r w' [= _ <-]. Qed.

Lemma same_index_writes_print line : preserves same_index_writes (print line).
Proof. by intros w r w' [= _ <-]. Qed.

Lemma same_index_writes_set_fs d : preserves same_index_writes (set_fs d).
Proof. by intros w r w' [= _ <-]. Qed.

Lemma same_index_writes_record c :
  ~ is_index_write c -> preserves same_index_writes (record c).
Proof.
  intros Hc w r w' [= _ <-]. unfold same_index_writes. simpl.
  by apply index_writes_snoc.
Qed.

Section PipelineFacts.
Variable cfg : RAGConfig.
Variable env : Env.

(** Before the [try] block and in the [finally] block no collaborator is
    called and the heap is not touched. *)
Lemma set_up_frame session_id uploaded_files max_workers batch_size chunk_size s r s' :
  set_up cfg env session_id uploaded_files max_workers batch_size chunk_size s = (r, s') ->
  calls s'.1 = calls s.1 /\ s'.2 = s.2.
Proof.
  apply (preserves_set_up cfg env same_calls same_calls_tick same_calls_print
           same_calls_set_fs).
Qed.

Lemma clean_up_frame session_id s r s' :
  clean_up env session_id s = (r, s') -> calls s'.1 = calls s.1 /\ s'.2 = s.2.
Proof.
  apply (preserves_clean_up env same_calls same_calls_tick same_calls_print
           same_calls_set_fs).
Qed.

(** Staging, loading and splitting write no index and leave the heap as it
    is, whether they return or raise. *)
Lemma prepare_splits_frame session_id uploaded_files processed_files
    max_workers chunk_size chunk_overlap s r s' :
  prepare_splits cfg env session_id uploaded_files processed_files
    max_workers chunk_size chunk_overlap s = (r, s') ->
  index_writes (calls s'.1) = index_writes (calls s.1) /\ s'.2 = s.2.
Proof.
  apply (preserves_prepare_splits cfg env same_index_writes same_index_writes_tick
           same_index_writes_print same_index_writes_set_fs same_index_writes_record).
Qed.

(** The [finally] block does not raise. *)
Lemma clean_up_returns session_id s :
  exists s', clean_up env session_id s = (Return tt, s').
Proof.
  destruct s as [w h].
  unfold clean_up, try_except, lift, os_path_exists, shutil_rmtree, bind, get_fs, ret,
    tick, option_raise, set_fs, raise, print. simpl.
  destruct (bool_decide _); [| by eexists].
  destruct (rmtree_error env (clock w) _); simpl; [by eexists |].
  destruct (fs w !! _); simpl; by eexists.
Qed.

(** When removing the directory does not fail, the [finally] block leaves
    no staging directory behind. *)
Lemma clean_up_removes session_id s :
  (forall t, rmtree_error env t ("data/" +:+ session_id) = None) ->
  exists s', clean_up env session_id s = (Return tt, s')
             /\ fs s'.1 !! ("data/" +:+ session_id) = None.
Proof.
  unfold clean_up. generalize ("data/" +:+ session_id). intros dir Hrm.
  destruct s as [w h].
  unfold try_except, lift, os_path_exists, shutil_rmtree, bind, get_fs, ret,
    tick, option_raise, set_fs, raise, print. simpl.
  destruct (fs w !! dir) as [files|] eqn:Hdir.
  - rewrite bool_decide_true by eauto. simpl. rewrite Hrm. simpl. rewrite Hdir. simpl.
    eexists. split; [reflexivity |]. simpl. apply lookup_delete_eq.
  - rewrite bool_decide_false by (intros [? ?]; discriminate). simpl.
    eexists. split; [reflexivity |]. exact Hdir.
Qed.

End PipelineFacts.

Section CommitFacts.
Variable cfg : RAGConfig.
Variable env : Env.

Ltac run :=
  unfold get_db, write_index, commit, try_except, Chroma_from_documents,
    Chroma_add_documents, list_extend, lift, bind, ret, raise, tick, record, print,
    option_raise, get_heap, set_chroma, set_lists; simpl.

(** [get_db] on chunks: one index write is attempted at the current clock;
    a new index holding exactly the chunks is returned, or [None] with a
    printed error when the construction raises. *)
Lemma get_db_run splits max_workers batch_size w h :
  splits <> [] ->
  exists db w' h',
    get_db cfg env splits max_workers batch_size (w, h) = (Return db, (w', h'))
    /\ calls w' = calls w ++ [FromDocuments (length splits)]
    /\ clock w' = Datatypes.S (clock w) /\ fs w' = fs w /\ lists h' = lists h
    /\ match from_documents env (clock w) splits with
       | None =>
           db = Some (fresh (dom (chroma h)))
           /\ chroma h' = <[fresh (dom (chroma h)) := splits]> (chroma h)
           /\ stdout w' = stdout w
       | Some e =>
           db = None /\ chroma h' = chroma h
           /\ stdout w' = stdout w ++ ["Error creating database: " +:+ str e]
       end.
Proof.
  intros Hsplits. destruct splits as [|split splits]; [contradiction |].
  run.
  destruct (from_documents env (clock w) (split :: splits)); simpl;
    eexists _, _, _; (split; [reflexivity |]); simpl; repeat split; reflexivity.
Qed.

(** The index write of the pipeline does not raise, attempts at least one
    write when there are chunks, and leaves the lists alone. *)
Lemma write_index_run existing_db splits max_workers batch_size w h :
  exists db w' h',
    write_index cfg env existing_db splits max_workers batch_size (w, h)
    = (Return db, (w', h'))
    /\ lists h' = lists h
    /\ (splits <> [] ->
        exists writes, writes <> [] /\
          index_writes (calls w') = index_writes (calls w) ++ writes).
Proof.
  destruct (decide (splits = [])) as [-> | Hchunks].
  - destruct existing_db as [existing|]; run.
    + destruct (add_documents env (clock w) existing []) as [|e n]; simpl;
        eexists _, _, _; (split; [reflexivity |]); (split; [reflexivity |]); by intros [].
    + eexists _, _, _. split; [reflexivity |]. split; [reflexivity |]. by intros [].
  - destruct existing_db as [existing|]; unfold write_index, try_except.
    + unfold Chroma_add_documents, lift, bind, ret, raise, tick, record, print,
        get_heap, set_chroma. cbn -[get_db].
      destruct (add_documents env (clock w) existing splits) as [|e n]; cbn -[get_db].
      * eexists _, _, _. split; [reflexivity |]. split; [reflexivity |]. intros _.
        exists [AddDocuments existing (length splits)]. split; [discriminate |].
        simpl. unfold index_writes. by rewrite filter_app.
      * match goal with
        | |- context [get_db cfg env splits ?mw ?bs (?w1, ?h1)] =>
            destruct (get_db_run splits mw bs w1 h1 Hchunks)
              as (db & w' & h' & -> & Hcalls & _ & _ & Hlists & _)
        end.
        eexists _, _, _. split; [reflexivity |]. split; [exact Hlists |]. intros _.
        exists [AddDocuments existing (length splits); FromDocuments (length splits)].
        split; [discriminate |].
        rewrite Hcalls. simpl. unfold index_writes. by rewrite !filter_app, <- app_assoc.
    + destruct (get_db_run splits (Some max_workers) (Some batch_size) w h Hchunks)
        as (db & w' & h' & -> & Hcalls & _ & _ & Hlists & _).
      eexists _, _, _. split; [reflexivity |]. split; [exact Hlists |]. intros _.
      exists [FromDocuments (length splits)]. split; [discriminate |].
      rewrite Hcalls. unfold index_writes. by rewrite filter_app.
Qed.

(** The rest of the [try] block does not raise; it appends the new names
    to the list and returns the list it was given. *)
Lemma commit_run processed_files existing_db new_processed splits max_workers batch_size w h :
  exists db w' h',
    commit cfg env processed_files existing_db new_processed splits max_workers batch_size
      (w, h) = (Return (db, processed_files), (w', h'))
    /\ lists h' = alter (fun old => old ++ new_processed) processed_files (lists h)
    /\ (splits <> [] ->
        exists writes, writes <> [] /\
          index_writes (calls w') = index_writes (calls w) ++ writes).
Proof.
  destruct (write_index_run existing_db splits max_workers batch_size w h)
    as (db & w1 & h1 & Hrun & Hlists & Hwrites).
  unfold commit, bind at 1. rewrite Hrun.
  unfold list_extend, lift, bind, ret, tick, print, get_heap, set_lists. simpl.
  eexists _, _, _. split; [reflexivity |]. simpl. split; [by rewrite Hlists |].
  exact Hwrites.
Qed.

End CommitFacts.

Section IndexWrites.
Variable cfg : RAGConfig.
Variable env : Env.


End IndexWrites.

#[global] Instance stdout_grows_PreOrder : PreOrder stdout_grows.
Proof.
  split.
  - intros w. unfold stdout_grows. reflexivity.
  - intros w1 w2 w3. unfold stdout_grows. intros H12 H23. by transitivity (stdout w2).
Qed.

Lemma stdout_grows_tick : preserves stdout_grows tick.
Proof. intros w r w' [= _ <-]. unfold stdout_grows. simpl. reflexivity. Qed.

Lemma stdout_grows_print line : preserves stdout_grows (print line).
Proof. intros w r w' [= _ <-]. unfold stdout_grows. simpl. by apply prefix_app_r. Qed.

Lemma stdout_grows_set_fs d : preserves stdout_grows (set_fs d).
Proof. intros w r w' [= _ <-]. unfold stdout_grows. simpl. reflexivity. Qed.

Section ProcessDocs.
Variable cfg : RAGConfig.
Variable env : Env.
Variable session_id : string.
Variable uploaded_files : list UploadedFile.
Variable processed_files : positive.
Variable existing_db : option positive.
Variables max_workers embedding_batch_size chunk_size chunk_overlap : option Z.

Let workers := workers_of cfg env max_workers.
Let batch := py_or embedding_batch_size (EMBEDDING_BATCH_SIZE cfg).
Let size := py_or chunk_size (CHUNK_SIZE cfg).
Let overlap := py_or chunk_overlap (CHUNK_OVERLAP cfg).

(** Once the directories exist, a call is the [try] block, its handler and
    the [finally] block. *)
Lemma process_docs_after_set_up s0 s1 :
  set_up cfg env session_id uploaded_files workers batch size s0 = (Return tt, s1) ->
  process_docs cfg env session_id uploaded_files processed_files existing_db
    max_workers embedding_batch_size chunk_size chunk_overlap s0
  = try_finally
      (try_except
         (ingest cfg env session_id uploaded_files processed_files existing_db
            workers batch size overlap)
         (fun e =>
            lift (print ("Error during document processing: " +:+ str e)) ;;
            ret (existing_db, processed_files)))
      (clean_up env session_id) s1.
Proof.
  intros Hset. unfold process_docs. fold workers batch size overlap.
  unfold bind at 1. rewrite Hset. reflexivity.
Qed.

(** The [finally] block after a state [s]: it returns, keeps the heap and
    the calls, and keeps what was printed. *)
Lemma clean_up_run s :
  exists w', clean_up env session_id s = (Return tt, (w', s.2))
             /\ calls w' = calls s.1 /\ stdout s.1 `prefix_of` stdout w'.
Proof.
  destruct (clean_up_returns env session_id s) as [[w' h'] Hrun].
  destruct (clean_up_frame env session_id _ _ _ Hrun) as [Hcalls Hheap].
  destruct (preserves_clean_up env stdout_grows stdout_grows_tick stdout_grows_print
              stdout_grows_set_fs session_id _ _ _ Hrun) as [Hout _].
  simpl in *. subst h'. by exists w'.
Qed.

(** The [try] block raises only out of staging, loading or splitting, with
    the heap as it was. *)
Lemma ingest_raises s1 e s2 :
  ingest cfg env session_id uploaded_files processed_files existing_db
    workers batch size overlap s1 = (Raise e, s2) ->
  s2.2 = s1.2.
Proof.
  unfold ingest, bind.
  destruct (prepare_splits _ _ _ _ _ _ _ _ s1) as [[stage|e'] sp] eqn:Hprep.
  - destruct sp as [w h].
    destruct stage as [| | |new_processed splits]; try discriminate.
    destruct (commit_run cfg env processed_files existing_db new_processed splits
                workers batch w h) as (db & w' & h' & -> & _).
    discriminate.
  - intros [= _ <-]. eapply prepare_splits_frame, Hprep.
Qed.

End ProcessDocs.

(** Uploads whose names are all in [processed_files] stage nothing and
    leave the state as it is. *)
Lemma stage_files_skips env session_id uploaded_files processed_files processed s :
  lists s.2 !! processed_files = Some processed ->
  (forall f, f ∈ uploaded_files -> name f ∈ processed) ->
  stage_files env session_id uploaded_files processed_files s = (Return ([], []), s).
Proof.
  intros Hlist. unfold stage_files. generalize (@nil string, @nil string).
  induction uploaded_files as [|f files IH]; intros acc Hall; [reflexivity |].
  simpl. destruct acc as [temp_files new_processed].
  unfold bind at 1. unfold list_contents, bind, get_heap, ret. rewrite Hlist. simpl.
  rewrite bool_decide_true by (apply Hall; by left).
  apply IH. intros g Hg. apply Hall. by right.
Qed.

(** C1 as stated fails at a stage it names: when the creation of the index
    raises, [get_db] catches the exception, so that it never reaches the
    boundary of the pipeline; the call returns no index and the new name
    is in [processed_files] all the same, although no index holds its
    chunk. *)
Lemma process_docs_rollback_counterexample :
  let run :=
    process_docs default_config
      (example_env None None page (Some (Exception "Dimension mismatch")) Upserted)
      "s1" [upload "a.pdf"] 1 None None None None None (empty_world, session_heap) in
  run.1 = Return (None, 1%positive)
  /\ lists session_heap !! 1%positive = Some ["old.pdf"]
  /\ lists run.2.2 !! 1%positive = Some ["old.pdf"; "a.pdf"]
  /\ chroma run.2.2 = chroma session_heap
  /\ "Error creating database: Dimension mismatch" ∈ stdout run.2.1.
Proof.
  vm_compute. repeat split. apply list_elem_of_In. simpl. tauto.
Qed.

(** C1, amended.  Once the directories are made: (1) the only exceptions
    that reach the boundary of the pipeline are those of staging, loading
    and splitting; when one does, the call returns the very [existing_db]
    and [processed_files] it was given, the heap is as it was before the
    call (the list has its old contents, no new name is committed, no index
    was touched) and the error is printed.  (2) An exception of the index
    creation or update never reaches the boundary: as soon as the [try]
    block has chunks in hand the call returns with the new names appended
    to the list, whatever the index write does. *)
Theorem process_docs_rollback cfg env session_id uploaded_files processed_files
    existing_db max_workers embedding_batch_size chunk_size chunk_overlap s0 s1 :
  let workers := workers_of cfg env max_workers in
  let batch := py_or embedding_batch_size (EMBEDDING_BATCH_SIZE cfg) in
  let size := py_or chunk_size (CHUNK_SIZE cfg) in
  let overlap := py_or chunk_overlap (CHUNK_OVERLAP cfg) in
  set_up cfg env session_id uploaded_files workers batch size s0 = (Return tt, s1) ->
  (forall e s2,
     ingest cfg env session_id uploaded_files processed_files existing_db
       workers batch size overlap s1 = (Raise e, s2) ->
     prepare_splits cfg env session_id uploaded_files processed_files
       workers size overlap s1 = (Raise e, s2)
     /\ exists w',
          process_docs cfg env session_id uploaded_files processed_files existing_db
            max_workers embedding_batch_size chunk_size chunk_overlap s0
          = (Return (existing_db, processed_files), (w', s0.2))
          /\ "Error during document processing: " +:+ str e ∈ stdout w')
  /\ (forall new_processed splits s2 processed,
        prepare_splits cfg env session_id uploaded_files processed_files
          workers size overlap s1 = (Return (Ready new_processed splits), s2) ->
        lists s0.2 !! processed_files = Some processed ->
        exists db w' h',
          process_docs cfg env session_id uploaded_files processed_files existing_db
            max_workers embedding_batch_size chunk_size chunk_overlap s0
          = (Return (db, processed_files), (w', h'))
          /\ lists h' !! processed_files = Some (processed ++ new_processed)).
Proof.
  intros workers batch size overlap Hset.
  destruct (set_up_frame _ _ _ _ _ _ _ _ _ _ Hset) as [_ Hheap1].
  split.
  - intros e s2 Hraise. split.
    + revert Hraise. unfold ingest, bind.
      destruct (prepare_splits _ _ _ _ _ _ _ _ s1) as [[stage|e'] [w h]].
      * destruct stage as [| | |new_processed splits]; try discriminate.
        destruct (commit_run cfg env processed_files existing_db new_processed splits
                    workers batch w h) as (db & w' & h' & -> & _).
        discriminate.
      * by intros [= -> ->].
    + rewrite (process_docs_after_set_up _ _ _ _ _ _ _ _ _ _ s0 s1 Hset).
      fold workers batch size overlap.
      unfold try_finally, try_except. rewrite Hraise.
      pose proof (ingest_raises _ _ _ _ _ _ _ _ _ _ _ _ _ Hraise) as Hheap2.
      destruct s2 as [w2 h2]. unfold lift, bind, print, ret. simpl.
      match goal with
      | |- context [clean_up env session_id ?s] =>
          destruct (clean_up_run env session_id s) as (w' & -> & _ & Hout)
      end.
      exists w'. simpl in *. split; [by rewrite Hheap2, Hheap1 |].
      eapply elem_of_prefix; [| exact Hout]. simpl.
      apply elem_of_app. right. by left.
  - intros new_processed splits s2 processed Hprep Hlist.
    rewrite (process_docs_after_set_up _ _ _ _ _ _ _ _ _ _ s0 s1 Hset).
    fold workers batch size overlap.
    destruct (prepare_splits_frame _ _ _ _ _ _ _ _ _ _ _ Hprep) as [_ Hheap2].
    unfold try_finally, try_except, ingest. unfold bind at 1. rewrite Hprep.
    destruct s2 as [w2 h2]. simpl in Hheap2.
    destruct (commit_run cfg env processed_files existing_db new_processed splits
                workers batch w2 h2) as (db & w3 & h3 & -> & Hlists3 & _).
    destruct (clean_up_run env session_id (w3, h3)) as (w' & -> & _).
    exists db, w', h3. split; [reflexivity |].
    rewrite Hlists3, lookup_alter_eq, Hheap2, Hheap1, Hlist. reflexivity.
Qed.

(** A write to the staging directory fails: nothing is committed. *)
Lemma process_docs_rollback_witness :
  exists w',
    process_docs default_config
      (example_env (Some (Exception "No space left on device")) None page None Upserted)
      "s1" [upload "a.pdf"] 1 (Some 2%positive) None None None None
      (empty_world, session_heap)
    = (Return (Some 2%positive, 1%positive), (w', session_heap))
    /\ "Error during document processing: No space left on device" ∈ stdout w'.
Proof.
  edestruct (process_docs_rollback default_config
               (example_env (Some (Exception "No space left on device")) None page None
                  Upserted)
               "s1" [upload "a.pdf"] 1 (Some 2%positive) None None None None
               (empty_world, session_heap)) as [Hrollback _].
  - vm_compute. reflexivity.
  - edestruct (Hrollback (Exception "No space left on device")) as [_ Hreturned].
    + vm_compute. reflexivity.
    + exact Hreturned.
Defined.

(** C3. When every uploaded name is already in [processed_files] (and the
    directories can be made), the call returns the [existing_db] and
    [processed_files] it was given, leaves the heap (the list and the
    indexes) as it was, and calls no collaborator: no loader, no splitter,
    no vision endpoint, no index write and so no embedding request. *)
Theorem process_docs_idempotent cfg env session_id uploaded_files processed_files
    existing_db max_workers embedding_batch_size chunk_size chunk_overlap s0 s1 processed :
  lists s0.2 !! processed_files = Some processed ->
  (forall f, f ∈ uploaded_files -> name f ∈ processed) ->
  set_up cfg env session_id uploaded_files (workers_of cfg env max_workers)
    (py_or embedding_batch_size (EMBEDDING_BATCH_SIZE cfg))
    (py_or chunk_size (CHUNK_SIZE cfg)) s0 = (Return tt, s1) ->
  exists w',
    process_docs cfg env session_id uploaded_files processed_files existing_db
      max_workers embedding_batch_size chunk_size chunk_overlap s0
    = (Return (existing_db, processed_files), (w', s0.2))
    /\ calls w' = calls s0.1.
Proof.
  intros Hlist Hall Hset.
  rewrite (process_docs_after_set_up _ _ _ _ _ _ _ _ _ _ s0 s1 Hset).
  destruct (set_up_frame _ _ _ _ _ _ _ _ _ _ Hset) as [Hcalls Hheap].
  unfold try_finally, try_except, ingest, prepare_splits.
  unfold bind at 1. unfold bind at 1.
  rewrite (stage_files_skips env session_id uploaded_files processed_files processed s1)
    by (by rewrite ?Hheap).
  destruct s1 as [w1 h1]. unfold lift, bind, print, ret. simpl.
  match goal with
  | |- context [clean_up env session_id ?s] =>
      destruct (clean_up_run env session_id s) as (w' & -> & Hcalls' & _)
  end.
  exists w'. simpl in *. split; [by rewrite Hheap | by rewrite Hcalls', Hcalls].
Qed.

(** The same processed file uploaded twice more: nothing happens. *)
Lemma process_docs_idempotent_witness :
  exists w',
    process_docs default_config (example_env None None page None Upserted)
      "s1" [upload "old.pdf"; upload "old.pdf"] 1 (Some 2%positive) None None None None
      (empty_world, session_heap)
    = (Return (Some 2%positive, 1%positive), (w', session_heap))
    /\ calls w' = [].
Proof.
  eapply (process_docs_idempotent default_config (example_env None None page None Upserted)
            "s1" [upload "old.pdf"; upload "old.pdf"] 1 (Some 2%positive) None None None None
            (empty_world, session_heap) _ ["old.pdf"]).
  - reflexivity.
  - intros f Hf. repeat (apply elem_of_cons in Hf as [-> | Hf]; [by left |]).
    by apply elem_of_nil in Hf.
  - vm_compute. reflexivity.
Defined.

(** The [try] block reaches the index write only with chunks in hand. *)
Lemma prepare_splits_Ready cfg env session_id uploaded_files processed_files
    max_workers chunk_size chunk_overlap s new_processed splits s' :
  prepare_splits cfg env session_id uploaded_files processed_files
    max_workers chunk_size chunk_overlap s = (Return (Ready new_processed splits), s') ->
  splits <> [].
Proof.
  unfold prepare_splits, bind.
  destruct (stage_files _ _ _ _ s) as [[[temp_files new_processed']|e] [w1 h1]];
    [| discriminate].
  destruct temp_files as [|temp_file temp_files]; [discriminate |].
  unfold lift at 1. cbn [fst snd print].
  destruct (lift (process_input_files_batch _ _ _ _) _) as [[all_docs|e] [w2 h2]];
    [| discriminate].
  destruct all_docs as [|document all_docs]; [discriminate |].
  unfold lift at 1. cbn [fst snd print].
  destruct (lift (get_splits _ _ _ _ _) _) as [[chunks|e] [w3 h3]]; [| discriminate].
  destruct chunks as [|chunk chunks]; [discriminate |].
  intros [= _ <- _]. discriminate.
Qed.

(** The [try] block with its handler always returns. *)
Lemma guarded_ingest_returns cfg env session_id uploaded_files processed_files existing_db
    workers batch size overlap s1 :
  exists x s2,
    try_except
      (ingest cfg env session_id uploaded_files processed_files existing_db
         workers batch size overlap)
      (fun e =>
         lift (print ("Error during document processing: " +:+ str e)) ;;
         ret (existing_db, processed_files)) s1
    = (Return x, s2).
Proof.
  unfold try_except.
  destruct (ingest _ _ _ _ _ _ _ _ _ _ s1) as [[x|e] [w2 h2]]; by eexists _, _.
Qed.

(** C8 as stated fails: [shutil.rmtree] can raise; the [finally] block
    catches the exception and prints a warning, and the call returns with
    the staging directory and the staged bytes still there. *)
Lemma process_docs_cleanup_counterexample :
  let run :=
    process_docs default_config
      (example_env None (Some (Exception "Permission denied")) page None Upserted)
      "s1" [upload "a.pdf"] 1 None None None None None (empty_world, session_heap) in
  run.1 = Return (Some 3%positive, 1%positive)
  /\ fs run.2.1 !! "data/s1" = Some {[ "a.pdf" := getvalue (upload "a.pdf") ]}
  /\ "Warning: Could not clean up temporary files: Permission denied" ∈ stdout run.2.1.
Proof.
  vm_compute. repeat split. apply list_elem_of_In. simpl. tauto.
Qed.

(** C8, amended.  When the directories can be made and removing the
    staging directory does not fail, every call returns, on whichever path
    (normal return, short circuit or exception handler), and the staging
    directory [data/{session_id}] no longer exists then. *)
Theorem process_docs_cleans_up cfg env session_id uploaded_files processed_files
    existing_db max_workers embedding_batch_size chunk_size chunk_overlap s0 s1 :
  set_up cfg env session_id uploaded_files (workers_of cfg env max_workers)
    (py_or embedding_batch_size (EMBEDDING_BATCH_SIZE cfg))
    (py_or chunk_size (CHUNK_SIZE cfg)) s0 = (Return tt, s1) ->
  (forall t, rmtree_error env t ("data/" +:+ session_id) = None) ->
  exists x s',
    process_docs cfg env session_id uploaded_files processed_files existing_db
      max_workers embedding_batch_size chunk_size chunk_overlap s0 = (Return x, s')
    /\ fs s'.1 !! ("data/" +:+ session_id) = None.
Proof.
  intros Hset Hrm.
  rewrite (process_docs_after_set_up _ _ _ _ _ _ _ _ _ _ s0 s1 Hset).
  unfold try_finally.
  match goal with
  | |- context [try_except ?m ?h s1] =>
      destruct (guarded_ingest_returns cfg env session_id uploaded_files processed_files
                  existing_db (workers_of cfg env max_workers)
                  (py_or embedding_batch_size (EMBEDDING_BATCH_SIZE cfg))
                  (py_or chunk_size (CHUNK_SIZE cfg))
                  (py_or chunk_overlap (CHUNK_OVERLAP cfg)) s1) as (x & s2 & ->)
  end.
  destruct (clean_up_removes env session_id s2 Hrm) as (s' & -> & Hgone).
  by exists x, s'.
Qed.

(** After a successful ingestion the staging directory is gone. *)
Lemma process_docs_cleans_up_witness :
  exists x s',
    process_docs default_config (example_env None None page None Upserted)
      "s1" [upload "a.pdf"] 1 None None None None None (empty_world, session_heap)
    = (Return x, s')
    /\ fs s'.1 !! "data/s1" = None.
Proof.
  eapply (process_docs_cleans_up default_config (example_env None None page None Upserted)
            "s1" [upload "a.pdf"] 1 None None None None None (empty_world, session_heap)).
  - vm_compute. reflexivity.
  - reflexivity.
Defined.




(** The index write when the upsert raises: the failure is printed and
    [get_db] is tried on the new chunks alone. *)
Lemma write_index_fallback cfg env existing splits max_workers batch_size w h e n :
  splits <> [] ->
  add_documents env (clock w) existing splits = UpsertFailed e n ->
  let upserted := alter (fun stored => stored ++ take n splits) existing (chroma h) in
  exists db w' h',
    write_index cfg env (Some existing) splits max_workers batch_size (w, h)
    = (Return db, (w', h'))
    /\ lists h' = lists h
    /\ "Error updating existing database: " +:+ str e ∈ stdout w'
    /\ match from_documents env (Datatypes.S (clock w)) splits with
       | None =>
           db = Some (fresh (dom (chroma h)))
           /\ chroma h' = <[fresh (dom (chroma h)) := splits]> upserted
       | Some e' =>
           db = None /\ chroma h' = upserted
           /\ "Error creating database: " +:+ str e' ∈ stdout w'
       end.
Proof.
  intros Hsplits Hadd upserted.
  unfold write_index, try_except.
  unfold Chroma_add_documents, lift, bind, ret, raise, tick, record, print,
    get_heap, set_chroma. cbn -[get_db].
  rewrite Hadd. cbn -[get_db].
  match goal with
  | |- context [get_db cfg env splits ?mw ?bs (?w1, ?h1)] =>
      destruct (get_db_run cfg env splits mw bs w1 h1 Hsplits)
        as (db & w' & h' & -> & _ & _ & _ & Hlists & Hdb)
  end.
  exists db, w', h'. split; [reflexivity |]. split; [exact Hlists |].
  cbn [clock chroma stdout] in Hdb. fold upserted in Hdb.
  replace (dom upserted) with (dom (chroma h)) in Hdb by (symmetry; apply dom_alter_L).
  destruct (from_documents env (Datatypes.S (clock w)) splits) as [e'|].
  - destruct Hdb as (-> & -> & ->).
    split; [| split; [reflexivity | split; [reflexivity |]]].
    + apply elem_of_app. left. apply elem_of_app. right. by left.
    + apply elem_of_app. right. by left.
  - destruct Hdb as (-> & -> & ->).
    split; [| by split].
    apply elem_of_app. right. by left.
Qed.

(** C9 as stated fails: when the upsert raises and the construction of the
    fallback index raises as well, [get_db] catches the second exception
    and returns [None]; the call returns no index at all, with the new
    name committed all the same. *)
Lemma process_docs_fallback_counterexample :
  let run :=
    process_docs default_config
      (example_env None None page (Some (Exception "Dimension mismatch"))
         (UpsertFailed (Exception "Collection is locked") 0))
      "s1" [upload "a.pdf"] 1 (Some 2%positive) None None None None
      (empty_world, session_heap) in
  run.1 = Return (None, 1%positive)
  /\ lists run.2.2 !! 1%positive = Some ["old.pdf"; "a.pdf"]
  /\ calls run.2.1
     = [Load "PyPDFLoader" "data/s1/a.pdf"; Split 1; AddDocuments 2 1; FromDocuments 1].
Proof.
  vm_compute. repeat split.
Qed.

(** C9, amended.  With an existing index and new chunks, when the upsert
    raises, the failure is printed and not propagated, [get_db] is tried on
    the new chunks alone, and the call returns its result with the new
    names appended to [processed_files]: a new index, other than the
    existing one, that holds exactly the new chunks, or [None] when that
    construction raises too (printed as well). *)
Theorem process_docs_upsert_fallback cfg env session_id uploaded_files processed_files
    existing max_workers embedding_batch_size chunk_size chunk_overlap
    s0 s1 new_processed splits s2 processed old e n :
  let workers := workers_of cfg env max_workers in
  let batch := py_or embedding_batch_size (EMBEDDING_BATCH_SIZE cfg) in
  let size := py_or chunk_size (CHUNK_SIZE cfg) in
  let overlap := py_or chunk_overlap (CHUNK_OVERLAP cfg) in
  set_up cfg env session_id uploaded_files workers batch size s0 = (Return tt, s1) ->
  prepare_splits cfg env session_id uploaded_files processed_files
    workers size overlap s1 = (Return (Ready new_processed splits), s2) ->
  lists s0.2 !! processed_files = Some processed ->
  chroma s0.2 !! existing = Some old ->
  add_documents env (clock s2.1) existing splits = UpsertFailed e n ->
  exists db w' h',
    process_docs cfg env session_id uploaded_files processed_files (Some existing)
      max_workers embedding_batch_size chunk_size chunk_overlap s0
    = (Return (db, processed_files), (w', h'))
    /\ lists h' !! processed_files = Some (processed ++ new_processed)
    /\ "Error updating existing database: " +:+ str e ∈ stdout w'
    /\ match from_documents env (Datatypes.S (clock s2.1)) splits with
       | None =>
           exists new_db,
             db = Some new_db /\ new_db <> existing
             /\ chroma h' !! new_db = Some splits
       | Some e' =>
           db = None /\ "Error creating database: " +:+ str e' ∈ stdout w'
       end.
Proof.
  intros workers batch size overlap Hset Hprep Hlist Hold Hadd.
  rewrite (process_docs_after_set_up _ _ _ _ _ _ _ _ _ _ s0 s1 Hset).
  fold workers batch size overlap.
  destruct (set_up_frame _ _ _ _ _ _ _ _ _ _ Hset) as [_ Hheap1].
  destruct (prepare_splits_frame _ _ _ _ _ _ _ _ _ _ _ Hprep) as [_ Hheap2].
  pose proof (prepare_splits_Ready _ _ _ _ _ _ _ _ _ _ _ _ Hprep) as Hsplits.
  unfold try_finally, try_except, ingest. unfold bind at 1. rewrite Hprep.
  destruct s2 as [w2 h2]. simpl in Hadd, Hheap2.
  destruct (write_index_fallback cfg env existing splits workers batch w2 h2 e n
              Hsplits Hadd) as (db & w3 & h3 & Hwrite & Hlists3 & Hprinted & Hdb).
  unfold commit. unfold bind at 1. rewrite Hwrite.
  unfold list_extend, lift, bind, ret, tick, print, get_heap, set_lists. simpl.
  match goal with
  | |- context [clean_up env session_id ?s] =>
      destruct (clean_up_run env session_id s) as (w' & -> & _ & Hout)
  end.
  simpl in Hout.
  assert (Hkept : forall line, line ∈ stdout w3 -> line ∈ stdout w').
  { intros line Hline. eapply elem_of_prefix; [| exact Hout].
    apply elem_of_app. left. apply elem_of_app. by left. }
  eexists db, w', _. split; [reflexivity |]. simpl. split; [| split].
  - rewrite Hlists3, lookup_alter_eq, Hheap2, Hheap1, Hlist. reflexivity.
  - by apply Hkept.
  - destruct (from_documents env (Datatypes.S (clock w2)) splits) as [e'|].
    + destruct Hdb as (-> & _ & Hprinted'). split; [reflexivity | by apply Hkept].
    + destruct Hdb as (-> & ->). eexists. split; [reflexivity |]. split.
      * intros Hsame.
        apply (is_fresh (dom (chroma h2))). rewrite Hsame.
        apply elem_of_dom. rewrite Hheap2, Hheap1. by eexists.
      * apply lookup_insert_eq.
Qed.

(** The upsert fails and the fallback index is built from the new page. *)
Lemma process_docs_upsert_fallback_witness :
  exists db w' h',
    process_docs default_config
      (example_env None None page None (UpsertFailed (Exception "Collection is locked") 0))
      "s1" [upload "a.pdf"] 1 (Some 2%positive) None None None None
      (empty_world, session_heap)
    = (Return (db, 1%positive), (w', h'))
    /\ lists h' !! 1%positive = Some (["old.pdf"] ++ ["a.pdf"])
    /\ "Error updating existing database: Collection is locked" ∈ stdout w'
    /\ exists new_db,
         db = Some new_db /\ new_db <> 2%positive /\ chroma h' !! new_db = Some page.
Proof.
  eapply (process_docs_upsert_fallback default_config
            (example_env None None page None (UpsertFailed (Exception "Collection is locked") 0))
            "s1" [upload "a.pdf"] 1 2 None None None None
            (empty_world, session_heap) _ ["a.pdf"] page _ ["old.pdf"]
            [doc "An old chunk."] (Exception "Collection is locked") 0).
  - vm_compute. reflexivity.
  - vm_compute. reflexivity.
  - reflexivity.
  - reflexivity.
  - reflexivity.
Defined.

(** * Further properties of the sources *)

(** ** Computations that do not raise *)

Section Returns.
Context {S : Type}.

Lemma returns_ret {A} (a : A) : returns (ret (S := S) a).
Proof. intros s. by eexists _, _. Qed.

Lemma returns_bind {A B} (m : M S A) (k : A -> M S B) :
  returns m -> (forall a, returns (k a)) -> returns (bind m k).
Proof.
  intros Hm Hk s. unfold bind.
  destruct (Hm s) as (a & s1 & ->). apply Hk.
Qed.

Lemma returns_try_except {A} (m : M S A) (handler : exn -> M S A) :
  (forall e, returns (handler e)) -> returns (try_except m handler).
Proof.
  intros Hh s. unfold try_except.
  destruct (m s) as [[a|e] s1]; [by eexists _, _ | apply Hh].
Qed.

Lemma returns_submit {A} (task : M S A) : returns (submit task).
Proof. intros s. unfold submit. destruct (task s) as [r s1]. by eexists _, _. Qed.

Lemma returns_for_each {A B} (l : list A) (body : B -> A -> M S B) :
  (forall acc x, returns (body acc x)) -> forall acc, returns (for_each l acc body).
Proof.
  intros Hbody. induction l as [|x l IH]; intros acc; simpl.
  - apply returns_ret.
  - apply returns_bind; [apply Hbody | exact IH].
Qed.


End Returns.

Lemma returns_tick : returns tick.
Proof. intros w. by eexists _, _. Qed.

Lemma returns_print line : returns (print line).
Proof. intros w. by eexists _, _. Qed.

Lemma returns_record c : returns (record c).
Proof. intros w. by eexists _, _. Qed.

Lemma returns_completed {A} env (futures : list A) : returns (completed env futures).
Proof. intros w. by eexists _, _. Qed.

Lemma returns_lift {A} (m : M World A) : returns m -> returns (lift m).
Proof.
  intros Hm [w h]. unfold lift. simpl. destruct (Hm w) as (a & w' & ->). by eexists _, _.
Qed.

(** Structural steps of a proof that a computation returns. *)
Ltac returns_step :=
  first
    [ apply returns_ret | apply returns_tick | apply returns_print | apply returns_record
    | apply returns_completed | apply returns_submit
    | apply returns_try_except | apply returns_bind | apply returns_for_each
    | apply returns_lift
    | match goal with
      | |- returns (match ?x with _ => _ end) => destruct x
      | |- returns ((match ?x with _ => _ end) _) => destruct x
      | |- forall _, _ => intro
      end ].

(** ** utils/config.py and utils/embeddings.py *)

Lemma py_or_positive x d : unset_or_positive x -> (0 < d)%Z -> (0 < py_or x d)%Z.
Proof.
  intros Hx Hd. unfold py_or. destruct x as [n|]; [| exact Hd].
  destruct (Z.eqb_spec n 0); [exact Hd |].
  specialize (Hx n eq_refl). lia.
Qed.

Lemma get_optimal_workers_positive os_cpu_count task_type :
  unset_or_positive os_cpu_count -> (0 < get_optimal_workers os_cpu_count task_type)%Z.
Proof.
  intros Hcpu.
  pose proof (py_or_positive os_cpu_count 4 Hcpu ltac:(lia)) as Hpos.
  unfold get_optimal_workers.
  repeat match goal with |- context [String.eqb ?a ?b] => destruct (String.eqb a b) end; lia.
Qed.

(** X1. Whatever the task type, [get_optimal_workers] gives a number that a
    thread pool accepts: at least 1 (a machine whose CPU count is unknown
    counts as 4 CPUs), at most 32 for the task types ["cpu"] and ["io"] and
    at most 16 for ["mixed"]. *)
Theorem get_optimal_workers_bounds os_cpu_count task_type :
  unset_or_positive os_cpu_count ->
  (1 <= get_optimal_workers os_cpu_count task_type)%Z
  /\ (task_type = "cpu" \/ task_type = "io" ->
      (get_optimal_workers os_cpu_count task_type <= 32)%Z)
  /\ (task_type = "mixed" -> (get_optimal_workers os_cpu_count task_type <= 16)%Z).
Proof.
  intros Hcpu.
  pose proof (py_or_positive os_cpu_count 4 Hcpu ltac:(lia)) as Hpos.
  split; [| split].
  - pose proof (get_optimal_workers_positive os_cpu_count task_type Hcpu). lia.
  - intros [-> | ->]; unfold get_optimal_workers; simpl; lia.
  - intros ->. unfold get_optimal_workers. simpl. lia.
Qed.

Lemma get_optimal_workers_bounds_witness :
  (1 <= get_optimal_workers None "io")%Z
  /\ (("io" : string) = "cpu" \/ ("io" : string) = "io" ->
      (get_optimal_workers None "io" <= 32)%Z)
  /\ (("io" : string) = "mixed" -> (get_optimal_workers None "io" <= 16)%Z).
Proof.
  apply (get_optimal_workers_bounds None "io"). intros n Hn. discriminate.
Defined.

(** X2. An embedder built by [TextEmbeddings.__init__] from arguments and
    settings that are unset, zero or positive, with a positive
    [EMBEDDING_BATCH_SIZE], has a pool size and a batch size that are
    positive; [embed_documents] on it never raises and returns one slot per
    text. *)
Theorem TextEmbeddings_init_embeds cfg os_cpu_count max_workers batch_size post choice texts :
  unset_or_positive os_cpu_count ->
  unset_or_positive (EMBEDDING_MAX_WORKERS cfg) ->
  unset_or_positive max_workers ->
  unset_or_positive batch_size ->
  (0 < EMBEDDING_BATCH_SIZE cfg)%Z ->
  let self := TextEmbeddings_init cfg os_cpu_count max_workers batch_size in
  (0 < self_max_workers self)%Z /\ (0 < self_batch_size self)%Z
  /\ exists embeddings printed,
       embed_documents cfg self post choice texts = Return (embeddings, printed)
       /\ length embeddings = length texts.
Proof.
  intros Hcpu Hcfg Hworkers Hbatch Hsize self.
  assert (Hw : (0 < self_max_workers self)%Z).
  { apply py_or_positive; [assumption |]. apply py_or_positive; [assumption |].
    by apply get_optimal_workers_positive. }
  assert (Hb : (0 < self_batch_size self)%Z) by (by apply py_or_positive).
  split; [exact Hw |]. split; [exact Hb |].
  destruct (embed_documents_imap cfg self post choice texts Hw Hb) as [printed ->].
  eexists _, printed. split; [reflexivity | apply length_imap].
Qed.

(** The default settings on a machine whose CPU count is unknown, with
    batches of two. *)
Lemma TextEmbeddings_init_embeds_witness :
  let self := TextEmbeddings_init default_config None None (Some 2%Z) in
  (0 < self_max_workers self)%Z /\ (0 < self_batch_size self)%Z
  /\ exists embeddings printed,
       embed_documents default_config self stub_post (fun _ step => step) ["a"; "b"; "c"]
       = Return (embeddings, printed)
       /\ length embeddings = length ["a"; "b"; "c"].
Proof.
  apply (TextEmbeddings_init_embeds default_config None None (Some 2%Z) stub_post
           (fun _ step => step) ["a"; "b"; "c"]).
  - intros n Hn. discriminate.
  - intros n Hn. discriminate.
  - intros n Hn. discriminate.
  - intros n [= <-]. lia.
  - reflexivity.
Defined.

Section EmbedBounds.
Variable cfg : RAGConfig.


End EmbedBounds.



(** X4. The edges of [embed_documents]: no text gives the empty list
    without touching the pool; for one text or more, a batch size of zero
    raises the [ValueError] of [range], a negative batch size makes the
    loop empty so that the result is the empty list whatever the number of
    texts, and a pool size that is not positive raises the [ValueError] of
    the pool. *)
Theorem embed_documents_edges cfg self post choice texts :
  embed_documents cfg self post choice [] = Return ([], [])
  /\ (texts <> [] -> self_batch_size self = 0%Z ->
      embed_documents cfg self post choice texts
      = Raise (ValueError "range() arg 3 must not be zero"))
  /\ (texts <> [] -> (self_batch_size self < 0)%Z ->
      embed_documents cfg self post choice texts = Return ([], []))
  /\ (texts <> [] -> (0 < self_batch_size self)%Z -> (self_max_workers self <= 0)%Z ->
      embed_documents cfg self post choice texts
      = Raise (ValueError "max_workers must be greater than 0")).
Proof.
  split; [reflexivity |].
  destruct texts as [|text texts]; [repeat split; intros []; reflexivity |].
  unfold embed_documents, range_step.
  split; [| split].
  - intros _ ->. reflexivity.
  - intros _ Hb.
    destruct (Z.eqb_spec (self_batch_size self) 0); [lia |].
    destruct (Z.ltb_spec (self_batch_size self) 0); [reflexivity | lia].
  - intros _ Hb Hw.
    destruct (Z.eqb_spec (self_batch_size self) 0); [lia |].
    destruct (Z.ltb_spec (self_batch_size self) 0); [lia |].
    unfold range.
    assert (Hq : (0 < (Z.of_nat (length (text :: texts)) + self_batch_size self - 1)
                     / self_batch_size self)%Z).
    { apply Z.div_str_pos. cbn [length]. lia. }
    destruct (Z.to_nat _) as [|q] eqn:Hto; [lia |].
    cbn [seq map embed_batches]. unfold _embed_batch.
    destruct (Z.leb_spec (self_max_workers self) 0); [reflexivity | lia].
Qed.

(** A negative batch size: three texts, no embedding and no error. *)
Lemma embed_documents_edges_witness :
  embed_documents default_config {| self_max_workers := 4; self_batch_size := -1 |}
    stub_post (fun _ step => step) ["a"; "b"; "c"] = Return ([], []).
Proof.
  destruct (embed_documents_edges default_config
              {| self_max_workers := 4; self_batch_size := -1 |}
              stub_post (fun _ step => step) ["a"; "b"; "c"]) as (_ & _ & Hneg & _).
  apply Hneg; [discriminate | reflexivity].
Defined.




#[global] Instance only_prints_PreOrder : PreOrder only_prints.
Proof.
  split.
  - by intros w.
  - intros w1 w2 w3 (? & ? & ?) (? & ? & ?). unfold only_prints. split; [| split]; congruence.
Qed.

(** A loop whose body never raises is a fold. *)
Lemma for_each_foldl {S A B} (R : relation S) `{!PreOrder R} (body : B -> A -> M S B)
    (step : B -> A -> B) (l : list A) :
  (forall acc x s, exists s', body acc x s = (Return (step acc x), s') /\ R s s') ->
  forall acc s, exists s', for_each l acc body s = (Return (foldl step acc l), s') /\ R s s'.
Proof.
  intros Hbody. induction l as [|x l IH]; intros acc s.
  - exists s. split; reflexivity.
  - cbn [for_each foldl]. unfold bind.
    destruct (Hbody acc x s) as (s1 & -> & Hs1).
    destruct (IH (step acc x) s1) as (s' & -> & Hs').
    exists s'. split; [reflexivity | by transitivity s1].
Qed.

Lemma foldl_app_bind {A C} (g : A -> list C) (l : list A) : forall acc,
  foldl (fun acc x => acc ++ g x) acc l = acc ++ (l ≫= g).
Proof.
  induction l as [|x l IH]; intros acc; simpl.
  - by rewrite app_nil_r.
  - by rewrite IH, app_assoc.
Qed.


(** ** Pools: every future is collected once *)

Lemma omap_lookup_seq {A} (l : list A) : forall pre,
  omap (fun i => pair i <$> (pre ++ l) !! i) (seq (length pre) (length l))
  = imap (fun j x => ((length pre + j)%nat, x)) l.
Proof.
  induction l as [|x l IH]; intros pre; [reflexivity |].
  cbn [length seq omap list_omap imap].
  rewrite list_lookup_middle by reflexivity. cbn [fmap option_fmap option_map].
  rewrite Nat.add_0_r. f_equal.
  specialize (IH (pre ++ [x])).
  rewrite <- app_assoc, length_app in IH. cbn [app length] in IH.
  rewrite Nat.add_1_r in IH. rewrite IH.
  apply imap_ext. intros j y _. simpl. f_equal. lia.
Qed.

Lemma completed_run {A} env (futures : list A) w :
  exists done,
    completed env futures w
    = (Return done,
       {| fs := fs w; stdout := stdout w; calls := calls w; clock := Datatypes.S (clock w) |})
    /\ done ≡ₚ imap pair futures.
Proof.
  eexists. split; [reflexivity |].
  rewrite (as_completed_perm (pool_choice env (clock w)) (length futures)).
  apply (reflexive_eq (R := Permutation)), (omap_lookup_seq futures []).
Qed.

Lemma bind_imap_singleton {A B C D} (g : C -> list D) (l : list A) :
  forall (h : nat -> A -> B) (p : nat -> B -> C) (k : nat -> A -> D),
  (forall i x, g (p i (h i x)) = [k i x]) ->
  imap p (imap h l) ≫= g = imap k l.
Proof.
  induction l as [|x l IH]; intros h p k Hg; [reflexivity |].
  cbn [imap mbind list_bind]. rewrite Hg. cbn [app]. f_equal.
  apply IH. intros i y. apply Hg.
Qed.

(** ** utils/embeddings.py: the descriptions of the images *)

Lemma get_image_desc_run env img w :
  get_image_desc env img w
  = (match describe_image env (clock w) img with
     | Return description =>
         Return [{| page_content := description; metadata := [("file_name", img)] |}]
     | Raise e => Raise e
     end,
     {| fs := fs w; stdout := stdout w; calls := calls w ++ [Describe img];
        clock := Datatypes.S (clock w) |}).
Proof.
  unfold get_image_desc, bind, tick, record, of_result, ret. simpl.
  destruct (describe_image env (clock w) img); reflexivity.
Qed.


Section ImageBatch.
Variable cfg : RAGConfig.
Variable env : Env.

(** The future of the task submitted for an image at clock [t]. *)
Let described (t : nat) (img : string) : result (list Document) :=
  match describe_image env t img with
  | Return description =>
      Return [{| page_content := description; metadata := [("file_name", img)] |}]
  | Raise e => Raise e
  end.

Lemma get_image_desc_described img w :
  get_image_desc env img w
  = (described (clock w) img,
     {| fs := fs w; stdout := stdout w; calls := calls w ++ [Describe img];
        clock := Datatypes.S (clock w) |}).
Proof. apply get_image_desc_run. Qed.

Lemma submit_images image_paths : forall futures w,
  for_each image_paths futures
    (fun futures img_path =>
       future <- submit (get_image_desc env img_path) ;;
       ret (futures ++ [(img_path, future)])) w
  = (Return (futures
             ++ imap (fun i img_path => (img_path, described (clock w + i) img_path))
                  image_paths),
     {| fs := fs w; stdout := stdout w; calls := calls w ++ (Describe <$> image_paths);
        clock := clock w + length image_paths |}).
Proof.
  induction image_paths as [|img_path image_paths IH]; intros futures w.
  - simpl. unfold ret. rewrite !app_nil_r, Nat.add_0_r. by destruct w.
  - cbn [for_each]. unfold bind at 1. unfold bind at 1, submit.
    rewrite get_image_desc_described. unfold ret at 1. rewrite IH.
    cbn [fs stdout calls clock imap fmap list_fmap length].
    rewrite <- !app_assoc, Nat.add_0_r. cbn [app].
    f_equal; [f_equal; f_equal; f_equal |].
    + apply imap_ext. intros i x _. simpl. do 2 f_equal. lia.
    + f_equal. lia.
Qed.

Lemma collect_images done all_documents w :
  exists w',
    for_each done all_documents
      (fun all_documents '(_, (img_path, future)) =>
         try_except
           (documents <- future_result future ;;
            ret (all_documents ++ documents))
           (fun exc =>
              print ("Image processing failed for " +:+ img_path +:+ ": " +:+ str exc) ;;
              ret (all_documents ++
                     [{| page_content := "Failed to process image: " +:+ img_path;
                         metadata := [("file_name", img_path)] |}]))) w
    = (Return (all_documents
               ++ (done ≫= fun x : nat * (string * result (list Document)) =>
                     match x.2.2 with
                     | Return documents => documents
                     | Raise _ =>
                         [{| page_content := "Failed to process image: " +:+ x.2.1;
                             metadata := [("file_name", x.2.1)] |}]
                     end)), w')
    /\ only_prints w w'.
Proof.
  rewrite <- foldl_app_bind.
  apply (for_each_foldl only_prints).
  intros acc [i [img_path [documents|exc]]] w1.
  - exists w1. split; reflexivity.
  - eexists. split; [reflexivity |]. by unfold only_prints.
Qed.

Lemma get_images_desc_batch_run image_paths max_workers w :
  (image_paths <> [] ->
   (0 < py_or max_workers
          (py_or (Some (IMAGE_MAX_WORKERS cfg)) (Z.min 8 (Z.of_nat (length image_paths)))))%Z) ->
  exists all_documents w',
    get_images_desc_batch cfg env image_paths max_workers w = (Return all_documents, w')
    /\ all_documents
       ≡ₚ imap (fun i img_path =>
                  image_document (describe_image env (clock w + i) img_path) img_path)
            image_paths
    /\ calls w' = calls w ++ (Describe <$> image_paths)
    /\ fs w' = fs w.
Proof.
  intros Hpool. unfold get_images_desc_batch.
  destruct image_paths as [|img_path0 image_paths'].
  { exists [], w. unfold ret. simpl. by rewrite app_nil_r. }
  specialize (Hpool ltac:(discriminate)).
  unfold bind at 1, ThreadPoolExecutor.
  match goal with |- context [(?n <=? 0)%Z] => destruct (Z.leb_spec n 0) as [|_]; [lia |] end.
  unfold ret at 1.
  unfold bind at 1. rewrite submit_images. cbn [app].
  unfold bind at 1.
  match goal with
  | |- context [completed env ?futures ?w1] =>
      destruct (completed_run env futures w1) as (done & -> & Hdone)
  end.
  match goal with
  | |- context [for_each done ?acc _ ?w1] =>
      destruct (collect_images done acc w1) as (w' & -> & Hfs & Hcalls & _)
  end.
  eexists _, w'. split; [reflexivity |]. split; [| by split].
  cbn [app]. rewrite Hdone.
  erewrite bind_imap_singleton; [reflexivity |].
  intros i img_path. unfold described, image_document. cbn [fst snd].
  destruct (describe_image env (clock w + i) img_path); reflexivity.
Qed.

End ImageBatch.



(** ** utils/rag.py: loading *)

#[global] Instance anything_PreOrder {S} : PreOrder (fun _ _ : S => True).
Proof. by split. Qed.

Section Loading.
Variable cfg : RAGConfig.
Variable env : Env.

(** A call of [process_input_file]: it returns what [file_documents]
    describes, whatever the loader does. *)
Lemma process_input_file_run input_file_name w :
  exists w',
    process_input_file env input_file_name w
    = (Return (file_documents env (clock w) input_file_name), w')
    /\ fs w' = fs w
    /\ (loader_for input_file_name = None -> is_image input_file_name = false ->
        only_prints w w'
        /\ stdout w' = stdout w ++ ["Unsupported file type: " +:+ input_file_name])
    /\ (forall loader e,
          loader_for input_file_name = Some loader ->
          load env (clock w) loader input_file_name = Raise e ->
          stdout w'
          = stdout w ++ ["Error processing file " +:+ input_file_name +:+ ": " +:+ str e]).
Proof.
  unfold process_input_file, file_documents, loader_for, is_image.
  repeat match goal with
         | |- context [endswith input_file_name ?suffix] =>
             destruct (endswith input_file_name suffix)
         end;
    try (unfold try_except, run_loader, bind, tick, record, of_result, print, ret;
         cbn [clock fs stdout calls];
         match goal with
         | |- context [load env (clock w) ?loader input_file_name] =>
             destruct (load env (clock w) loader input_file_name) as [documents|e'] eqn:Hload
         end;
         (eexists; split; [reflexivity |]; split; [reflexivity |];
          split; [discriminate |]; intros loader e [= <-]; rewrite Hload; intros [= <-];
          reflexivity)).
  destruct (endswith_any input_file_name image_suffixes).
  - unfold try_except. rewrite get_image_desc_run.
    destruct (describe_image env (clock w) input_file_name) as [description|e'];
      (eexists; split; [reflexivity |]; split; [reflexivity |];
       split; [discriminate | discriminate]).
  - eexists. split; [reflexivity |]. split; [reflexivity |].
    split; [intros _ _; by unfold only_prints | discriminate].
Qed.

End Loading.

(** X6. [process_input_file] never raises.  A name that ends in none of
    the supported suffixes reaches no loader and no endpoint: the function
    prints ["Unsupported file type: ..."] and returns no document.  When
    the loader of a supported file raises, the error is printed and the
    function returns no document as well. *)
Theorem process_input_file_fail_soft env input_file_name w :
  exists documents w',
    process_input_file env input_file_name w = (Return documents, w')
    /\ (loader_for input_file_name = None -> is_image input_file_name = false ->
        documents = [] /\ calls w' = calls w
        /\ stdout w' = stdout w ++ ["Unsupported file type: " +:+ input_file_name])
    /\ (forall loader e,
          loader_for input_file_name = Some loader ->
          load env (clock w) loader input_file_name = Raise e ->
          documents = []
          /\ stdout w'
             = stdout w ++ ["Error processing file " +:+ input_file_name +:+ ": " +:+ str e]).
Proof.
  destruct (process_input_file_run env input_file_name w)
    as (w' & Hrun & _ & Hunsupported & Hfailed).
  eexists _, w'. split; [exact Hrun |]. split.
  - intros Hloader Himage. destruct (Hunsupported Hloader Himage) as [(_ & Hcalls & _) Hout].
    unfold file_documents. rewrite Hloader, Himage. by repeat split.
  - intros loader e Hloader Hload. split; [| by eapply Hfailed].
    unfold file_documents. by rewrite Hloader, Hload.
Qed.

(** A text file has no loader. *)
Lemma process_input_file_fail_soft_witness :
  exists documents w',
    process_input_file (example_env None None page None Upserted) "data/s1/notes.txt"
      empty_world = (Return documents, w')
    /\ documents = [] /\ calls w' = []
    /\ stdout w' = ["Unsupported file type: data/s1/notes.txt"].
Proof.
  destruct (process_input_file_fail_soft (example_env None None page None Upserted)
              "data/s1/notes.txt" empty_world)
    as (documents & w' & Hrun & Hunsupported & _).
  exists documents, w'. split; [exact Hrun |].
  apply Hunsupported; reflexivity.
Defined.



Lemma bind_imap_fmap {A B C D} (g : C -> list D) (h : A -> B) (k : A -> list D) (l : list A) :
  forall (p : nat -> B -> C),
  (forall i x, g (p i (h x)) = k x) ->
  imap p (h <$> l) ≫= g = l ≫= k.
Proof.
  induction l as [|x l IH]; intros p Hg; [reflexivity |].
  cbn [fmap list_fmap imap mbind list_bind]. rewrite Hg. f_equal.
  apply IH. intros i y. apply Hg.
Qed.

Section LoadingBatch.
Variable cfg : RAGConfig.
Variable env : Env.
Hypothesis Hstable : stable_loaders env.

Lemma file_documents_stable t input_file_name :
  file_documents env t input_file_name = file_documents env 0 input_file_name.
Proof.
  destruct Hstable as [Hload Hdescribe]. unfold file_documents.
  destruct (loader_for input_file_name) as [loader|].
  - by rewrite (Hload t 0%nat).
  - by rewrite (Hdescribe t 0%nat).
Qed.

Lemma submit_files other_files futures w :
  exists w',
    for_each other_files futures
      (fun futures file_path =>
         future <- submit (process_input_file env file_path) ;;
         ret (futures ++ [(file_path, future)])) w
    = (Return (futures
               ++ ((fun file_path => (file_path, Return (file_documents env 0 file_path)))
                     <$> other_files)), w').
Proof.
  replace (futures ++ _)
    with (foldl (fun futures file_path =>
                   futures ++ [(file_path, Return (file_documents env 0 file_path))])
            futures other_files).
  - match goal with
    | |- context [for_each _ _ ?body] =>
        destruct (for_each_foldl (fun _ _ => True) body
                    (fun futures file_path =>
                       futures ++ [(file_path, Return (file_documents env 0 file_path))])
                    other_files) with (acc := futures) (s := w) as (w' & Hrun & _);
          [| by exists w']
    end.
    intros acc file_path w1. unfold bind, submit.
    destruct (process_input_file_run env file_path w1) as (w' & -> & _).
    rewrite file_documents_stable. by exists w'.
  - clear w. revert futures.
    induction other_files as [|file_path other_files IH]; intros futures; simpl.
    + by rewrite app_nil_r.
    + by rewrite IH, <- app_assoc.
Qed.

Lemma collect_files done all_documents w :
  exists w',
    for_each done all_documents
      (fun all_documents '(_, (file_path, future)) =>
         try_except
           (documents <- future_result future ;;
            match documents with
            | [] => ret all_documents
            | _ => ret (all_documents ++ documents)
            end)
           (fun exc =>
              print ("File processing failed for " +:+ file_path +:+ ": " +:+ str exc) ;;
              ret all_documents)) w
    = (Return (all_documents
               ++ (done ≫= fun x : nat * (string * result (list Document)) =>
                     match x.2.2 with
                     | Return documents => documents
                     | Raise _ => []
                     end)), w')
    /\ only_prints w w'.
Proof.
  rewrite <- foldl_app_bind.
  apply (for_each_foldl only_prints).
  intros acc [i [file_path [documents|exc]]] w1.
  - exists w1. split; [| reflexivity].
    destruct documents; cbn; [by rewrite app_nil_r | reflexivity].
  - eexists. split; [cbn; by rewrite app_nil_r |]. by unfold only_prints.
Qed.

Lemma process_input_files_batch_run input_file_names max_workers w :
  (0 < py_or max_workers
         (py_or (DOC_PROCESSING_MAX_WORKERS cfg)
            (get_optimal_workers (os_cpu_count env) "mixed")))%Z ->
  exists all_documents w',
    process_input_files_batch cfg env input_file_names max_workers w
    = (Return all_documents, w')
    /\ all_documents
       ≡ₚ ((fun img_path => image_document (describe_image env 0 img_path) img_path)
             <$> filter (fun f => is_image f = true) input_file_names)
          ++ (filter (fun f => is_image f <> true) input_file_names
                ≫= file_documents env 0).
Proof.
  intros Hworkers. unfold process_input_files_batch.
  destruct input_file_names as [|file0 files0]; [by exists [], w |].
  generalize (file0 :: files0). clear file0 files0. intros input_file_names.
  set (image_files := filter (fun f => is_image f = true) input_file_names).
  set (other_files := filter (fun f => is_image f <> true) input_file_names).
  unfold bind at 1.
  assert (Himages : exists image_docs w1,
             match image_files with
             | [] => ret []
             | _ =>
                 try_except
                   (get_images_desc_batch cfg env image_files
                      (Some (Z.min 4 (Z.of_nat (length image_files)))))
                   (fun e => print ("Error processing image files: " +:+ str e) ;; ret [])
             end w = (Return image_docs, w1)
             /\ image_docs
                ≡ₚ (fun img_path => image_document (describe_image env 0 img_path) img_path)
                     <$> image_files).
  { destruct image_files as [|img_path0 image_files'] eqn:Himage_files; [by exists [], w |].
    rewrite <- Himage_files. clear Himage_files. unfold try_except.
    destruct (get_images_desc_batch_run cfg env image_files
                (Some (Z.min 4 (Z.of_nat (length image_files)))) w)
      as (image_docs & w1 & -> & Hperm & _).
    { intros Hne. unfold py_or at 1.
      destruct image_files; [contradiction |]. cbn [length].
      destruct (Z.eqb_spec (Z.min 4 (Z.of_nat (Datatypes.S (length image_files)))) 0); lia. }
    exists image_docs, w1. split; [reflexivity |].
    rewrite Hperm. rewrite <- imap_const. apply (reflexive_eq (R := Permutation)).
    apply imap_ext. intros i img_path _. unfold const.
    destruct Hstable as [_ Hdescribe]. by rewrite (Hdescribe _ 0%nat). }
  destruct Himages as (image_docs & w1 & -> & Himages).
  destruct other_files as [|file_path0 other_files'] eqn:Hother_files.
  { exists image_docs, w1. split; [reflexivity |]. simpl. by rewrite app_nil_r. }
  rewrite <- Hother_files.
  assert (Hlen : (0 < length other_files)%nat) by (rewrite Hother_files; simpl; lia).
  clear Hother_files.
  unfold bind at 1, ThreadPoolExecutor.
  match goal with |- context [(?n <=? 0)%Z] => destruct (Z.leb_spec n 0) as [|_]; [lia |] end.
  unfold ret at 1. unfold bind at 1.
  destruct (submit_files other_files [] w1) as (w2 & ->). cbn [app].
  unfold bind at 1.
  match goal with
  | |- context [completed env ?futures ?w1] =>
      destruct (completed_run env futures w1) as (done & -> & Hdone)
  end.
  destruct (collect_files done image_docs
              {| fs := fs w2; stdout := stdout w2; calls := calls w2;
                 clock := Datatypes.S (clock w2) |}) as (w' & -> & _).
  eexists _, w'. split; [reflexivity |].
  rewrite Himages, Hdone. apply Permutation_app_head.
  apply (reflexive_eq (R := Permutation)).
  by apply bind_imap_fmap.
Qed.

End LoadingBatch.

(** X7. With a pool size that is unset, zero or positive, and loaders and
    a vision endpoint whose answers do not depend on the time of the call,
    [process_input_files_batch] never raises and returns, in the order of
    completion, exactly: for every image, its description or the
    placeholder of a failed description; for every other file, what its
    loader extracts.  A file whose loader raises or whose type is not
    supported contributes nothing and takes nothing away from the others. *)
Theorem process_input_files_batch_collects cfg env input_file_names max_workers w :
  stable_loaders env ->
  unset_or_positive max_workers ->
  unset_or_positive (DOC_PROCESSING_MAX_WORKERS cfg) ->
  unset_or_positive (os_cpu_count env) ->
  exists all_documents w',
    process_input_files_batch cfg env input_file_names max_workers w
    = (Return all_documents, w')
    /\ all_documents
       ≡ₚ ((fun img_path => image_document (describe_image env 0 img_path) img_path)
             <$> filter (fun f => is_image f = true) input_file_names)
          ++ (filter (fun f => is_image f <> true) input_file_names
                ≫= file_documents env 0).
Proof.
  intros Hstable Hworkers Hcfg Hcpu.
  apply process_input_files_batch_run; [assumption |].
  apply py_or_positive; [assumption |]. apply py_or_positive; [assumption |].
  by apply get_optimal_workers_positive.
Qed.

(** A PDF, an image and a text file: the page of the PDF and the
    description of the image. *)
Lemma process_input_files_batch_collects_witness :
  let env := example_env None None page None Upserted in
  let input_file_names := ["data/s1/a.pdf"; "data/s1/b.png"; "data/s1/notes.txt"] in
  exists all_documents w',
    process_input_files_batch default_config env input_file_names None empty_world
    = (Return all_documents, w')
    /\ all_documents
       ≡ₚ ((fun img_path => image_document (describe_image env 0 img_path) img_path)
             <$> filter (fun f => is_image f = true) input_file_names)
          ++ (filter (fun f => is_image f <> true) input_file_names
                ≫= file_documents env 0).
Proof.
  intros env input_file_names.
  apply (process_input_files_batch_collects default_config env input_file_names None
           empty_world).
  - split; intros; reflexivity.
  - intros n Hn. discriminate.
  - intros n Hn. discriminate.
  - intros n [= <-]. lia.
Defined.

Lemma returns_process_input_file env input_file_name :
  returns (process_input_file env input_file_name).
Proof. unfold process_input_file. apply returns_try_except. intros e. repeat returns_step. Qed.




(** ** utils/rag.py: splitting *)

Lemma foldl_omap {A B C} (step : C -> B -> C) (g : A -> option B) (l : list A) : forall acc,
  foldl step acc (omap g l)
  = foldl (fun acc x => match g x with Some y => step acc y | None => acc end) acc l.
Proof.
  induction l as [|x l IH]; intros acc; [reflexivity |].
  cbn [omap list_omap foldl]. destruct (g x); cbn [foldl]; apply IH.
Qed.

(** Futures stored by index, in any order: each settles its own slot. *)
Lemma foldl_insert_lookup {A B} (v : A -> B) (futures : list A) (order : list nat) :
  forall (slots : list B) i,
  length slots = length futures ->
  foldl (fun slots j =>
           match pair j <$> futures !! j with
           | Some y => <[y.1 := v y.2]> slots
           | None => slots
           end) slots order !! i
  = if decide (i ∈ order) then v <$> futures !! i else slots !! i.
Proof.
  induction order as [|j order IH]; intros slots i Hlen.
  - simpl. destruct (decide (i ∈ [])) as [Hin|_]; [| reflexivity].
    by apply not_elem_of_nil in Hin.
  - cbn [foldl].
    destruct (futures !! j) as [x|] eqn:Hj; cbn [fmap option_fmap option_map fst snd].
    + rewrite IH by (by rewrite length_insert).
      destruct (decide (i ∈ order)) as [Hin|Hnin].
      * rewrite decide_True by (apply elem_of_cons; by right). reflexivity.
      * destruct (decide (i = j)) as [-> |Hne].
        -- rewrite decide_True by (apply elem_of_cons; by left).
           rewrite Hj. apply list_lookup_insert_eq.
           rewrite Hlen. eapply lookup_lt_Some, Hj.
        -- rewrite decide_False by (intros [? | ?]%elem_of_cons; contradiction).
           by rewrite list_lookup_insert_ne.
    + rewrite IH by assumption.
      destruct (decide (i ∈ order)) as [Hin|Hnin].
      * rewrite decide_True by (apply elem_of_cons; by right). reflexivity.
      * destruct (decide (i = j)) as [-> |Hne].
        -- rewrite decide_True by (apply elem_of_cons; by left).
           rewrite Hj. simpl. apply lookup_ge_None. rewrite Hlen. by apply lookup_ge_None.
        -- rewrite decide_False by (intros [? | ?]%elem_of_cons; contradiction).
           reflexivity.
Qed.

Lemma bind_concat {A B} (f : A -> list B) (ls : list (list A)) :
  concat ls ≫= f = concat ((fun l => l ≫= f) <$> ls).
Proof.
  induction ls as [|l ls IH]; [reflexivity |].
  cbn [concat fmap list_fmap]. by rewrite bind_app, IH.
Qed.

(** The batches of [get_splits] cover the documents, in order. *)
Lemma concat_batches {X} (l : list X) (b : Z) :
  (0 < b)%Z ->
  concat (map (fun i => slice l i (i + b))
            (map (fun j => (j * b)%Z) (range ((Z.of_nat (length l) + b - 1) / b))))
  = l.
Proof.
  intros Hb. unfold range. rewrite !map_map.
  set (m := Z.to_nat ((Z.of_nat (length l) + b - 1) / b)).
  transitivity (imap (fun _ x => x) (take (m * Z.to_nat b) l)).
  - rewrite <- imap_batches. f_equal. apply map_ext. intros j.
    unfold slice.
    replace (Z.to_nat (Z.of_nat j * b)) with (j * Z.to_nat b)%nat by lia.
    replace (Z.to_nat (Z.of_nat j * b + b) - j * Z.to_nat b)%nat with (Z.to_nat b) by lia.
    symmetry. etransitivity; [apply (imap_const id) | apply list_fmap_id].
  - rewrite take_ge.
    + etransitivity; [apply (imap_const id) | apply list_fmap_id].
    + pose proof (ceil_div_covers (Z.of_nat (length l)) b Hb) as Hcover.
      assert (0 <= (Z.of_nat (length l) + b - 1) / b)%Z by (apply Z.div_pos; lia).
      subst m. nia.
Qed.

Section Splitting.
Variable env : Env.
Variables chunk_size chunk_overlap : Z.

Lemma splitter_split_documents_run documents w :
  splitter_split_documents env chunk_size chunk_overlap documents w
  = (split_documents env (clock w) chunk_size chunk_overlap documents,
     {| fs := fs w; stdout := stdout w; calls := calls w ++ [Split (length documents)];
        clock := Datatypes.S (clock w) |}).
Proof. reflexivity. Qed.

(** The pool of [get_splits] and its batch size are positive for more than
    ten documents. *)
Lemma get_splits_pool (docs : list Document) max_workers :
  (10 < length docs)%nat ->
  unset_or_positive max_workers ->
  let workers := py_or max_workers (Z.min 4 (Z.of_nat (length docs) / 5)) in
  (0 < workers)%Z /\ (0 < Z.max 1 (Z.of_nat (length docs) / workers))%Z.
Proof.
  intros Hlen Hworkers. split; [| lia].
  apply py_or_positive; [assumption |].
  assert (2 <= Z.of_nat (length docs) / 5)%Z by (apply Z.div_le_lower_bound; lia).
  lia.
Qed.

(** The parallel path, once the splitter is built. *)
Lemma submit_batches (f : nat -> list Document -> result (list Document)) batches :
  forall futures w,
  (forall t documents,
     split_documents env t chunk_size chunk_overlap documents = f t documents) ->
  for_each batches futures
    (fun futures batch =>
       future <- submit (splitter_split_documents env chunk_size chunk_overlap batch) ;;
       ret (futures ++ [future])) w
  = (Return (futures ++ imap (fun i batch => f (clock w + i)%nat batch) batches),
     {| fs := fs w; stdout := stdout w; calls := calls w ++ ((Split ∘ length) <$> batches);
        clock := clock w + length batches |}).
Proof.
  intros futures w Hf. revert futures w.
  induction batches as [|batch batches IH]; intros futures w.
  - simpl. unfold ret. rewrite !app_nil_r, Nat.add_0_r. by destruct w.
  - cbn [for_each]. unfold bind at 1. unfold bind at 1, submit.
    rewrite splitter_split_documents_run. unfold ret at 1. rewrite IH.
    cbn [fs stdout calls clock imap fmap list_fmap length].
    rewrite <- !app_assoc, Nat.add_0_r, Hf. cbn [app].
    f_equal; [f_equal; f_equal; f_equal |].
    + apply imap_ext. intros i x _. simpl. f_equal. lia.
    + f_equal. lia.
Qed.

Lemma collect_batches (done : list (nat * result (list Document))) batch_results w :
  exists w',
    for_each done batch_results
      (fun batch_results '(batch_idx, future) =>
         try_except
           (r <- future_result future ;;
            ret (<[batch_idx := Some r]> batch_results))
           (fun exc =>
              print ("Document splitting failed for batch " +:+ str_nat batch_idx
                       +:+ ": " +:+ str exc) ;;
              ret (<[batch_idx := Some []]> batch_results))) w
    = (Return
         (foldl (fun (batch_results : list (option (list Document)))
                     (x : nat * result (list Document)) =>
                   <[x.1 := Some (match x.2 with Return r => r | Raise _ => [] end)]>
                     batch_results)
            batch_results done), w')
    /\ only_prints w w'.
Proof.
  apply (for_each_foldl only_prints).
  intros acc [batch_idx [r|exc]] w1.
  - exists w1. split; reflexivity.
  - eexists. split; [reflexivity |]. by unfold only_prints.
Qed.

(** More than ten documents, a splitter that is built and a pool size that
    is unset, zero or positive: [get_splits] returns, for each batch in
    order, the chunks of the batch, or nothing for a batch whose splitting
    raised. *)
Lemma get_splits_parallel docs max_workers w :
  (10 < length docs)%nat ->
  unset_or_positive max_workers ->
  splitter_error env (clock w) chunk_size chunk_overlap = None ->
  let workers := py_or max_workers (Z.min 4 (Z.of_nat (length docs) / 5)) in
  let batch_size := Z.max 1 (Z.of_nat (length docs) / workers) in
  let batches :=
    map (fun i => slice docs i (i + batch_size))
      (map (fun j => (j * batch_size)%Z)
         (range ((Z.of_nat (length docs) + batch_size - 1) / batch_size))) in
  exists w',
    get_splits env docs chunk_size chunk_overlap max_workers w
    = (Return
         (concat
            (imap (fun i batch =>
                     match split_documents env (Datatypes.S (clock w) + i) chunk_size
                             chunk_overlap batch with
                     | Return r => r
                     | Raise _ => []
                     end) batches)), w').
Proof.
  intros Hlen Hworkers Hsplitter workers batch_size batches.
  destruct (get_splits_pool docs max_workers Hlen Hworkers) as [Hpool Hbatch].
  fold workers in Hpool, Hbatch. fold batch_size in Hbatch.
  unfold get_splits.
  destruct docs as [|doc0 docs0]; [simpl in Hlen; lia |].
  revert Hlen workers batch_size batches Hpool Hbatch.
  generalize (doc0 :: docs0). clear doc0 docs0.
  intros docs Hlen workers batch_size batches Hpool Hbatch.
  unfold bind at 1, new_splitter, bind at 1, tick. rewrite Hsplitter. unfold option_raise, ret at 1.
  destruct (Nat.leb_spec (length docs) 10) as [|_]; [lia |].
  fold workers. fold batch_size.
  unfold bind at 1, ThreadPoolExecutor.
  destruct (Z.leb_spec workers 0) as [|_]; [lia |]. unfold ret at 1.
  unfold bind at 1, of_result, range_step.
  destruct (Z.eqb_spec batch_size 0) as [|_]; [lia |].
  destruct (Z.ltb_spec batch_size 0) as [|_]; [lia |].
  fold batches.
  unfold bind at 1.
  rewrite (submit_batches (fun t => split_documents env t chunk_size chunk_overlap))
    by reflexivity.
  cbn [app clock fs stdout calls].
  unfold bind at 1, completed, bind at 1, tick, ret at 1.
  cbn [clock fs stdout calls].
  unfold bind at 1.
  match goal with
  | |- context [for_each ?done ?acc _ ?w1] =>
      destruct (collect_batches done acc w1) as (w' & -> & _)
  end.
  exists w'. unfold ret. do 3 f_equal.
  rewrite foldl_omap.
  apply list_eq. intros i.
  rewrite list_lookup_fmap.
  rewrite (foldl_insert_lookup
             (fun future : result (list Document) =>
                Some (match future with Return r => r | Raise _ => [] end)))
    by (by rewrite length_replicate, length_imap).
  rewrite !list_lookup_imap, length_imap.
  destruct (decide (i ∈ as_completed _ (length batches))) as [Hin|Hnin].
  - destruct (batches !! i); reflexivity.
  - rewrite elem_of_as_completed in Hnin.
    assert (batches !! i = None) as -> by (apply lookup_ge_None; lia).
    match goal with
    | |- context [replicate ?n ?x !! i] =>
        assert (replicate n x !! i = None) as -> by (apply lookup_replicate_None; lia)
    end.
    reflexivity.
Qed.

End Splitting.

(** X9. A splitter that raises is handled in two ways.  For ten documents
    or fewer the exception leaves [get_splits]; for more than ten (and a
    pool size that is unset, zero or positive) every failed batch is
    printed and dropped, so that [get_splits] returns the empty list
    without raising. *)
Theorem get_splits_failure env docs chunk_size chunk_overlap max_workers w e :
  splitter_error env (clock w) chunk_size chunk_overlap = None ->
  (forall t documents, split_documents env t chunk_size chunk_overlap documents = Raise e) ->
  (docs <> [] -> (length docs <= 10)%nat ->
   exists w', get_splits env docs chunk_size chunk_overlap max_workers w = (Raise e, w'))
  /\ ((10 < length docs)%nat -> unset_or_positive max_workers ->
      exists w', get_splits env docs chunk_size chunk_overlap max_workers w = (Return [], w')).
Proof.
  intros Hsplitter Hfail. split.
  - intros Hdocs Hlen. unfold get_splits.
    destruct docs as [|doc0 docs0]; [contradiction |].
    unfold bind at 1, new_splitter, bind at 1, tick. rewrite Hsplitter.
    unfold option_raise, ret at 1.
    destruct (Nat.leb_spec (length (doc0 :: docs0)) 10) as [_|]; [| lia].
    rewrite splitter_split_documents_run, Hfail. by eexists.
  - intros Hlen Hworkers.
    destruct (get_splits_parallel env chunk_size chunk_overlap docs max_workers w
                Hlen Hworkers Hsplitter) as (w' & ->).
    exists w'. do 2 f_equal.
    match goal with |- concat (imap _ ?batches) = _ => generalize batches end.
    intros batches. generalize (Datatypes.S (clock w)). 
    induction batches as [|batch batches IH]; intros t; [reflexivity |].
    cbn [imap concat]. rewrite Hfail. cbn [app].
    etransitivity; [| apply (IH (Datatypes.S t))].
    f_equal. apply imap_ext. intros i x _. simpl. by rewrite !Hfail.
Qed.

(** Twelve documents and a splitter that always fails: no chunk and no
    exception. *)
Lemma get_splits_failure_witness :
  exists w',
    get_splits
      (lab_env (fun _ => None) flaky_vision
         (fun _ => Raise (Exception "Tokenizer not found")) (fun _ step => step))
      twelve_pages 300 100 None empty_world
    = (Return [], w').
Proof.
  destruct (get_splits_failure
              (lab_env (fun _ => None) flaky_vision
                 (fun _ => Raise (Exception "Tokenizer not found")) (fun _ step => step))
              twelve_pages 300 100 None empty_world (Exception "Tokenizer not found"))
    as [_ Hlarge].
  - reflexivity.
  - intros t documents. reflexivity.
  - apply Hlarge.
    + vm_compute. lia.
    + intros n Hn. discriminate.
Defined.

(** X10. Batching is invisible when the splitter works document by
    document: whatever the number of documents, the pool size and the
    order of completion, [get_splits] returns the chunks of the documents
    in the order of the documents, as the sequential path does. *)
Theorem get_splits_batching_transparent env (f : Document -> list Document) docs
    chunk_size chunk_overlap max_workers w :
  (forall t documents,
     split_documents env t chunk_size chunk_overlap documents = Return (documents ≫= f)) ->
  splitter_error env (clock w) chunk_size chunk_overlap = None ->
  unset_or_positive max_workers ->
  exists w',
    get_splits env docs chunk_size chunk_overlap max_workers w = (Return (docs ≫= f), w').
Proof.
  intros Hsplit Hsplitter Hworkers.
  destruct (Nat.leb_spec (length docs) 10) as [Hsmall|Hlarge].
  - unfold get_splits. destruct docs as [|doc0 docs0]; [by exists w |].
    unfold bind at 1, new_splitter, bind at 1, tick. rewrite Hsplitter.
    unfold option_raise, ret at 1.
    destruct (Nat.leb_spec (length (doc0 :: docs0)) 10) as [_|]; [| lia].
    rewrite splitter_split_documents_run, Hsplit. by eexists.
  - destruct (get_splits_parallel env chunk_size chunk_overlap docs max_workers w
                Hlarge Hworkers Hsplitter) as (w' & ->).
    exists w'. do 2 f_equal.
    destruct (get_splits_pool docs max_workers Hlarge Hworkers) as [_ Hbatch].
    cbn zeta in Hbatch.
    symmetry.
    etransitivity;
      [apply (f_equal (fun l => l ≫= f)); symmetry; apply (concat_batches docs _ Hbatch) |].
    rewrite bind_concat. f_equal.
    rewrite <- imap_const. apply imap_ext. intros i batch _. by rewrite Hsplit.
Qed.

(** Twelve documents, three workers, a pool that completes its tasks in
    another order than it got them, and a splitter that cuts every document
    in two. *)
Lemma get_splits_batching_transparent_witness :
  exists w',
    get_splits
      (lab_env (fun _ => None) flaky_vision
         (fun documents => Return (documents ≫= fun d => [d; d]))
         (fun _ step => Datatypes.S step))
      twelve_pages 300 100 (Some 3%Z) empty_world
    = (Return (twelve_pages ≫= fun d => [d; d]), w').
Proof.
  apply (get_splits_batching_transparent
           (lab_env (fun _ => None) flaky_vision
              (fun documents => Return (documents ≫= fun d => [d; d]))
              (fun _ step => Datatypes.S step))
           (fun d => [d; d]) twelve_pages 300 100 (Some 3%Z) empty_world).
  - intros t documents. reflexivity.
  - reflexivity.
  - intros n [= <-]. lia.
Defined.

(** ** utils/rag.py: [process_docs] as a whole *)

(** X11. [process_docs] raises exactly when one of its two [os.makedirs]
    raises, with that exception; nothing that happens later (staging,
    loading, splitting, the index write, the clean-up) can make it raise.
    When it raises, no collaborator was called and the list and the
    indexes are as they were. *)
Theorem process_docs_raises_only_from_makedirs cfg env session_id uploaded_files
    processed_files existing_db max_workers embedding_batch_size chunk_size chunk_overlap
    s0 e s' :
  (process_docs cfg env session_id uploaded_files processed_files existing_db
     max_workers embedding_batch_size chunk_size chunk_overlap s0 = (Raise e, s')
   <-> set_up cfg env session_id uploaded_files (workers_of cfg env max_workers)
         (py_or embedding_batch_size (EMBEDDING_BATCH_SIZE cfg))
         (py_or chunk_size (CHUNK_SIZE cfg)) s0 = (Raise e, s'))
  /\ (process_docs cfg env session_id uploaded_files processed_files existing_db
        max_workers embedding_batch_size chunk_size chunk_overlap s0 = (Raise e, s') ->
      calls s'.1 = calls s0.1 /\ s'.2 = s0.2).
Proof.
  assert (Hiff :
    process_docs cfg env session_id uploaded_files processed_files existing_db
      max_workers embedding_batch_size chunk_size chunk_overlap s0 = (Raise e, s')
    <-> set_up cfg env session_id uploaded_files (workers_of cfg env max_workers)
          (py_or embedding_batch_size (EMBEDDING_BATCH_SIZE cfg))
          (py_or chunk_size (CHUNK_SIZE cfg)) s0 = (Raise e, s')).
  { destruct (set_up cfg env session_id uploaded_files (workers_of cfg env max_workers)
                (py_or embedding_batch_size (EMBEDDING_BATCH_SIZE cfg))
                (py_or chunk_size (CHUNK_SIZE cfg)) s0) as [[[]|e1] s1] eqn:Hset.
    2: { unfold process_docs. cbv zeta. unfold bind at 1. rewrite Hset.
         split; intros [= -> ->]; reflexivity. }
    rewrite (process_docs_after_set_up _ _ _ _ _ _ _ _ _ _ s0 s1 Hset).
    unfold try_finally.
    match goal with
    | |- context [try_except ?m ?h s1] =>
        destruct (guarded_ingest_returns cfg env session_id uploaded_files processed_files
                    existing_db (workers_of cfg env max_workers)
                    (py_or embedding_batch_size (EMBEDDING_BATCH_SIZE cfg))
                    (py_or chunk_size (CHUNK_SIZE cfg))
                    (py_or chunk_overlap (CHUNK_OVERLAP cfg)) s1) as (x & s2 & ->)
    end.
    destruct (clean_up_returns env session_id s2) as [s3 ->].
    split; discriminate. }
  split; [exact Hiff |].
  intros Hrun. apply Hiff in Hrun. eapply set_up_frame, Hrun.
Qed.

(** The session directory cannot be made. *)
Lemma process_docs_raises_only_from_makedirs_witness :
  let env :=
    lab_env (fun path =>
               if String.eqb path "data" then None else Some (Exception "Permission denied"))
      flaky_vision Return (fun _ step => step) in
  let run :=
    process_docs default_config env "s1" [upload "a.pdf"] 1 (Some 2%positive)
      None None None None (empty_world, session_heap) in
  run.1 = Raise (Exception "Permission denied")
  /\ calls run.2.1 = [] /\ run.2.2 = session_heap.
Proof.
  intros env run.
  assert (Hrun : run = (Raise (Exception "Permission denied"), run.2))
    by (vm_compute; reflexivity).
  split; [by rewrite Hrun |].
  apply (process_docs_raises_only_from_makedirs default_config env "s1" [upload "a.pdf"] 1
           (Some 2%positive) None None None None (empty_world, session_heap)
           (Exception "Permission denied") run.2).
  exact Hrun.
Defined.

Section Growth.
Variable cfg : RAGConfig.
Variable env : Env.

(** The index write never removes or shortens an index. *)
Lemma write_index_grows existing_db splits max_workers batch_size w h r w' h' :
  write_index cfg env existing_db splits max_workers batch_size (w, h) = (r, (w', h')) ->
  forall db old, chroma h !! db = Some old ->
    exists more, chroma h' !! db = Some (old ++ more).
Proof.
  assert (Hget : forall mw bs w1 h1 r1 w2 h2,
             get_db cfg env splits mw bs (w1, h1) = (r1, (w2, h2)) ->
             forall db old, chroma h1 !! db = Some old -> chroma h2 !! db = Some old).
  { intros mw bs w1 h1 r1 w2 h2 Hrun db old Hold.
    destruct (decide (splits = [])) as [-> | Hsplits].
    - injection Hrun as _ _ <-. exact Hold.
    - destruct (get_db_run cfg env splits mw bs w1 h1 Hsplits)
        as (db' & w3 & h3 & Hrun' & _ & _ & _ & _ & Hdb).
      rewrite Hrun' in Hrun. injection Hrun as _ _ <-.
      destruct (from_documents env (clock w1) splits).
      + destruct Hdb as (_ & -> & _). exact Hold.
      + destruct Hdb as (_ & -> & _).
        rewrite lookup_insert_ne; [exact Hold |].
        intros Hfresh. apply (is_fresh (dom (chroma h1))). rewrite Hfresh.
        apply elem_of_dom. by eexists. }
  intros Hrun db old Hold.
  destruct existing_db as [existing|].
  - unfold write_index, try_except in Hrun.
    unfold Chroma_add_documents, lift, bind, ret, raise, tick, record, print,
      get_heap, set_chroma in Hrun. cbn -[get_db] in Hrun.
    assert (Halter : forall n,
               exists more,
                 alter (fun stored => stored ++ take n splits) existing (chroma h) !! db
                 = Some (old ++ more)).
    { intros n. destruct (decide (existing = db)) as [-> | Hne].
      - rewrite lookup_alter_eq, Hold. by eexists.
      - rewrite lookup_alter_ne by assumption. exists []. by rewrite app_nil_r. }
    destruct (add_documents env (clock w) existing splits) as [|e n]; cbn -[get_db] in Hrun.
    + injection Hrun as _ _ <-. cbn [chroma].
      destruct (Halter (length splits)) as [more Hmore].
      rewrite firstn_all in Hmore. by exists more.
    + destruct (Halter n) as [more Hmore].
      exists more. eapply Hget; [exact Hrun | exact Hmore].
  - exists []. rewrite app_nil_r. eapply Hget; [exact Hrun | exact Hold].
Qed.

End Growth.

(** X12. Whatever happens in a call of [process_docs], the list of
    processed names and the indexes only grow: every list keeps its old
    contents as a prefix, only the list passed as [processed_files] can get
    new names, and every index that existed keeps its old chunks as a
    prefix.  Nothing is ever removed or reordered. *)
Theorem process_docs_only_grows cfg env session_id uploaded_files processed_files
    existing_db max_workers embedding_batch_size chunk_size chunk_overlap s0 r s' :
  process_docs cfg env session_id uploaded_files processed_files existing_db
    max_workers embedding_batch_size chunk_size chunk_overlap s0 = (r, s') ->
  (forall l names, lists s0.2 !! l = Some names ->
     exists more, lists s'.2 !! l = Some (names ++ more)
                  /\ (l <> processed_files -> more = []))
  /\ (forall db old, chroma s0.2 !! db = Some old ->
        exists more, chroma s'.2 !! db = Some (old ++ more)).
Proof.
  intros Hrun.
  assert (Hsame : s'.2 = s0.2 ->
            (forall l names, lists s0.2 !! l = Some names ->
               exists more, lists s'.2 !! l = Some (names ++ more)
                            /\ (l <> processed_files -> more = []))
            /\ (forall db old, chroma s0.2 !! db = Some old ->
                  exists more, chroma s'.2 !! db = Some (old ++ more))).
  { intros ->. split; intros k old Hold; exists []; rewrite app_nil_r; by try split. }
  unfold process_docs in Hrun. cbv zeta in Hrun. unfold bind at 1 in Hrun.
  destruct (set_up _ _ _ _ _ _ _ s0) as [[[]|e] s1] eqn:Hset.
  2: { injection Hrun as _ <-. apply Hsame. eapply set_up_frame, Hset. }
  destruct (set_up_frame _ _ _ _ _ _ _ _ _ _ Hset) as [_ Hheap1].
  unfold try_finally, try_except, ingest in Hrun. unfold bind at 1 in Hrun.
  destruct (prepare_splits _ _ _ _ _ _ _ _ s1) as [[stage|e] s2] eqn:Hprep.
  - destruct (prepare_splits_frame _ _ _ _ _ _ _ _ _ _ _ Hprep) as [_ Hheap2].
    destruct stage as [| | |new_processed splits].
    1-3: destruct (clean_up_run env session_id s2) as (w' & Hclean & _);
      unfold ret in Hrun; rewrite Hclean in Hrun; injection Hrun as _ <-;
      apply Hsame; simpl; by rewrite Hheap2, Hheap1.
    destruct s2 as [w2 h2]. simpl in Hheap2.
    unfold commit in Hrun. unfold bind at 1 in Hrun.
    destruct (write_index cfg env existing_db splits _ _ (w2, h2)) as [rw [w3 h3]] eqn:Hwrite.
    pose proof (write_index_grows cfg env _ _ _ _ _ _ _ _ _ Hwrite) as Hgrows.
    destruct (write_index_run cfg env existing_db splits (workers_of cfg env max_workers)
                (py_or embedding_batch_size (EMBEDDING_BATCH_SIZE cfg)) w2 h2)
      as (db & w3' & h3' & Hwrite' & Hlists3 & _).
    rewrite Hwrite' in Hwrite. injection Hwrite as <- <- <-.
    unfold list_extend, lift, bind, ret, tick, print, get_heap, set_lists in Hrun.
    simpl in Hrun.
    match type of Hrun with
    | context [clean_up env session_id ?s] =>
        destruct (clean_up_run env session_id s) as (w' & Hclean & _)
    end.
    rewrite Hclean in Hrun. injection Hrun as _ <-. simpl.
    rewrite Hlists3, Hheap2, Hheap1. split.
    + intros l names Hnames. destruct (decide (l = processed_files)) as [-> | Hne].
      * rewrite lookup_alter_eq, Hnames. exists new_processed. by split.
      * rewrite lookup_alter_ne by congruence. exists []. rewrite app_nil_r. by split.
    + intros k old Hold. apply Hgrows. by rewrite Hheap2, Hheap1.
  - destruct (prepare_splits_frame _ _ _ _ _ _ _ _ _ _ _ Hprep) as [_ Hheap2].
    destruct s2 as [w2 h2]. unfold lift, bind, print, ret in Hrun. simpl in Hrun.
    match type of Hrun with
    | context [clean_up env session_id ?s] =>
        destruct (clean_up_run env session_id s) as (w' & Hclean & _)
    end.
    rewrite Hclean in Hrun. injection Hrun as _ <-.
    apply Hsame. simpl in *. by rewrite Hheap2, Hheap1.
Qed.

(** An upsert: the list and the index of the session keep what they had. *)
Lemma process_docs_only_grows_witness :
  let run :=
    process_docs default_config (example_env None None page None Upserted)
      "s1" [upload "a.pdf"] 1 (Some 2%positive) None None None None
      (empty_world, session_heap) in
  (forall l names, lists session_heap !! l = Some names ->
     exists more, lists run.2.2 !! l = Some (names ++ more)
                  /\ (l <> 1%positive -> more = []))
  /\ (forall db old, chroma session_heap !! db = Some old ->
        exists more, chroma run.2.2 !! db = Some (old ++ more)).
Proof.
  intros run.
  apply (process_docs_only_grows default_config (example_env None None page None Upserted)
           "s1" [upload "a.pdf"] 1 (Some 2%positive) None None None None
           (empty_world, session_heap) run.1 run.2).
  apply surjective_pairing.
Defined.

(** X13. The first ingestion of a session (no index yet): once chunks are
    in hand, the call makes exactly one index write, commits the new names
    and returns.  When [Chroma.from_documents] succeeds the result is a
    new index that holds exactly the chunks and the other indexes are
    untouched; when it raises, the error is printed, the result is [None]
    and the names are committed all the same. *)
Theorem process_docs_creates_index cfg env session_id uploaded_files processed_files
    max_workers embedding_batch_size chunk_size chunk_overlap
    s0 s1 new_processed splits s2 processed :
  let workers := workers_of cfg env max_workers in
  let batch := py_or embedding_batch_size (EMBEDDING_BATCH_SIZE cfg) in
  let size := py_or chunk_size (CHUNK_SIZE cfg) in
  let overlap := py_or chunk_overlap (CHUNK_OVERLAP cfg) in
  set_up cfg env session_id uploaded_files workers batch size s0 = (Return tt, s1) ->
  prepare_splits cfg env session_id uploaded_files processed_files
    workers size overlap s1 = (Return (Ready new_processed splits), s2) ->
  lists s0.2 !! processed_files = Some processed ->
  exists db w' h',
    process_docs cfg env session_id uploaded_files processed_files None
      max_workers embedding_batch_size chunk_size chunk_overlap s0
    = (Return (db, processed_files), (w', h'))
    /\ lists h' !! processed_files = Some (processed ++ new_processed)
    /\ index_writes (calls w') = index_writes (calls s0.1) ++ [FromDocuments (length splits)]
    /\ match from_documents env (clock s2.1) splits with
       | None =>
           exists new_db,
             db = Some new_db /\ chroma s0.2 !! new_db = None
             /\ chroma h' = <[new_db := splits]> (chroma s0.2)
       | Some e =>
           db = None /\ chroma h' = chroma s0.2
           /\ "Error creating database: " +:+ str e ∈ stdout w'
       end.
Proof.
  intros workers batch size overlap Hset Hprep Hlist.
  rewrite (process_docs_after_set_up _ _ _ _ _ _ _ _ _ _ s0 s1 Hset).
  fold workers batch size overlap.
  destruct (set_up_frame _ _ _ _ _ _ _ _ _ _ Hset) as [Hcalls1 Hheap1].
  destruct (prepare_splits_frame _ _ _ _ _ _ _ _ _ _ _ Hprep) as [Hwrites2 Hheap2].
  pose proof (prepare_splits_Ready _ _ _ _ _ _ _ _ _ _ _ _ Hprep) as Hsplits.
  unfold try_finally, try_except, ingest. unfold bind at 1. rewrite Hprep.
  destruct s2 as [w2 h2]. simpl in Hheap2, Hwrites2.
  unfold commit. unfold bind at 1. unfold write_index.
  destruct (get_db_run cfg env splits (Some workers) (Some batch) w2 h2 Hsplits)
    as (db & w3 & h3 & -> & Hcalls3 & _ & _ & Hlists3 & Hdb).
  unfold list_extend, lift, bind, ret, tick, print, get_heap, set_lists. simpl.
  match goal with
  | |- context [clean_up env session_id ?s] =>
      destruct (clean_up_run env session_id s) as (w' & -> & Hcalls' & Hout)
  end.
  simpl in Hout, Hcalls'.
  eexists db, w', _. split; [reflexivity |]. simpl. split; [| split].
  - rewrite Hlists3, lookup_alter_eq, Hheap2, Hheap1, Hlist. reflexivity.
  - rewrite Hcalls', Hcalls3. unfold index_writes in *.
    rewrite filter_app, Hwrites2, Hcalls1. reflexivity.
  - rewrite <- Hheap1, <- Hheap2.
    destruct (from_documents env (clock w2) splits) as [e|].
    + destruct Hdb as (-> & -> & Hprinted). split; [reflexivity |]. split; [reflexivity |].
      eapply elem_of_prefix; [| exact Hout].
      apply elem_of_app. left. apply elem_of_app. left.
      rewrite Hprinted. apply elem_of_app. right. by left.
    + destruct Hdb as (-> & -> & _). eexists. split; [reflexivity |]. split; [| reflexivity].
      apply not_elem_of_dom, is_fresh.
Qed.

(** The first file of a session. *)
Lemma process_docs_creates_index_witness :
  exists db w' h',
    process_docs default_config (example_env None None page None Upserted)
      "s1" [upload "a.pdf"] 1 None None None None None (empty_world, session_heap)
    = (Return (db, 1%positive), (w', h'))
    /\ lists h' !! 1%positive = Some (["old.pdf"] ++ ["a.pdf"])
    /\ index_writes (calls w') = [] ++ [FromDocuments 1]
    /\ exists new_db,
         db = Some new_db /\ chroma session_heap !! new_db = None
         /\ chroma h' = <[new_db := page]> (chroma session_heap).
Proof.
  eapply (process_docs_creates_index default_config
            (example_env None None page None Upserted)
            "s1" [upload "a.pdf"] 1 None None None None
            (empty_world, session_heap) _ ["a.pdf"] page _ ["old.pdf"]).
  - vm_compute. reflexivity.
  - vm_compute. reflexivity.
  - reflexivity.
Defined.

(** X14. An update of a session's index that succeeds: the call makes
    exactly one index write, the upsert; it returns the very index it was
    given, which now holds its old chunks followed by the new ones; the
    other indexes are untouched and the new names are committed. *)
Theorem process_docs_upserts cfg env session_id uploaded_files processed_files
    existing max_workers embedding_batch_size chunk_size chunk_overlap
    s0 s1 new_processed splits s2 processed old :
  let workers := workers_of cfg env max_workers in
  let batch := py_or embedding_batch_size (EMBEDDING_BATCH_SIZE cfg) in
  let size := py_or chunk_size (CHUNK_SIZE cfg) in
  let overlap := py_or chunk_overlap (CHUNK_OVERLAP cfg) in
  set_up cfg env session_id uploaded_files workers batch size s0 = (Return tt, s1) ->
  prepare_splits cfg env session_id uploaded_files processed_files
    workers size overlap s1 = (Return (Ready new_processed splits), s2) ->
  lists s0.2 !! processed_files = Some processed ->
  chroma s0.2 !! existing = Some old ->
  add_documents env (clock s2.1) existing splits = Upserted ->
  exists w' h',
    process_docs cfg env session_id uploaded_files processed_files (Some existing)
      max_workers embedding_batch_size chunk_size chunk_overlap s0
    = (Return (Some existing, processed_files), (w', h'))
    /\ lists h' !! processed_files = Some (processed ++ new_processed)
    /\ chroma h' = <[existing := old ++ splits]> (chroma s0.2)
    /\ index_writes (calls w')
       = index_writes (calls s0.1) ++ [AddDocuments existing (length splits)].
Proof.
  intros workers batch size overlap Hset Hprep Hlist Hold Hadd.
  rewrite (process_docs_after_set_up _ _ _ _ _ _ _ _ _ _ s0 s1 Hset).
  fold workers batch size overlap.
  destruct (set_up_frame _ _ _ _ _ _ _ _ _ _ Hset) as [Hcalls1 Hheap1].
  destruct (prepare_splits_frame _ _ _ _ _ _ _ _ _ _ _ Hprep) as [Hwrites2 Hheap2].
  unfold try_finally, try_except, ingest. unfold bind at 1. rewrite Hprep.
  destruct s2 as [w2 h2]. simpl in Hheap2, Hwrites2, Hadd.
  unfold commit. unfold bind at 1. unfold write_index, try_except.
  unfold Chroma_add_documents, list_extend, lift, bind, ret, raise, tick, record, print,
    get_heap, set_chroma, set_lists. simpl.
  rewrite Hadd. simpl.
  match goal with
  | |- context [clean_up env session_id ?s] =>
      destruct (clean_up_run env session_id s) as (w' & -> & Hcalls' & _)
  end.
  simpl in Hcalls'.
  eexists w', _. split; [reflexivity |]. simpl. split; [| split].
  - rewrite lookup_alter_eq, Hheap2, Hheap1, Hlist. reflexivity.
  - rewrite Hheap2, Hheap1. apply map_eq. intros db.
    destruct (decide (db = existing)) as [-> | Hne].
    + by rewrite lookup_alter_eq, lookup_insert_eq, Hold.
    + by rewrite lookup_alter_ne, lookup_insert_ne by congruence.
  - rewrite Hcalls'. unfold index_writes in *.
    rewrite filter_app, Hwrites2, Hcalls1. reflexivity.
Qed.

(** A second file of a session. *)
Lemma process_docs_upserts_witness :
  exists w' h',
    process_docs default_config (example_env None None page None Upserted)
      "s1" [upload "a.pdf"] 1 (Some 2%positive) None None None None
      (empty_world, session_heap)
    = (Return (Some 2%positive, 1%positive), (w', h'))
    /\ lists h' !! 1%positive = Some (["old.pdf"] ++ ["a.pdf"])
    /\ chroma h' = <[2%positive := [doc "An old chunk."] ++ page]> (chroma session_heap)
    /\ index_writes (calls w') = [] ++ [AddDocuments 2 1].
Proof.
  eapply (process_docs_upserts default_config (example_env None None page None Upserted)
            "s1" [upload "a.pdf"] 1 2 None None None None
            (empty_world, session_heap) _ ["a.pdf"] page _ ["old.pdf"]
            [doc "An old chunk."]).
  - vm_compute. reflexivity.
  - vm_compute. reflexivity.
  - reflexivity.
  - reflexivity.
  - reflexivity.
Defined.





(** ** app/pages/chat.py: the rest of [RAGChatbot] *)

(** X16. [enhance_query] returns the query itself first, followed by at
    most two variants; the list is never empty, so that the division by
    its length in [retrieve_enhanced_context] cannot fail. *)
Theorem enhance_query_shape query :
  exists variants,
    enhance_query query = query :: variants /\ (length variants <= 2)%nat.
Proof.
  unfold enhance_query.
  destruct (startswith_any _ _); [destruct (List.tl (split query)) as [|term terms] |];
    destruct (_ || _); cbn [app]; eexists; (split; [reflexivity | simpl; lia]).
Qed.

(** "Remove duplicates while preserving order": the loop keeps the first
    occurrence of each context. *)
Lemma unique_step_invariant all_contexts : forall seen unique_contexts,
  (forall x, x ∈ seen <-> x ∈ unique_contexts) ->
  NoDup unique_contexts ->
  let result := (foldl unique_step (seen, unique_contexts) all_contexts).2 in
  NoDup result
  /\ (forall x, x ∈ result <-> x ∈ unique_contexts \/ x ∈ all_contexts).
Proof.
  induction all_contexts as [|context all_contexts IH]; intros seen unique_contexts Hseen Hnodup.
  - cbv zeta. simpl. split; [exact Hnodup |]. intros x. rewrite elem_of_nil. tauto.
  - cbn [foldl]. cbv zeta.
    replace (unique_step (seen, unique_contexts) context)
      with (if decide (context ∈ seen) then (seen, unique_contexts)
            else ({[context]} ∪ seen, unique_contexts ++ [context])) by reflexivity.
    cbv zeta in IH.
    destruct (decide (context ∈ seen)) as [Hin|Hnin].
    + destruct (IH seen unique_contexts Hseen Hnodup) as [Hnd Hmem].
      split; [exact Hnd |]. intros x. rewrite Hmem, elem_of_cons.
      split; [tauto |]. intros [? | [-> | ?]]; [tauto | | tauto].
      left. by apply Hseen.
    + destruct (IH ({[context]} ∪ seen) (unique_contexts ++ [context])) as [Hnd Hmem].
      * intros x. rewrite elem_of_union, elem_of_singleton, elem_of_app,
          list_elem_of_singleton, Hseen. tauto.
      * apply NoDup_app. split; [exact Hnodup |]. split; [| apply NoDup_singleton].
        intros x Hx ->%list_elem_of_singleton. apply Hnin. by apply Hseen.
      * split; [exact Hnd |]. intros x.
        rewrite Hmem, elem_of_app, list_elem_of_singleton, elem_of_cons. tauto.
Qed.

Lemma unique_NoDup all_contexts :
  NoDup (unique all_contexts) /\ (forall x, x ∈ unique all_contexts <-> x ∈ all_contexts).
Proof.
  destruct (unique_step_invariant all_contexts ∅ []) as [Hnd Hmem].
  - intros x. rewrite elem_of_empty, elem_of_nil. tauto.
  - apply NoDup_nil_2.
  - split; [exact Hnd |]. intros x. unfold unique. rewrite Hmem, elem_of_nil. tauto.
Qed.

Lemma upto_sublist {A} (l : list A) k : upto l k `sublist_of` l.
Proof. unfold upto. destruct (k <? 0)%Z; apply sublist_take. Qed.

Lemma upto_length {A} (l : list A) k : (0 <= k)%Z -> (length (upto l k) <= Z.to_nat k)%nat.
Proof.
  intros Hk. unfold upto. destruct (Z.ltb_spec k 0); [lia |]. rewrite length_take. lia.
Qed.

Section ChatbotFacts.
Context {DB : Type} `{VectorStore DB}.

(** The loop over the variants concatenates what each retrieval gives. *)
Lemma retrieve_variants_contexts (database : option DB) enhanced_queries k :
  (retrieve_variants database enhanced_queries k).1
  = enhanced_queries ≫= fun enhanced_query => (retrieve_context database enhanced_query k).1.
Proof.
  unfold retrieve_variants.
  transitivity
    ([] ++ (enhanced_queries ≫= fun enhanced_query =>
              (retrieve_context database enhanced_query k).1)); [| reflexivity].
  generalize (@nil string) at 1 3. generalize (@nil string).
  induction enhanced_queries as [|q qs IH]; intros errors all_contexts.
  - simpl. by rewrite app_nil_r.
  - cbn [foldl mbind list_bind].
    destruct (retrieve_context database q k) as [contexts shown] eqn:Hq.
    rewrite IH. cbn [fst]. by rewrite app_assoc.
Qed.

Lemma generate_response_returns post history query context :
  exists answer, generate_response post history query context = Return answer.
Proof.
  unfold generate_response.
  destruct (post _) as [response|e].
  - destruct (status_code response =? 200)%Z; [| by eexists].
    destruct (json_response response) as [answer|e]; [by eexists |].
    destruct e; by eexists.
  - destruct e; by eexists.
Qed.

Lemma retrieve_enhanced_context_run (database : option DB) query k :
  exists contexts errors,
    retrieve_enhanced_context database query k = Return (contexts, errors)
    /\ NoDup contexts
    /\ ((0 <= k)%Z -> (length contexts <= Z.to_nat k)%nat)
    /\ (forall context, context ∈ contexts ->
          exists variant,
            variant ∈ enhance_query query
            /\ context
               ∈ (retrieve_context database variant
                    (k / Z.of_nat (length (enhance_query query)) + 1)).1)
    /\ (database = None -> contexts = [] /\ errors = []).
Proof.
  unfold retrieve_enhanced_context.
  destruct database as [db|].
  2: { exists [], []. split; [reflexivity |]. split; [apply NoDup_nil_2 |].
       split; [simpl; lia |]. split; [| done].
       intros context Hc. by apply elem_of_nil in Hc. }
  destruct (enhance_query_shape query) as (variants & Hshape & _).
  destruct (enhance_query query) as [|q qs] eqn:Hq; [discriminate |].
  rewrite <- Hq.
  pose proof (retrieve_variants_contexts (Some db) (enhance_query query)
                (k / Z.of_nat (length (enhance_query query)) + 1)) as Hcontexts.
  destruct (retrieve_variants _ _ _) as [all_contexts errors].
  cbn [fst] in Hcontexts.
  exists (upto (unique all_contexts) k), errors. split; [reflexivity |].
  destruct (unique_NoDup all_contexts) as [Hnd Hmem].
  split; [exact (sublist_NoDup _ _ Hnd (upto_sublist _ _)) |].
  split; [apply upto_length |]. split; [| discriminate].
  intros context Hc.
  eapply elem_of_sublist in Hc; [| apply upto_sublist].
  apply Hmem in Hc. rewrite Hcontexts in Hc.
  apply list_elem_of_bind in Hc as (variant & Hc & Hvariant). by exists variant.
Qed.

End ChatbotFacts.

(** X17. [retrieve_enhanced_context] never raises.  Its chunks are
    pairwise distinct, there are at most [k] of them for [k >= 0], each was
    retrieved for the query or one of its variants, and without a database
    there is none. *)
Theorem retrieve_enhanced_context_distinct {DB} `{VectorStore DB} (database : option DB)
    query k :
  exists contexts errors,
    retrieve_enhanced_context database query k = Return (contexts, errors)
    /\ NoDup contexts
    /\ ((0 <= k)%Z -> (length contexts <= Z.to_nat k)%nat)
    /\ (forall context, context ∈ contexts ->
          exists variant,
            variant ∈ enhance_query query
            /\ context
               ∈ (retrieve_context database variant
                    (k / Z.of_nat (length (enhance_query query)) + 1)).1)
    /\ (database = None -> contexts = [] /\ errors = []).
Proof. apply retrieve_enhanced_context_run. Qed.

(** A question with two variants over the two far chunks. *)
Lemma retrieve_enhanced_context_distinct_witness :
  exists contexts errors,
    retrieve_enhanced_context (Some toy_store) "what is the capital of France" 5
    = Return (contexts, errors)
    /\ NoDup contexts /\ (length contexts <= 5)%nat.
Proof.
  destruct (retrieve_enhanced_context_distinct (Some toy_store)
              "what is the capital of France" 5)
    as (contexts & errors & Hrun & Hnodup & Hlen & _).
  exists contexts, errors. split; [exact Hrun |]. split; [exact Hnodup |].
  apply Hlen. lia.
Defined.

Lemma string_app_cons c s t : String c s +:+ t = String c (s +:+ t).
Proof. reflexivity. Qed.

Lemma string_length_app s t :
  String.length (s +:+ t) = (String.length s + String.length t)%nat.
Proof. induction s as [|c s IH]; [reflexivity |]. rewrite string_app_cons. simpl. by rewrite IH. Qed.

Lemma string_length_substring n : forall s, (String.length (String.substring 0 n s) <= n)%nat.
Proof.
  induction n as [|n IH]; intros [|c s]; simpl; try lia.
  specialize (IH s). lia.
Qed.

(** X18. [get_sources] never raises: a failing search gives no source and
    one message.  Otherwise there is one source per hit, in the order of
    the hits, and the preview of a source is never longer than 203
    characters. *)
Theorem get_sources_preview {DB} `{VectorStore DB} (database : option DB) query k :
  let '(found, errors) := get_sources database query k in
  (forall source, source ∈ found -> (String.length (content source) <= 203)%nat)
  /\ (forall db results,
        database = Some db -> similarity_search_with_score db query k = Return results ->
        errors = []
        /\ source_metadata <$> found = (fun hit => metadata hit.1) <$> results
        /\ relevance_score <$> found = snd <$> results)
  /\ (forall db e,
        database = Some db -> similarity_search_with_score db query k = Raise e ->
        found = [] /\ errors = ["Error getting sources: " +:+ str e]).
Proof.
  unfold get_sources. destruct database as [db|].
  2: { split; [intros source Hs; by apply elem_of_nil in Hs |]. split; discriminate. }
  destruct (similarity_search_with_score db query k) as [results|e] eqn:Hsearch.
  - split; [| split].
    + intros source (hit & -> & _)%list_elem_of_fmap. destruct hit as [document score].
      cbn [content].
      destruct (Nat.ltb_spec 200 (String.length (page_content document))).
      * rewrite string_length_app.
        pose proof (string_length_substring 200 (page_content document)). simpl. lia.
      * lia.
    + intros db' results' [= <-] Hresults. rewrite Hsearch in Hresults.
      injection Hresults as <-. split; [reflexivity |].
      split; rewrite <- list_fmap_compose; apply list_fmap_ext; by intros i [document score].
    + intros db' e [= <-] Hraise. rewrite Hsearch in Hraise. discriminate.
  - split; [intros source Hs; by apply elem_of_nil in Hs |]. split.
    + intros db' results [= <-] Hresults. rewrite Hsearch in Hresults. discriminate.
    + intros db' e' [= <-] Hraise. rewrite Hsearch in Hraise. by injection Hraise as <-.
Qed.

(** The two far chunks as sources. *)
Lemma get_sources_preview_witness :
  (get_sources (Some toy_store) "capital of France" 3).2 = []
  /\ relevance_score <$> (get_sources (Some toy_store) "capital of France" 3).1
     = [1.75%float; 2%float].
Proof.
  pose proof (get_sources_preview (Some toy_store) "capital of France" 3) as Hpreview.
  destruct (get_sources (Some toy_store) "capital of France" 3) as [found errors].
  destruct Hpreview as (_ & Hreturned & _).
  destruct (Hreturned toy_store far_entries eq_refl eq_refl) as (Herrors & _ & Hscores).
  cbn [fst snd]. split; [exact Herrors | exact Hscores].
Defined.

Lemma conversation_context_fold (recent : list Exchange) : forall acc,
  foldl (fun acc exchange =>
           acc +:+ "Human: " +:+ user exchange +:+ nl +:+ "Assistant: " +:+ bot exchange
               +:+ nl +:+ nl) acc recent
  = foldl (fun acc (turn : string * string) =>
             acc +:+ "Human: " +:+ turn.1 +:+ nl +:+ "Assistant: " +:+ turn.2
                 +:+ nl +:+ nl) acc ((fun exchange => (user exchange, bot exchange)) <$> recent).
Proof.
  induction recent as [|exchange recent IH]; intros acc; [reflexivity |].
  cbn [foldl fmap list_fmap]. apply IH.
Qed.

(** X19. The prompt is built from the query, the context and the last
    three exchanges only, and of these only from what the user and the
    bot said: two histories that agree there give the same prompt, and so
    the same request to the model. *)
Theorem build_prompt_window history history' query context :
  (fun exchange => (user exchange, bot exchange)) <$> drop (length history - 3) history
  = (fun exchange => (user exchange, bot exchange)) <$> drop (length history' - 3) history' ->
  build_prompt history query context = build_prompt history' query context
  /\ forall post,
       generate_response post history query context
       = generate_response post history' query context.
Proof.
  intros Hwindow.
  assert (Hprompt : build_prompt history query context = build_prompt history' query context).
  { unfold build_prompt. cbv zeta. rewrite !conversation_context_fold, Hwindow. reflexivity. }
  split; [exact Hprompt |]. intros post. unfold generate_response. by rewrite Hprompt.
Qed.

(** The first of four exchanges does not reach the prompt. *)
Lemma build_prompt_window_witness :
  build_prompt four_exchanges "And Rome?" [] = build_prompt (drop 1 four_exchanges) "And Rome?" [].
Proof.
  apply (build_prompt_window four_exchanges (drop 1 four_exchanges) "And Rome?" []).
  reflexivity.
Defined.

(** X20. [chat] never raises.  It appends exactly one exchange to the
    history, made of the message, the answer returned and the number of
    chunks used; the reported conversation length is the old length plus
    one, and at most seven chunks are used. *)
Theorem chat_appends_one_exchange {DB} `{VectorStore DB} post (database : option DB)
    conversation_history user_message :
  exists result errors,
    chat post database conversation_history user_message
    = Return (result,
              conversation_history
                ++ [{| user := user_message; bot := response result;
                       context_used := context_chunks result |}],
              errors)
    /\ conversation_length result = Datatypes.S (length conversation_history)
    /\ (context_chunks result <= 7)%nat
    /\ (database = None -> context_chunks result = 0%nat /\ sources result = []).
Proof.
  unfold chat.
  destruct (retrieve_enhanced_context_run database user_message 7)
    as (context & errors & -> & _ & Hlen & _ & Hnone).
  destruct (get_sources database user_message 3) as [found more_errors] eqn:Hsources.
  destruct (generate_response_returns post conversation_history user_message context)
    as [bot_response ->].
  eexists (Build_ChatResult bot_response found (length context) _), _.
  split; [reflexivity |]. cbn [conversation_length context_chunks sources].
  split; [rewrite length_app; simpl; lia |]. split; [apply Hlen; lia |].
  intros ->. destruct (Hnone eq_refl) as [-> _]. split; [reflexivity |].
  by injection Hsources as <- _.
Qed.

(** A first message without any database. *)
Lemma chat_appends_one_exchange_witness :
  exists result errors,
    chat (DB := ToyStore) (fun _ => Raise (Timeout "Read timed out.")) None [] "Hello"
    = Return (result,
              [] ++ [{| user := "Hello"; bot := response result;
                        context_used := context_chunks result |}],
              errors)
    /\ conversation_length result = 1%nat
    /\ context_chunks result = 0%nat /\ sources result = [].
Proof.
  destruct (chat_appends_one_exchange (DB := ToyStore)
              (fun _ => Raise (Timeout "Read timed out.")) None [] "Hello")
    as (result & errors & Hrun & Hlen & _ & Hnone).
  exists result, errors. split; [exact Hrun |]. split; [exact Hlen |].
  by apply Hnone.
Defined.

(** ** app/pages/app.py: which uploads pass the check *)

Lemma string_app_assoc a b c : (a +:+ b) +:+ c = a +:+ (b +:+ c).
Proof. induction a as [|x a IH]; [reflexivity |]. rewrite !string_app_cons. by rewrite IH. Qed.

Lemma lower_app a b : lower (a +:+ b) = lower a +:+ lower b.
Proof.
  induction a as [|x a IH]; [reflexivity |].
  rewrite string_app_cons. simpl. by rewrite string_app_cons, IH.
Qed.

Lemma split_char_nonempty sep s : split_char sep s <> [].
Proof.
  destruct s as [|c s]; [discriminate |]. simpl.
  destruct (Ascii.eqb c sep); [discriminate |]. by destruct (split_char sep s).
Qed.

(** A string without the separator is one field. *)
Lemma split_char_one_field sep e : has_char sep e = false -> split_char sep e = [e].
Proof.
  induction e as [|c e IH]; [reflexivity |]. simpl.
  intros [Hc He]%orb_false_elim. rewrite Hc, (IH He). reflexivity.
Qed.

(** What follows the last separator is the last field. *)
Lemma split_char_last_field sep e :
  has_char sep e = false ->
  forall stem, exists fields,
    split_char sep (stem +:+ String sep e) = fields ++ [e] /\ fields <> [].
Proof.
  intros He. induction stem as [|c stem IH].
  - exists [EmptyString]. split; [| discriminate].
    change (EmptyString +:+ String sep e) with (String sep e). simpl.
    by rewrite Ascii.eqb_refl, (split_char_one_field sep e He).
  - destruct IH as (fields & Hfields & Hne). rewrite string_app_cons. simpl. rewrite Hfields.
    destruct (Ascii.eqb c sep).
    + exists (EmptyString :: fields). by split.
    + destruct fields as [|field fields]; [contradiction |].
      exists (String c field :: fields). by split.
Qed.

(** The last field is the whole string, or what follows a separator. *)
Lemma split_char_last_item sep s :
  last_item (split_char sep s) = s
  \/ exists stem, s = stem +:+ String sep (last_item (split_char sep s)).
Proof.
  assert (Hshape :
    match split_char sep s with
    | [] => False
    | [field] => s = field
    | fields => exists stem, s = stem +:+ String sep (last_item fields)
    end).
  { induction s as [|c s IH]; [reflexivity |]. simpl.
    destruct (Ascii.eqb_spec c sep) as [-> | Hne].
    - destruct (split_char sep s) as [|field [|field' fields]]; [contradiction | |].
      + exists EmptyString. by rewrite IH.
      + destruct IH as [stem ->]. exists (String sep stem). reflexivity.
    - destruct (split_char sep s) as [|field [|field' fields]]; [contradiction | |].
      + by rewrite IH.
      + destruct IH as [stem ->]. exists (String c stem). reflexivity. }
  destruct (split_char sep s) as [|field [|field' fields]]; [contradiction | |].
  - left. by rewrite Hshape.
  - right. exact Hshape.
Qed.

Lemma substring_all s : String.substring 0 (String.length s) s = s.
Proof. induction s as [|c s IH]; [reflexivity |]. simpl. by rewrite IH. Qed.

Lemma substring_split s : forall k,
  (k <= String.length s)%nat ->
  s = String.substring 0 k s +:+ String.substring k (String.length s - k) s.
Proof.
  induction s as [|c s IH]; intros [|k] Hk; simpl in *; try lia.
  - reflexivity.
  - by rewrite substring_all.
  - rewrite string_app_cons. f_equal. apply IH. lia.
Qed.

(** [s.endswith(suffix)] holds only if [s] is something followed by
    [suffix]. *)
Lemma endswith_app s suffix : endswith s suffix = true -> exists stem, s = stem +:+ suffix.
Proof.
  unfold endswith. intros [Hlen Heq]%andb_prop.
  apply Nat.leb_le in Hlen. apply String.eqb_eq in Heq.
  set (k := (String.length s - String.length suffix)%nat) in *.
  exists (String.substring 0 k s).
  pose proof (substring_split s k ltac:(lia)) as Hsplit.
  replace (String.length s - k)%nat with (String.length suffix) in Hsplit by lia.
  by rewrite Heq in Hsplit.
Qed.

Lemma lower_ascii_dot c : Ascii.eqb (lower_ascii c) "." = Ascii.eqb c ".".
Proof. destruct c as [[] [] [] [] [] [] [] []]; reflexivity. Qed.

Lemma has_char_lower s : has_char "." (lower s) = has_char "." s.
Proof. induction s as [|c s IH]; [reflexivity |]. simpl. by rewrite lower_ascii_dot, IH. Qed.

(** The extensions of [ALLOWED_EXTENSIONS] without their dot: lower-case
    and free of dots. *)
Lemma allowed_extension e :
  "." +:+ e ∈ ALLOWED_EXTENSIONS -> has_char "." e = false /\ lower e = e.
Proof.
  change ("." +:+ e) with (String "." e). unfold ALLOWED_EXTENSIONS. intros He.
  repeat (apply elem_of_cons in He as [He | He]; [injection He as ->; by split |]).
  by apply elem_of_nil in He.
Qed.

Lemma validate_file_type_accepts_iff uploaded_file :
  validate_file_type (Some uploaded_file) = true
  <-> exists e,
        "." +:+ e ∈ ALLOWED_EXTENSIONS
        /\ (lower (name uploaded_file) = e
            \/ exists stem, lower (name uploaded_file) = stem +:+ "." +:+ e).
Proof.
  unfold validate_file_type. rewrite bool_decide_eq_true. split.
  - intros Hallowed. eexists. split; [exact Hallowed |].
    destruct (split_char_last_item "." (lower (name uploaded_file))) as [Hall | [stem Hstem]].
    + left. by rewrite Hall.
    + right. by exists stem.
  - intros (e & Hallowed & Hname).
    destruct (allowed_extension e Hallowed) as [Hdot _].
    destruct Hname as [-> | [stem ->]].
    + by rewrite (split_char_one_field "." e Hdot).
    + destruct (split_char_last_field "." e Hdot stem) as (fields & Hfields & _).
      change ("." +:+ e) with (String "." e) at 1.
      rewrite Hfields. unfold last_item. by rewrite last_last.
Qed.

(** X21. What [validate_file_type] checks: whether the extension that
    [get_file_extension] gives for the name is an allowed one.  An upload
    passes exactly when its name in lower case is an allowed extension
    without the dot, or ends with a dot followed by such an extension.  So
    the letter case of the name is ignored, and a file called [pdf],
    without any dot, passes. *)
Theorem validate_file_type_accepts uploaded_file :
  validate_file_type (Some uploaded_file)
  = bool_decide (get_file_extension (name uploaded_file) ∈ ALLOWED_EXTENSIONS)
  /\ (validate_file_type (Some uploaded_file) = true
      <-> exists e,
            "." +:+ e ∈ ALLOWED_EXTENSIONS
            /\ (lower (name uploaded_file) = e
                \/ exists stem, lower (name uploaded_file) = stem +:+ "." +:+ e)).
Proof. split; [reflexivity | apply validate_file_type_accepts_iff]. Qed.

(** A file called [pdf] passes the check. *)
Lemma validate_file_type_accepts_witness :
  validate_file_type (Some (upload "pdf")) = true.
Proof.
  destruct (validate_file_type_accepts (upload "pdf")) as [_ Haccepts].
  apply Haccepts. exists "pdf". split; [by left | by left].
Defined.


(** A name whose extension is written otherwise than in lower case ends in
    none of the lower-case suffixes. *)
Lemma endswith_other_case path stem e e0 :
  path = stem +:+ String "." e ->
  has_char "." e = false -> lower e <> e ->
  has_char "." e0 = false -> lower e0 = e0 ->
  endswith path (String "." e0) = false.
Proof.
  intros -> He Hcase He0 Hlower.
  destruct (endswith _ _) eqn:Hends; [exfalso | reflexivity].
  apply endswith_app in Hends as [stem' Hstem'].
  destruct (split_char_last_field "." e He stem) as (fields & Hfields & _).
  destruct (split_char_last_field "." e0 He0 stem') as (fields' & Hfields' & _).
  rewrite Hstem', Hfields' in Hfields.
  apply app_inj_tail in Hfields as [_ ->]. contradiction.
Qed.

(** X22. The check of the uploads ignores the letter case of the
    extension, the loaders do not.  An upload whose extension is an
    allowed one written with an upper-case letter passes
    [validate_file_type]; once staged under [data/{session_id}],
    [process_input_file] finds no loader for it: it prints
    ["Unsupported file type: ..."] and returns no document, without
    calling any collaborator. *)
Theorem upper_case_extension_not_loaded env session_id uploaded_file stem e w :
  name uploaded_file = stem +:+ "." +:+ e ->
  "." +:+ lower e ∈ ALLOWED_EXTENSIONS ->
  lower e <> e ->
  let temp_path := "data/" +:+ session_id +:+ "/" +:+ name uploaded_file in
  validate_file_type (Some uploaded_file) = true
  /\ exists w',
       process_input_file env temp_path w = (Return [], w')
       /\ calls w' = calls w
       /\ stdout w' = stdout w ++ ["Unsupported file type: " +:+ temp_path].
Proof.
  intros Hname Hallowed Hcase temp_path.
  destruct (allowed_extension _ Hallowed) as [Hdot _].
  rewrite has_char_lower in Hdot.
  split.
  - apply validate_file_type_accepts_iff. exists (lower e). split; [exact Hallowed |].
    right. exists (lower stem). rewrite Hname, !lower_app. reflexivity.
  - assert (Hpath : temp_path = ("data/" +:+ session_id +:+ "/" +:+ stem) +:+ String "." e).
    { subst temp_path. rewrite Hname. by rewrite !string_app_assoc. }
    assert (Hno : forall e0, has_char "." e0 = false -> lower e0 = e0 ->
                             endswith temp_path (String "." e0) = false).
    { intros e0. by apply (endswith_other_case temp_path _ e e0 Hpath). }
    assert (Hloader : loader_for temp_path = None).
    { unfold loader_for.
      rewrite (Hno "pdf"), (Hno "docx"), (Hno "json"), (Hno "csv"), (Hno "py"),
        (Hno "ipynb") by reflexivity.
      reflexivity. }
    assert (Himage : is_image temp_path = false).
    { unfold is_image, endswith_any, image_suffixes. cbn [existsb].
      rewrite (Hno "jpg"), (Hno "png"), (Hno "jpeg") by reflexivity. reflexivity. }
    destruct (process_input_file_run env temp_path w) as (w' & Hrun & _ & Hunsupported & _).
    destruct (Hunsupported Hloader Himage) as [(_ & Hcalls & _) Hout].
    exists w'. unfold file_documents in Hrun. rewrite Hloader, Himage in Hrun.
    by repeat split.
Qed.

(** [REPORT.PDF] is accepted and then not loaded. *)
Lemma upper_case_extension_not_loaded_witness :
  validate_file_type (Some (upload "REPORT.PDF")) = true
  /\ exists w',
       process_input_file (example_env None None page None Upserted) "data/s1/REPORT.PDF"
         empty_world = (Return [], w')
       /\ calls w' = []
       /\ stdout w' = ["Unsupported file type: data/s1/REPORT.PDF"].
Proof.
  apply (upper_case_extension_not_loaded (example_env None None page None Upserted) "s1"
           (upload "REPORT.PDF") "REPORT" "PDF" empty_world).
  - reflexivity.
  - by left.
  - discriminate.
Defined.

(** ** utils/config.py: the settings as attributes of the class *)

Lemma update_from_dict_cons attrs key value config_dict :
  update_from_dict attrs ((key, value) :: config_dict)
  = update_from_dict
      (if decide (is_Some (attrs !! upper key)) then <[upper key := value]> attrs else attrs)
      config_dict.
Proof. reflexivity. Qed.

(** Writing back what the attributes hold changes nothing. *)
Lemma update_from_dict_same attrs config_dict :
  (forall key value, (key, value) ∈ config_dict -> attrs !! upper key = Some value) ->
  update_from_dict attrs config_dict = attrs.
Proof.
  induction config_dict as [|[key value] config_dict IH]; intros Hsame; [reflexivity |].
  rewrite update_from_dict_cons.
  assert (Hkey : attrs !! upper key = Some value) by (apply Hsame; by left).
  rewrite decide_True by (by eexists). rewrite (insert_id _ _ _ Hkey).
  apply IH. intros key' value' Hin. apply Hsame. by right.
Qed.

Lemma elem_of_get_config_dict attrs key value :
  (key, value) ∈ get_config_dict attrs
  <-> exists attr,
        key = lower attr /\ String.prefix "_" attr = false /\ attrs !! attr = Some value.
Proof.
  unfold get_config_dict. rewrite list_elem_of_fmap. split.
  - intros ([attr value'] & [= -> ->] & Hin).
    apply list_elem_of_filter in Hin as [Hpublic Hin].
    rewrite merge_sort_Permutation in Hin. apply elem_of_map_to_list in Hin.
    by exists attr.
  - intros (attr & -> & Hpublic & Hattr). exists (attr, value). split; [reflexivity |].
    apply list_elem_of_filter. split; [exact Hpublic |].
    rewrite merge_sort_Permutation. by apply elem_of_map_to_list.
Qed.

(** X23. When the names of the attributes are in upper case, as those of
    [RAGConfig] are, [get_config_dict] lists every attribute whose name
    does not start with an underscore once, under its name in lower case,
    and [update_from_dict] of that dict gives back the very attributes:
    saving the settings and loading them again changes nothing. *)
Theorem update_from_dict_get_config_dict attrs :
  map_Forall (fun attr _ => upper (lower attr) = attr) attrs ->
  update_from_dict attrs (get_config_dict attrs) = attrs
  /\ NoDup (get_config_dict attrs).*1
  /\ (forall key value,
        (key, value) ∈ get_config_dict attrs
        <-> exists attr,
              key = lower attr /\ String.prefix "_" attr = false
              /\ attrs !! attr = Some value).
Proof.
  intros Hupper. split; [| split].
  - apply update_from_dict_same. intros key value Hin.
    apply elem_of_get_config_dict in Hin as (attr & -> & _ & Hattr).
    by rewrite (Hupper attr value Hattr).
  - unfold get_config_dict.
    set (public := filter (fun '(attr, value) => String.prefix "_" attr = false)
                     (merge_sort (fun x y => String.le x.1 y.1) (map_to_list attrs))).
    assert (Hnames : NoDup public.*1).
    { apply (sublist_NoDup _ (merge_sort (fun x y => String.le x.1 y.1)
                                (map_to_list attrs)).*1).
      - rewrite merge_sort_Permutation. apply NoDup_fst_map_to_list.
      - apply fmap_sublist, sublist_filter. }
    assert (Hin : forall attr, attr ∈ public.*1 -> upper (lower attr) = attr).
    { intros attr ([attr' value] & -> & Hin)%list_elem_of_fmap.
      apply list_elem_of_filter in Hin as [_ Hin].
      rewrite merge_sort_Permutation in Hin. apply elem_of_map_to_list in Hin.
      exact (Hupper _ _ Hin). }
    replace (((fun '(attr, value) => (lower attr, value)) <$> public).*1)
      with (lower <$> public.*1).
    + apply NoDup_fmap_2_strong; [| exact Hnames].
      intros a b Ha Hb Hab. rewrite <- (Hin a Ha), <- (Hin b Hb). by rewrite Hab.
    + rewrite <- !list_fmap_compose. apply list_fmap_ext. by intros i [attr value].
  - apply elem_of_get_config_dict.
Qed.

(** The settings of the class, saved and loaded again. *)
Lemma update_from_dict_get_config_dict_witness :
  update_from_dict RAGConfig_attrs (get_config_dict RAGConfig_attrs) = RAGConfig_attrs.
Proof.
  apply (update_from_dict_get_config_dict RAGConfig_attrs).
  apply map_Forall_to_list. vm_compute. repeat constructor.
Defined.

(** What [update_from_dict] leaves alone. *)
Lemma update_from_dict_frame attrs config_dict :
  dom (update_from_dict attrs config_dict) = dom attrs
  /\ forall attr,
       attr ∉ (fun item : string * pyval => upper item.1) <$> config_dict ->
       update_from_dict attrs config_dict !! attr = attrs !! attr.
Proof.
  revert attrs. induction config_dict as [|[key value] config_dict IH]; intros attrs.
  - by split.
  - rewrite update_from_dict_cons.
    destruct (IH (if decide (is_Some (attrs !! upper key)) then <[upper key := value]> attrs
                  else attrs)) as [Hdom Hother].
    split.
    + rewrite Hdom. destruct (decide (is_Some (attrs !! upper key))) as [Hknown|_];
        [by apply dom_insert_lookup_L | reflexivity].
    + intros attr Hattr. cbn [fmap list_fmap fst] in Hattr.
      apply not_elem_of_cons in Hattr as [Hne Hattr].
      rewrite (Hother attr Hattr).
      destruct (decide (is_Some (attrs !! upper key))); [| reflexivity].
      by rewrite lookup_insert_ne.
Qed.

(** X24. [update_from_dict] never creates an attribute and never removes
    one: a key that names no attribute, in any letter case, is ignored.
    The attributes that the dict does not name keep their values, and a
    key is matched whatever its letter case. *)
Theorem update_from_dict_known_attributes_only attrs config_dict :
  dom (update_from_dict attrs config_dict) = dom attrs
  /\ (forall attr,
        attr ∉ (fun item : string * pyval => upper item.1) <$> config_dict ->
        update_from_dict attrs config_dict !! attr = attrs !! attr)
  /\ (forall key value,
        is_Some (attrs !! upper key) ->
        update_from_dict attrs [(key, value)] !! upper key = Some value).
Proof.
  destruct (update_from_dict_frame attrs config_dict) as [Hdom Hother].
  split; [exact Hdom |]. split; [exact Hother |].
  intros key value Hknown. rewrite update_from_dict_cons.
  rewrite decide_True by assumption. apply lookup_insert_eq.
Qed.

(** A key in lower case sets the attribute in upper case. *)
Lemma update_from_dict_known_attributes_only_witness :
  update_from_dict RAGConfig_attrs [("chunk_size", PyInt 512)] !! "CHUNK_SIZE"
  = Some (PyInt 512).
Proof.
  destruct (update_from_dict_known_attributes_only RAGConfig_attrs []) as (_ & _ & Hset).
  apply (Hset "chunk_size" (PyInt 512)). by eexists.
Defined.

(** X25. [apply_preset] accepts the names [low], [medium] and [high] in
    any letter case and raises the [ValueError] that names the preset for
    every other name.  An accepted preset creates no attribute and changes
    at most the seven tuning settings; the connection settings
    ([USE_SESSION_POOLING], [REQUEST_TIMEOUT], [MAX_RETRIES]) and
    [ENABLE_PROGRESS_LOGGING] are never touched. *)
Theorem apply_preset_tuning_only attrs preset_name :
  (lower preset_name ∈ ["low"; "medium"; "high"] ->
   exists attrs',
     apply_preset attrs preset_name = Return attrs'
     /\ dom attrs' = dom attrs
     /\ forall attr,
          attr ∉ ["EMBEDDING_MAX_WORKERS"; "EMBEDDING_BATCH_SIZE";
                  "DOC_PROCESSING_MAX_WORKERS"; "IMAGE_MAX_WORKERS"; "FILE_BATCH_SIZE";
                  "CHUNK_SIZE"; "CHUNK_OVERLAP"] ->
          attrs' !! attr = attrs !! attr)
  /\ (lower preset_name ∉ ["low"; "medium"; "high"] ->
      apply_preset attrs preset_name
      = Raise (ValueError ("Unknown preset: " +:+ preset_name
                             +:+ ". Available: low, medium, high"))).
Proof.
  unfold apply_preset, preset_map. cbn [dict_get].
  destruct (String.eqb_spec "low" (lower preset_name)) as [<- | Hlow];
    [| destruct (String.eqb_spec "medium" (lower preset_name)) as [<- | Hmedium];
       [| destruct (String.eqb_spec "high" (lower preset_name)) as [<- | Hhigh]]].
  1-3: split;
    [intros _; eexists; split; [reflexivity |];
     match goal with
     | |- context [update_from_dict ?a ?preset] =>
         destruct (update_from_dict_frame a preset) as [Hdom Hother]
     end;
     split; [exact Hdom | intros attr Hattr; apply Hother; exact Hattr]
    | intros Hnot; exfalso; apply Hnot;
      apply list_elem_of_In; simpl; tauto].
  split; [| reflexivity].
  intros Hin. exfalso.
  repeat (apply elem_of_cons in Hin as [Hin | Hin]; [congruence |]).
  by apply elem_of_nil in Hin.
Qed.

(** An unknown preset. *)
Lemma apply_preset_tuning_only_witness :
  apply_preset RAGConfig_attrs "Turbo"
  = Raise (ValueError "Unknown preset: Turbo. Available: low, medium, high").
Proof.
  destruct (apply_preset_tuning_only RAGConfig_attrs "Turbo") as [_ Hunknown].
  apply Hunknown. intros Hin.
  repeat (apply elem_of_cons in Hin as [Hin | Hin]; [by vm_compute in Hin |]).
  by apply elem_of_nil in Hin.
Defined.

(** X26. [optimize_for_system] never raises: it applies the preset [high]
    from eight CPUs on, [medium] from four on and [low] below, and counts
    an unknown number of CPUs as four.  That is the preset that
    [get_performance_info] recommends whenever the number of CPUs is
    known (and is not zero, which [or] would take for unknown); when it is
    unknown [get_performance_info] raises, as it compares [None] with an
    int. *)
Theorem optimize_for_system_applies_recommended os_cpu_count attrs :
  (exists attrs', optimize_for_system os_cpu_count attrs = Return attrs')
  /\ (forall n, os_cpu_count = Some n -> n <> 0%Z ->
        exists recommended,
          get_performance_info os_cpu_count attrs
          = Return (os_cpu_count, get_config_dict attrs, recommended)
          /\ optimize_for_system os_cpu_count attrs = apply_preset attrs recommended)
  /\ (os_cpu_count = None ->
      optimize_for_system os_cpu_count attrs = apply_preset attrs "medium"
      /\ exists e, get_performance_info os_cpu_count attrs = Raise e).
Proof.
  split; [| split].
  - unfold optimize_for_system.
    destruct (8 <=? _)%Z; [| destruct (4 <=? _)%Z]; by eexists.
  - intros n -> Hn. unfold get_performance_info, optimize_for_system, py_or.
    destruct (Z.eqb_spec n 0) as [|_]; [contradiction |].
    eexists. split; [reflexivity |].
    destruct (8 <=? n)%Z; [reflexivity |]. destruct (4 <=? n)%Z; reflexivity.
  - intros ->. split; [reflexivity | by eexists].
Qed.

(** Sixteen CPUs: the preset [high]. *)
Lemma optimize_for_system_applies_recommended_witness :
  optimize_for_system (Some 16%Z) RAGConfig_attrs = apply_preset RAGConfig_attrs "high".
Proof.
  destruct (optimize_for_system_applies_recommended (Some 16%Z) RAGConfig_attrs)
    as (_ & Hknown & _).
  destruct (Hknown 16%Z eq_refl ltac:(lia)) as (recommended & Hinfo & Hoptimize).
  assert (recommended = "high") as ->; [| exact Hoptimize].
  unfold get_performance_info in Hinfo.
  change (8 <=? 16)%Z with true in Hinfo. cbv iota in Hinfo.
  congruence.
Defined.

(** What a batch prints: in the order of completion, one line for each
    text whose task raised. *)
Lemma collect_embedding_printed futures order : forall embeddings printed,
  (foldl (collect_embedding futures) (embeddings, printed) order).2
  = printed
    ++ omap (fun index =>
               match futures !! index with
               | Some (Raise exc) =>
                   Some ("Embedding generation failed for text " +:+ str_nat index
                           +:+ ": " +:+ str exc)
               | _ => None
               end) order.
Proof.
  induction order as [|index order IH]; intros embeddings printed.
  - simpl. by rewrite app_nil_r.
  - cbn [foldl omap list_omap]. unfold collect_embedding at 2.
    destruct (futures !! index) as [[v|exc]|]; rewrite IH; [reflexivity | | reflexivity].
    by rewrite <- app_assoc.
Qed.

(** X27. The report of a batch.  [_embed_batch] prints exactly one line
    for each text of the batch whose task raised, with the position of the
    text in the batch (not in the whole input) and the text of the
    exception; it prints nothing for the texts that were embedded. *)
Theorem embed_batch_reports_failures cfg self post choice texts :
  (0 < self_max_workers self)%Z ->
  exists embeddings printed,
    _embed_batch cfg self post choice texts = Return (embeddings, printed)
    /\ printed
       ≡ₚ omap (fun index =>
                  text ← texts !! index;
                  match (embed cfg (post index text) text).2 with
                  | Raise exc =>
                      Some ("Embedding generation failed for text " +:+ str_nat index
                              +:+ ": " +:+ str exc)
                  | Return _ => None
                  end) (seq 0 (length texts)).
Proof.
  intros Hworkers. unfold _embed_batch.
  destruct (Z.leb_spec (self_max_workers self) 0) as [|_]; [lia |].
  eexists _, _. split; [apply f_equal, surjective_pairing |].
  rewrite collect_embedding_printed. cbn [app].
  rewrite (as_completed_perm choice (length texts)).
  apply (reflexive_eq (R := Permutation)).
  apply list_omap_ext, Forall_Forall2_diag, Forall_forall. intros index _.
  rewrite list_lookup_imap. destruct (texts !! index) as [text|]; [| reflexivity].
  simpl. destruct (embed cfg (post index text) text).2; reflexivity.
Qed.

(** Two texts, the second of which fails: one line, for position 1. *)
Lemma embed_batch_reports_failures_witness :
  exists embeddings printed,
    _embed_batch default_config {| self_max_workers := 4; self_batch_size := 2 |}
      stub_post (fun step => step) ["a"; "b"] = Return (embeddings, printed)
    /\ printed ≡ₚ ["Embedding generation failed for text 1: 503 Server Error"].
Proof.
  apply (embed_batch_reports_failures default_config
           {| self_max_workers := 4; self_batch_size := 2 |} stub_post (fun step => step)
           ["a"; "b"]).
  reflexivity.
Defined.

(** X28. The sorting of the uploads in [upload_page] loses and repeats
    nothing: the valid files are the uploads that pass
    [validate_file_type], the invalid files are the others, both in the
    order of the uploads. *)
Theorem sort_uploads_partitions uploaded_files :
  sort_uploads uploaded_files
  = (filter (fun f => validate_file_type (Some f) = true) uploaded_files,
     filter (fun f => validate_file_type (Some f) <> true) uploaded_files)
  /\ (sort_uploads uploaded_files).1 ++ (sort_uploads uploaded_files).2 ≡ₚ uploaded_files.
Proof.
  assert (Hfold : forall valid_files invalid_files,
             foldl
               (fun '(valid_files, invalid_files) uploaded_file =>
                  if validate_file_type (Some uploaded_file)
                  then (valid_files ++ [uploaded_file], invalid_files)
                  else (valid_files, invalid_files ++ [uploaded_file]))
               (valid_files, invalid_files) uploaded_files
             = (valid_files
                ++ filter (fun f => validate_file_type (Some f) = true) uploaded_files,
                invalid_files
                ++ filter (fun f => validate_file_type (Some f) <> true) uploaded_files)).
  { induction uploaded_files as [|f files IH]; intros valid_files invalid_files.
    - simpl. by rewrite !app_nil_r.
    - cbn [foldl]. rewrite !filter_cons.
      destruct (validate_file_type (Some f)) eqn:Hvalid.
      + rewrite IH, decide_True, decide_False by (by try intros []).
        by rewrite <- app_assoc.
      + rewrite IH, decide_False, decide_True by done.
        by rewrite <- app_assoc. }
  unfold sort_uploads. rewrite Hfold. cbn [app fst snd]. split; [reflexivity |].
  clear Hfold. induction uploaded_files as [|f files IH]; [reflexivity |].
  rewrite !filter_cons.
  destruct (decide (validate_file_type (Some f) = true)) as [Hvalid|Hinvalid].
  - rewrite decide_False by (by intros []). cbn [app]. by apply perm_skip.
  - rewrite decide_True by assumption. rewrite <- Permutation_middle. by apply perm_skip.
Qed.

(** X29. [get_db] never raises.  Without chunks it returns [None] and
    touches nothing; with chunks it asks once for an index of exactly these
    chunks and returns it as a new object, next to the indexes that exist,
    or prints the error and returns [None] when the construction raises. *)
Theorem get_db_never_raises cfg env splits embedding_max_workers embedding_batch_size s :
  exists db s',
    get_db cfg env splits embedding_max_workers embedding_batch_size s = (Return db, s')
    /\ lists s'.2 = lists s.2
    /\ (splits = [] -> db = None /\ s' = s)
    /\ (splits <> [] ->
        calls s'.1 = calls s.1 ++ [FromDocuments (length splits)]
        /\ match from_documents env (clock s.1) splits with
           | None =>
               exists new_db,
                 db = Some new_db /\ chroma s.2 !! new_db = None
                 /\ chroma s'.2 = <[new_db := splits]> (chroma s.2)
           | Some e =>
               db = None /\ chroma s'.2 = chroma s.2
               /\ stdout s'.1 = stdout s.1 ++ ["Error creating database: " +:+ str e]
           end).
Proof.
  destruct s as [w h].
  destruct (decide (splits = [])) as [-> | Hsplits].
  - exists None, (w, h). split; [reflexivity |]. split; [reflexivity |]. by split.
  - destruct (get_db_run cfg env splits embedding_max_workers embedding_batch_size w h
                Hsplits) as (db & w' & h' & Hrun & Hcalls & _ & _ & Hlists & Hdb).
    exists db, (w', h'). split; [exact Hrun |]. split; [exact Hlists |].
    split; [contradiction |]. intros _. split; [exact Hcalls |]. cbn [fst snd].
    destruct (from_documents env (clock w) splits) as [e|].
    + destruct Hdb as (-> & -> & ->). by repeat split.
    + destruct Hdb as (-> & -> & _). eexists. split; [reflexivity |].
      split; [apply not_elem_of_dom, is_fresh | reflexivity].
Qed.

(** The embedding endpoint rejects the chunks. *)
Lemma get_db_never_raises_witness :
  exists db s',
    get_db default_config
      (example_env None None page (Some (Exception "Dimension mismatch")) Upserted)
      page None (Some 10%Z) (empty_world, session_heap) = (Return db, s')
    /\ db = None /\ chroma s'.2 = chroma session_heap
    /\ stdout s'.1 = ["Error creating database: Dimension mismatch"].
Proof.
  destruct (get_db_never_raises default_config
              (example_env None None page (Some (Exception "Dimension mismatch")) Upserted)
              page None (Some 10%Z) (empty_world, session_heap))
    as (db & s' & Hrun & _ & _ & Hchunks).
  exists db, s'. split; [exact Hrun |].
  destruct Hchunks as [_ Hfailed]; [discriminate |]. exact Hfailed.
Defined.

Lemma os_makedirs_run env path w w' :
  os_makedirs env path w = (Return tt, w') ->
  is_Some (fs w' !! path)
  /\ (forall p files, fs w !! p = Some files -> fs w' !! p = Some files)
  /\ stdout w' = stdout w.
Proof.
  unfold os_makedirs, bind, tick, option_raise, get_fs, set_fs, ret, raise.
  cbn [clock fs].
  destruct (makedirs_error env (clock w) path); [discriminate |]. cbn [fs].
  destruct (fs w !! path) as [files|] eqn:Hpath.
  - intros [= <-]. cbn [fs stdout]. by split; [eexists |].
  - intros [= <-]. cbn [fs stdout]. split; [rewrite lookup_insert_eq; by eexists |].
    split; [| reflexivity]. intros p files Hp.
    rewrite lookup_insert_ne; [exact Hp | congruence].
Qed.

(** X30. When the two [os.makedirs] of [process_docs] succeed, the
    directories [data] and [data/{session_id}] exist afterwards, and every
    directory that existed before is still there with the files it had
    ([exist_ok=True] keeps what is there). *)
Theorem set_up_makes_directories cfg env session_id uploaded_files max_workers
    embedding_batch_size chunk_size s s' :
  set_up cfg env session_id uploaded_files max_workers embedding_batch_size chunk_size s
  = (Return tt, s') ->
  is_Some (fs s'.1 !! "data")
  /\ is_Some (fs s'.1 !! ("data/" +:+ session_id))
  /\ forall p files, fs s.1 !! p = Some files -> fs s'.1 !! p = Some files.
Proof.
  unfold set_up. generalize ("data/" +:+ session_id). intros dir.
  destruct s as [w h].
  assert (Hprints : exists w0,
             (if ENABLE_PROGRESS_LOGGING cfg
              then
                lift (print ("Processing " +:+ str_nat (length uploaded_files)
                               +:+ " files with optimized concurrent processing...")) ;;
                lift (print ("Configuration: workers=" +:+ str_Z max_workers
                               +:+ ", batch_size=" +:+ str_Z embedding_batch_size
                               +:+ ", chunk_size=" +:+ str_Z chunk_size))
              else ret tt) (w, h) = (Return tt, (w0, h)) /\ fs w0 = fs w).
  { destruct (ENABLE_PROGRESS_LOGGING cfg); eexists; split; reflexivity. }
  destruct Hprints as (w0 & Hprints & Hfs0).
  unfold bind at 1. rewrite Hprints.
  unfold bind at 1, lift at 1. cbn [fst snd].
  destruct (os_makedirs env "data" w0) as [[[]|e] w1] eqn:Hdata; [| discriminate].
  unfold lift. cbn [fst snd].
  destruct (os_makedirs env dir w1) as [[[]|e] w2] eqn:Hdir; [| discriminate].
  intros [= <-]. cbn [fst].
  destruct (os_makedirs_run env "data" w0 w1 Hdata) as ([files1 Hfiles1] & Hkept1 & _).
  destruct (os_makedirs_run env dir w1 w2 Hdir) as (Hmade & Hkept2 & _).
  split; [exists files1; by apply Hkept2 |]. split; [exact Hmade |].
  intros p files Hp. apply Hkept2, Hkept1. by rewrite Hfs0.
Qed.

(** The directories of session [s1] in an empty file system. *)
Lemma set_up_makes_directories_witness :
  let s' :=
    (set_up default_config (example_env None None page None Upserted) "s1"
       [upload "a.pdf"] 6 20 300 (empty_world, session_heap)).2 in
  is_Some (fs s'.1 !! "data") /\ is_Some (fs s'.1 !! ("data/" +:+ "s1"))
  /\ forall p files, fs empty_world !! p = Some files -> fs s'.1 !! p = Some files.
Proof.
  intros s'.
  apply (set_up_makes_directories default_config (example_env None None page None Upserted)
           "s1" [upload "a.pdf"] 6 20 300 (empty_world, session_heap) s').
  vm_compute. reflexivity.
Defined.
